(** * repo2docx: a shallow embedding of [index.js] and its verification

    The development follows the order of [index.js]:
    - [JsString]: the string primitives of the host language that the code
      calls ([includes], [endsWith], [split], [replace], [toLowerCase]);
    - [parseRepoIdentifier];
    - [isValidTextContent], on IEEE 754 binary64 numbers;
    - [addFileContent], [isBinaryFile], [shouldIgnorePath];
    - the entry loop of [repo2docx], in a state-and-exception monad.

    A JavaScript string is modelled as a [string]: a finite sequence of code
    units.  The code units of the model are 8 bits wide; none of the modelled
    operations looks at a code unit other than by comparing it with an ASCII
    character, except [toLowerCase] (see there). *)

From Stdlib Require Import Bool Arith ZArith NArith Lia List Ascii String.
From Stdlib Require Import Permutation SpecFloat.
Import ListNotations.

Local Open Scope string_scope.
Local Open Scope list_scope.

(* ================================================================== *)
(** ** String primitives *)

Module JsString.

(** [strip_prefix p s] is [Some r] when [s = p ++ r]. *)
Fixpoint strip_prefix (p s : string) : option string :=
  match p, s with
  | EmptyString, _ => Some s
  | String a p', String b s' =>
      if Ascii.eqb a b then strip_prefix p' s' else None
  | String _ _, EmptyString => None
  end.

(** [String.prototype.startsWith]. *)
Definition startsWith (s p : string) : bool :=
  match strip_prefix p s with Some _ => true | None => false end.

(** [String.prototype.includes]: some suffix of [s] starts with [sub]. *)
Fixpoint includes (s sub : string) : bool :=
  startsWith s sub ||
  match s with
  | EmptyString => false
  | String _ s' => includes s' sub
  end.

(** [take n s]: the first [n] code units of [s]. *)
Fixpoint take (n : nat) (s : string) : string :=
  match n, s with
  | S n', String c s' => String c (take n' s')
  | _, _ => EmptyString
  end.

(** [drop n s]: [s] without its first [n] code units. *)
Fixpoint drop (n : nat) (s : string) : string :=
  match n, s with
  | S n', String _ s' => drop n' s'
  | _, _ => s
  end.

(** [String.prototype.endsWith]: the last [length suf] code units of [s]
    are [suf]. *)
Definition endsWith (s suf : string) : bool :=
  (String.length suf <=? String.length s)%nat &&
  String.eqb (drop (String.length s - String.length suf) s) suf.

(** [s.replace(pat, "")] for a string pattern: the first occurrence of
    [pat] in [s] is removed, wherever it is; [s] is unchanged when there is
    none. *)
Fixpoint remove_first (pat s : string) : string :=
  match strip_prefix pat s with
  | Some r => r
  | None =>
      match s with
      | EmptyString => EmptyString
      | String c s' => String c (remove_first pat s')
      end
  end.

(** [s.split(sep)] for a separator of one code unit.  The result is never
    empty: [split sep ""] is [[""]]. *)
Fixpoint split (sep : ascii) (s : string) : list string :=
  match s with
  | EmptyString => [EmptyString]
  | String c s' =>
      if Ascii.eqb c sep then EmptyString :: split sep s'
      else
        match split sep s' with
        | seg :: segs => String c seg :: segs
        | [] => [String c EmptyString]
        end
  end.

(** [segs.join(sep)], the inverse of [split]. *)
Fixpoint join (sep : ascii) (segs : list string) : string :=
  match segs with
  | [] => EmptyString
  | [seg] => seg
  | seg :: segs' => seg ++ String sep (join sep segs')
  end.

(** Truthiness of a string: the empty string is falsy. *)
Definition truthy (s : string) : bool :=
  match s with EmptyString => false | String _ _ => true end.

(** [toLowerCase] on one code unit.  In the 8-bit range the lower-case
    mapping of Unicode moves [A]..[Z] and the Latin-1 capitals
    (0xC0..0xDE, the multiplication sign 0xD7 apart) up by 0x20 and leaves
    every other code unit alone. *)
Definition lower_unit (c : ascii) : ascii :=
  let n := nat_of_ascii c in
  if ((65 <=? n) && (n <=? 90))%nat then ascii_of_nat (n + 32)
  else if ((192 <=? n) && (n <=? 222) && negb (n =? 215))%nat
       then ascii_of_nat (n + 32)
  else c.

(** [String.prototype.toLowerCase]. *)
Fixpoint toLowerCase (s : string) : string :=
  match s with
  | EmptyString => EmptyString
  | String c s' => String (lower_unit c) (toLowerCase s')
  end.

(** The number of code units of [s] equal to [c]. *)
Fixpoint count (c : ascii) (s : string) : nat :=
  match s with
  | EmptyString => 0
  | String d s' => (if Ascii.eqb d c then 1 else 0) + count c s'
  end.

End JsString.

(* ================================================================== *)
(** ** Errors and results *)

(** A thrown [Error] carries its message. *)
Record Error : Type := mkError { message : string }.

Inductive result (A : Type) : Type :=
| Ok (a : A)
| Throw (e : Error).
Arguments Ok {A} a.
Arguments Throw {A} e.

(* ================================================================== *)
(** ** [parseRepoIdentifier] *)

Record RepositoryRef : Type := mkRef { owner : string; repo : string }.

(** The regular expressions of [parseRepoIdentifier] are sequences of
    literals and optional literals.  [re_match p s] matches [p] at the start
    of [s] the way a backtracking matcher does (an optional literal is tried
    first, and given up when the rest does not match) and returns what is
    left of [s] after the match. *)
Inductive re_item : Type :=
| Lit (l : string)
| Opt (l : string).

Fixpoint re_match (p : list re_item) (s : string) : option string :=
  match p with
  | [] => Some s
  | Lit l :: p' =>
      match JsString.strip_prefix l s with
      | Some r => re_match p' r
      | None => None
      end
  | Opt l :: p' =>
      match
        match JsString.strip_prefix l s with
        | Some r => re_match p' r
        | None => None
        end
      with
      | Some r => Some r
      | None => re_match p' s
      end
  end.

(** [/^https?:\/\/(www\.)?github\.com\//] *)
Definition url_prefix_re : list re_item :=
  [Lit "http"; Opt "s"; Lit "://"; Opt "www."; Lit "github.com/"].

(** [s.replace(/^https?:\/\/(www\.)?github\.com\//, "")] *)
Definition strip_url_prefix (s : string) : string :=
  match re_match url_prefix_re s with
  | Some r => r
  | None => s
  end.

(** [s.replace(/\.git$/, "")] *)
Definition strip_git_suffix (s : string) : string :=
  if JsString.endsWith s ".git"
  then JsString.take (String.length s - 4) s
  else s.

Definition invalid_identifier : Error :=
  mkError "Invalid repository identifier. Please use a GitHub URL (https://github.com/owner/repo) or owner/repo format.".

Definition parseRepoIdentifier (repoIdentifier : string) : result RepositoryRef :=
  if JsString.includes repoIdentifier "github.com" then
    let urlPath :=
      JsString.split "/" (strip_git_suffix (strip_url_prefix repoIdentifier)) in
    match urlPath with
    | o :: r :: _ => Ok (mkRef o r)
    | _ => Throw invalid_identifier
    end
  else if JsString.includes repoIdentifier "/" then
    match JsString.split "/" repoIdentifier with
    | o :: r :: _ =>
        if JsString.truthy o && JsString.truthy r then Ok (mkRef o r)
        else Throw invalid_identifier
    | _ => Throw invalid_identifier
    end
  else Throw invalid_identifier.

(* ================================================================== *)
(** ** Numbers

    A JavaScript number is an IEEE 754 binary64 value; the operations are
    those of the standard library's executable specification [SpecFloat]. *)

Module Number.

Definition prec : Z := 53.
Definition emax : Z := 1024.

Definition t : Type := spec_float.

(** The number a non-negative integer converts to. *)
Definition of_nat (n : nat) : t :=
  binary_normalize prec emax (Z.of_nat n) 0 false.

(** [x / y] *)
Definition div (x y : t) : t := SFdiv prec emax x y.

(** [x < y]; false when either side is NaN. *)
Definition ltb (x y : t) : bool := SFltb x y.

(** The literal [0.01]: the binary64 number nearest to 1/100, which is
    5764607523034235 * 2^-59 (bit pattern 0x3F847AE147AE147B). *)
Definition lit_0_01 : t := S754_finite false 5764607523034235 (-59).

End Number.

(* ================================================================== *)
(** ** [isValidTextContent] *)

Definition NUL : ascii := "000"%char.

(** [(content.match(/\0/g) || []).length / content.length] *)
Definition nullByteRatio (content : string) : Number.t :=
  Number.div (Number.of_nat (JsString.count NUL content))
             (Number.of_nat (String.length content)).

Definition isValidTextContent (content : string) : bool :=
  Number.ltb (nullByteRatio content) Number.lit_0_01.

(* ================================================================== *)
(** ** Paragraphs and [addFileContent] *)

Inductive HeadingLevel : Type := HEADING_1 | HEADING_2.
Inductive UnderlineType : Type := SINGLE.

Record Spacing : Type := mkSpacing { before : option N; after : option N }.

(** The options object a [Paragraph] is built from. *)
Record Paragraph : Type := mkParagraph {
  heading : option HeadingLevel;
  text : string;
  spacing : option Spacing;
  bold : bool;
  underline : option UnderlineType
}.

(** [new Paragraph({ text })] *)
Definition textParagraph (t : string) : Paragraph :=
  mkParagraph None t None false None.

Definition CR : ascii := "013"%char.
Definition LF : ascii := "010"%char.

(** Puts [c] in front of the first segment. *)
Definition cons_first (c : ascii) (segs : list string) : list string :=
  match segs with
  | seg :: segs' => String c seg :: segs'
  | [] => [String c EmptyString]
  end.

(** [content.split(/\r?\n/)]: scanning from the left, a line feed, or a
    carriage return directly followed by a line feed, ends the current
    segment. *)
Fixpoint split_lines (s : string) : list string :=
  match s with
  | EmptyString => [EmptyString]
  | String c s' =>
      if Ascii.eqb c LF then EmptyString :: split_lines s'
      else
        match s' with
        | String d s'' =>
            if Ascii.eqb c CR && Ascii.eqb d LF
            then EmptyString :: split_lines s''
            else cons_first c (split_lines s')
        | EmptyString => cons_first c (split_lines s')
        end
  end.

(** [line || " "] *)
Definition line_or_space (line : string) : string :=
  if JsString.truthy line then line else " ".

(** [addFileContent(content, children)]: one [push] per line. *)
Definition addFileContent (content : string) (children : list Paragraph)
  : list Paragraph :=
  fold_left
    (fun children line => children ++ [textParagraph (line_or_space line)])
    (split_lines content) children.

(* ================================================================== *)
(** ** [isBinaryFile] *)

Definition binaryExtensions : list string :=
  [ ".jpg"; ".jpeg"; ".png"; ".gif"; ".bmp"; ".ico"; ".pdf"; ".exe"; ".dll";
    ".so"; ".dylib"; ".zip"; ".tar"; ".gz"; ".rar"; ".7z"; ".mp3"; ".mp4";
    ".avi"; ".mov"; ".mpg"; ".ttf"; ".woff"; ".class"; ".pyc"; ".pyd"; ".o";
    ".obj" ].

Definition isBinaryFile (filename : string) : bool :=
  existsb
    (fun ext => JsString.endsWith (JsString.toLowerCase filename) ext)
    binaryExtensions.

(* ================================================================== *)
(** ** The libraries the code calls

    [minimatch] and the decoding of a [Buffer] are not part of the
    repository.  The code is verified for every implementation of them:
    [minimatch path pattern] stands for
    [minimatch(path, pattern, { matchBase: true })], which returns a boolean
    or throws (the library refuses a pattern that is too long with a
    [TypeError]), and [toString_utf8] for [buffer.toString("utf8")]. *)

Definition Buffer : Type := list Byte.byte.

Class Libraries : Type := {
  minimatch : string -> string -> result bool;
  toString_utf8 : Buffer -> string
}.

(* ================================================================== *)
(** ** [shouldIgnorePath] and the pattern sources *)

Fixpoint shouldIgnorePath `{Libraries} (filePath : string)
  (ignorePatterns : list string) : result bool :=
  match ignorePatterns with
  | [] => Ok false
  | pattern :: rest =>
      match minimatch filePath pattern with
      | Throw e => Throw e
      | Ok true => Ok true
      | Ok false => shouldIgnorePath filePath rest
      end
  end.

Definition getDefaultIgnorePatterns : list string :=
  [ ".git/**"; ".gitignore"; ".gitattributes"; ".gitmodules"; ".gitkeep";
    ".github/**";
    "node_modules/**"; "package-lock.json"; "yarn.lock"; "npm-debug.log*";
    "yarn-debug.log*"; "yarn-error.log*";
    ".vscode/**"; ".idea/**"; "*.sublime-*"; ".editorconfig";
    "dist/**"; "build/**"; "out/**"; ".babelrc"; ".eslintrc*";
    ".prettierrc*"; "tsconfig.json"; "jsconfig.json"; "webpack.config.js";
    "rollup.config.js";
    "logs/**"; "*.log"; "temp/**"; "tmp/**";
    "README.md"; "CHANGELOG.md"; "LICENSE"; "LICENSE.md"; "AUTHORS";
    "CONTRIBUTORS";
    ".DS_Store"; "Thumbs.db" ].

(** [[...defaultIgnorePatterns, ...customIgnorePatterns, ...ignorePaths]] *)
Definition allIgnorePatterns
  (defaultIgnorePatterns customIgnorePatterns ignorePaths : list string)
  : list string :=
  defaultIgnorePatterns ++ customIgnorePatterns ++ ignorePaths.

(* ================================================================== *)
(** ** The entry loop of [repo2docx] *)

(** An entry of the archive.  [getData] is what [entry.getData()] does when
    it is called: it returns the bytes of the entry or throws. *)
Record ZipEntry : Type := mkEntry {
  entryName : string;
  isDirectory : bool;
  getData : result Buffer
}.

(** What the loop writes to the console. *)
Inductive ConsoleEvent : Type :=
| LogSkippedByIgnore (n : N)   (* Skipped n files based on ignore patterns *)
| LogProcessed (n : N)         (* Processed n files... *)
| WarnCouldNotProcess (name : string) (msg : string).

(** The variables the loop updates.  [dataCalls] is not a variable of the
    code: it records, in order, the names of the entries whose [getData] was
    called. *)
Record WalkState : Type := mkState {
  children : list Paragraph;
  processedFiles : N;
  skippedFilesByIgnore : N;
  skippedFilesByBinary : N;
  skippedFilesByValidation : N;
  skippedFilesByError : N;
  console : list ConsoleEvent;
  dataCalls : list string
}.

(** Computations that update the state and may throw; what was done before
    a throw stays done. *)
Definition M (A : Type) : Type := WalkState -> result A * WalkState.

Definition ret {A} (a : A) : M A := fun st => (Ok a, st).

Definition bind {A B} (m : M A) (k : A -> M B) : M B :=
  fun st =>
    match m st with
    | (Ok a, st') => k a st'
    | (Throw e, st') => (Throw e, st')
    end.

Definition throw {A} (e : Error) : M A := fun st => (Throw e, st).

(** [try { m } catch (error) { handler error }] *)
Definition try_catch {A} (m : M A) (handler : Error -> M A) : M A :=
  fun st =>
    match m st with
    | (Ok a, st') => (Ok a, st')
    | (Throw e, st') => handler e st'
    end.

(** A computation that leaves the state as it is: it returns or throws. *)
Definition lift {A} (r : result A) : M A := fun st => (r, st).

Definition get : M WalkState := fun st => (Ok st, st).
Definition modify (f : WalkState -> WalkState) : M unit :=
  fun st => (Ok tt, f st).

Declare Scope walk_scope.
Delimit Scope walk_scope with walk.
Notation "x <- m ;; k" := (bind m (fun x => k))
  (at level 61, m at next level, right associativity) : walk_scope.
Notation "m ;; k" := (bind m (fun _ => k))
  (at level 61, right associativity) : walk_scope.
Local Open Scope walk_scope.

Definition when (b : bool) (m : M unit) : M unit := if b then m else ret tt.

Definition push (ps : list Paragraph) : M unit :=
  modify (fun st =>
    mkState (children st ++ ps) (processedFiles st) (skippedFilesByIgnore st)
      (skippedFilesByBinary st) (skippedFilesByValidation st)
      (skippedFilesByError st) (console st) (dataCalls st)).

Definition write_console (ev : ConsoleEvent) : M unit :=
  modify (fun st =>
    mkState (children st) (processedFiles st) (skippedFilesByIgnore st)
      (skippedFilesByBinary st) (skippedFilesByValidation st)
      (skippedFilesByError st) (console st ++ [ev]) (dataCalls st)).

Definition incr_processedFiles : M unit :=
  modify (fun st =>
    mkState (children st) (processedFiles st + 1) (skippedFilesByIgnore st)
      (skippedFilesByBinary st) (skippedFilesByValidation st)
      (skippedFilesByError st) (console st) (dataCalls st)).

Definition incr_skippedFilesByIgnore : M unit :=
  modify (fun st =>
    mkState (children st) (processedFiles st) (skippedFilesByIgnore st + 1)
      (skippedFilesByBinary st) (skippedFilesByValidation st)
      (skippedFilesByError st) (console st) (dataCalls st)).

Definition incr_skippedFilesByBinary : M unit :=
  modify (fun st =>
    mkState (children st) (processedFiles st) (skippedFilesByIgnore st)
      (skippedFilesByBinary st + 1) (skippedFilesByValidation st)
      (skippedFilesByError st) (console st) (dataCalls st)).

Definition incr_skippedFilesByValidation : M unit :=
  modify (fun st =>
    mkState (children st) (processedFiles st) (skippedFilesByIgnore st)
      (skippedFilesByBinary st) (skippedFilesByValidation st + 1)
      (skippedFilesByError st) (console st) (dataCalls st)).

Definition incr_skippedFilesByError : M unit :=
  modify (fun st =>
    mkState (children st) (processedFiles st) (skippedFilesByIgnore st)
      (skippedFilesByBinary st) (skippedFilesByValidation st)
      (skippedFilesByError st + 1) (console st) (dataCalls st)).

(** [entry.getData()] *)
Definition call_getData (entry : ZipEntry) : M Buffer :=
  fun st =>
    (getData entry,
     mkState (children st) (processedFiles st) (skippedFilesByIgnore st)
       (skippedFilesByBinary st) (skippedFilesByValidation st)
       (skippedFilesByError st) (console st)
       (dataCalls st ++ [entryName entry])).

(** [entry.entryName.replace(`${repo}-${branch}/`, "")] *)
Definition cleanPath (repo branch : string) (entry : ZipEntry) : string :=
  JsString.remove_first (repo ++ "-" ++ branch ++ "/") (entryName entry).

(** The heading of a file: its path, bold and underlined. *)
Definition fileHeading (path : string) : Paragraph :=
  mkParagraph (Some HEADING_2) path
    (Some (mkSpacing (Some 400%N) (Some 200%N))) true (Some SINGLE).

Definition separator : Paragraph :=
  mkParagraph None
    "----------------------------------------------------------------------"
    (Some (mkSpacing None (Some 200%N))) false None.

Local Open Scope N_scope.

Section Walk.
Context `{Libraries}.
Variables (repo_name branch : string) (ignorePatterns : list string).

(** The body of the [try] block for one entry. *)
Definition processFile (entry : ZipEntry) (path : string) : M unit :=
  data <- call_getData entry ;;
  let content := toString_utf8 data in
  if negb (isValidTextContent content) then
    incr_skippedFilesByValidation
  else
    push [fileHeading path] ;;
    modify (fun st =>
      mkState (addFileContent content (children st)) (processedFiles st)
        (skippedFilesByIgnore st) (skippedFilesByBinary st)
        (skippedFilesByValidation st) (skippedFilesByError st)
        (console st) (dataCalls st)) ;;
    push [separator] ;;
    incr_processedFiles ;;
    st <- get ;;
    when (processedFiles st mod 25 =? 0)
         (write_console (LogProcessed (processedFiles st))).

(** The body of the [for] loop for one entry; [continue] ends it.  The
    call of [shouldIgnorePath] is not inside the [try] block: what it
    throws leaves the loop. *)
Definition processEntry (entry : ZipEntry) : M unit :=
  if negb (isDirectory entry) then
    let path := cleanPath repo_name branch entry in
    ignored <- lift (shouldIgnorePath path ignorePatterns) ;;
    if ignored then
      incr_skippedFilesByIgnore ;;
      st <- get ;;
      when (skippedFilesByIgnore st mod 50 =? 0)
           (write_console (LogSkippedByIgnore (skippedFilesByIgnore st)))
    else if isBinaryFile path then
      incr_skippedFilesByBinary
    else
      try_catch (processFile entry path)
        (fun error =>
           write_console
             (WarnCouldNotProcess (entryName entry) (message error)) ;;
           incr_skippedFilesByError)
  else ret tt.

(** [for (const entry of zipEntries) { ... }] *)
Fixpoint processEntries (zipEntries : list ZipEntry) : M unit :=
  match zipEntries with
  | [] => ret tt
  | entry :: rest => processEntry entry ;; processEntries rest
  end.

End Walk.

(** The state the loop starts in: the counters at zero, [children] holding
    what was pushed before the loop. *)
Definition initialState (children0 : list Paragraph) : WalkState :=
  mkState children0 0 0 0 0 0 [] [].

Local Close Scope N_scope.

(* ================================================================== *)
(** ** Notions used to state the properties *)

(** [s] begins with the two segments [o] and [r]: neither holds a slash, and
    [s] is [o/r] or [o/r/...]. *)
Definition leads_with (s o r : string) : Prop :=
  JsString.count "/" o = 0 /\ JsString.count "/" r = 0 /\
  exists t, s = (o ++ "/" ++ r ++ t)%string /\
            (t = EmptyString \/ JsString.startsWith t "/" = true).

(** The slashes in the literals of a pattern. *)
Fixpoint lit_count (c : ascii) (p : list re_item) : nat :=
  match p with
  | [] => 0
  | Lit l :: p' => JsString.count c l + lit_count c p'
  | Opt _ :: p' => lit_count c p'
  end.

(** A text as its author sees it: lines, each closed by a line feed or by a
    carriage return and a line feed, and a last line that is not closed. *)
Inductive LineEnd : Type := EndLF | EndCRLF.

Definition line_end (e : LineEnd) : string :=
  match e with
  | EndLF => String LF EmptyString
  | EndCRLF => String CR (String LF EmptyString)
  end.

Fixpoint unlines (closed : list (string * LineEnd)) (last : string) : string :=
  match closed with
  | [] => last
  | (l, e) :: closed' => (l ++ line_end e ++ unlines closed' last)%string
  end.

(** A line holds no line feed; a carriage return at the end of a line that
    is closed by a bare line feed would read as part of the line end. *)
Definition proper_line (le : string * LineEnd) : Prop :=
  JsString.count LF (fst le) = 0 /\
  (snd le = EndLF -> JsString.endsWith (fst le) (String CR EmptyString) = false).

(** The verdict on an entry, in the words of the specification: excluded by
    a pattern; else binary by its extension; else, once decoded, failed,
    invalid as text, or included.  An entry on whose path the matcher throws
    has no verdict. *)
Inductive ClassificationVerdict : Type :=
| Included
| SkippedByIgnore
| SkippedAsBinary
| SkippedAsInvalidText
| SkippedByError.

Definition verdict_eqb (v w : ClassificationVerdict) : bool :=
  match v, w with
  | Included, Included
  | SkippedByIgnore, SkippedByIgnore
  | SkippedAsBinary, SkippedAsBinary
  | SkippedAsInvalidText, SkippedAsInvalidText
  | SkippedByError, SkippedByError => true
  | _, _ => false
  end.

Definition verdict `{Libraries} (repo_name branch : string)
  (ignorePatterns : list string) (entry : ZipEntry)
  : option ClassificationVerdict :=
  let path := cleanPath repo_name branch entry in
  match shouldIgnorePath path ignorePatterns with
  | Throw _ => None
  | Ok true => Some SkippedByIgnore
  | Ok false =>
      if isBinaryFile path then Some SkippedAsBinary
      else
        match getData entry with
        | Throw _ => Some SkippedByError
        | Ok data =>
            if isValidTextContent (toString_utf8 data) then Some Included
            else Some SkippedAsInvalidText
        end
  end.

(** The entry has the verdict [v]. *)
Definition has_verdict `{Libraries} (repo_name branch : string)
  (ignorePatterns : list string) (v : ClassificationVerdict)
  (entry : ZipEntry) : bool :=
  match verdict repo_name branch ignorePatterns entry with
  | Some w => verdict_eqb w v
  | None => false
  end.

(** The matcher answers for the path and the pattern: it does not throw. *)
Definition answers `{Libraries} (path pattern : string) : Prop :=
  exists b, minimatch path pattern = Ok b.

(** The pattern matches the path. *)
Definition matches `{Libraries} (path pattern : string) : bool :=
  match minimatch path pattern with
  | Ok b => b
  | Throw _ => false
  end.

(** The loop gets past the ignore check of the entry: the entry is a
    directory, which is not checked, or [shouldIgnorePath] returns on its
    path. *)
Definition checkable `{Libraries} (repo_name branch : string)
  (ignorePatterns : list string) (entry : ZipEntry) : bool :=
  isDirectory entry
  || match shouldIgnorePath (cleanPath repo_name branch entry)
             ignorePatterns with
     | Ok _ => true
     | Throw _ => false
     end.

(** The counter of the loop that stands for a verdict. *)
Definition counter (v : ClassificationVerdict) (st : WalkState) : N :=
  match v with
  | Included => processedFiles st
  | SkippedByIgnore => skippedFilesByIgnore st
  | SkippedAsBinary => skippedFilesByBinary st
  | SkippedAsInvalidText => skippedFilesByValidation st
  | SkippedByError => skippedFilesByError st
  end.


(** The entries that are files. *)
Definition files (zipEntries : list ZipEntry) : list ZipEntry :=
  filter (fun entry => negb (isDirectory entry)) zipEntries.

(** The number of files with verdict [v]. *)
Definition tally `{Libraries} (repo_name branch : string)
  (ignorePatterns : list string) (v : ClassificationVerdict)
  (zipEntries : list ZipEntry) : nat :=
  List.length
    (filter (has_verdict repo_name branch ignorePatterns v)
            (files zipEntries)).

(** An implementation of the libraries to run the loop on examples.  The
    matcher knows the shapes of the default patterns only: [dir/**] matches
    what lies under [dir/]; a pattern without a slash is matched against the
    last segment of the path, as the [matchBase] option has it, where
    [*suffix] and [prefix*] match by suffix and by prefix and any other
    pattern by equality.  Like the library, it refuses a pattern of more
    than 65536 code units.  A byte decodes to the code unit of the same
    number, which is what UTF-8 does with ASCII bytes. *)
Definition sampleGlob (path pattern : string) : bool :=
  if JsString.endsWith pattern "/**" then
    JsString.startsWith path
      (JsString.take (String.length pattern - 2) pattern)
  else if JsString.includes pattern "/" then String.eqb path pattern
  else
    let base := last (JsString.split "/" path) EmptyString in
    if JsString.startsWith pattern "*" then
      JsString.endsWith base (JsString.drop 1 pattern)
    else if JsString.endsWith pattern "*" then
      JsString.startsWith base
        (JsString.take (String.length pattern - 1) pattern)
    else String.eqb base pattern.

Definition MAX_PATTERN_LENGTH : N := 65536.

Definition pattern_too_long : Error := mkError "pattern is too long".

(** The length of [s], added to [acc]. *)
Fixpoint length_from (acc : N) (s : string) : N :=
  match s with
  | EmptyString => acc
  | String _ s' => length_from (N.succ acc) s'
  end.

Definition sampleMinimatch (path pattern : string) : result bool :=
  if (MAX_PATTERN_LENGTH <? length_from 0 pattern)%N
  then Throw pattern_too_long
  else Ok (sampleGlob path pattern).

(** A pattern of 65537 code units. *)
Definition overlongPattern : string :=
  N.iter 65537 (String "a"%char) EmptyString.

Definition sampleLibraries : Libraries :=
  {| minimatch := sampleMinimatch; toString_utf8 := string_of_list_byte |}.

(** Entries to run the loop on. *)
Definition brokenEntry : ZipEntry :=
  mkEntry "repo-main/broken.txt" false (Throw (mkError "Invalid CEN header")).

Definition emptyEntry : ZipEntry :=
  mkEntry "repo-main/empty.txt" false (Ok []).

Definition imageEntry : ZipEntry :=
  mkEntry "repo-main/assets/logo.PNG" false
    (Ok (list_byte_of_string "only ASCII bytes")).

(** The archive of the end-to-end scenario: a readme, a source file, a
    dependency and an image, with their directories. *)
Definition sampleArchive : list ZipEntry :=
  [ mkEntry "repo-main/" true (Ok []);
    mkEntry "repo-main/README.md" false (Ok (list_byte_of_string "# repo"));
    mkEntry "repo-main/src/" true (Ok []);
    mkEntry "repo-main/src/index.js" false
      (Ok (list_byte_of_string
             ("const x = 1;" ++ String LF ("module.exports = x;" ++ String LF ""))));
    mkEntry "repo-main/node_modules/x/index.js" false
      (Ok (list_byte_of_string "module.exports = {};"));
    mkEntry "repo-main/logo.png" false
      (Ok (list_byte_of_string "only ASCII bytes")) ].

(** [l] places the rational [num/den] in the unit interval that starts at
    [m]: on [m], below the middle, on the middle or above it. *)
Definition located (m : Z) (l : location) (num den : Z) : Prop :=
  match l with
  | loc_Exact => num = (m * den)%Z
  | loc_Inexact Lt => (m * den < num /\ 2 * num < (2 * m + 1) * den)%Z
  | loc_Inexact Eq => (2 * num = (2 * m + 1) * den)%Z
  | loc_Inexact Gt => ((2 * m + 1) * den < 2 * num /\ num < (m + 1) * den)%Z
  end.

(** [replicate n c]: [n] times the code unit [c]. *)
Fixpoint replicate (n : nat) (c : ascii) : string :=
  match n with
  | O => EmptyString
  | S n' => String c (replicate n' c)
  end.

(** A content of [total] code units, the first [nulls] of which are null. *)
Definition sampleContent (nulls total : nat) : string :=
  (replicate nulls NUL ++ replicate (total - nulls) "a"%char)%string.

(* ================================================================== *)
(** ** [parseDocxIgnore] *)

(** The white space and line terminators that [trim] removes.  In the
    8-bit range they are the code units 9 to 13, the space and the
    no-break space. *)
Definition is_space (c : ascii) : bool :=
  let n := nat_of_ascii c in
  (((9 <=? n) && (n <=? 13)) || (n =? 32) || (n =? 160))%nat.

(** [String.prototype.trimStart] *)
Fixpoint trimStart (s : string) : string :=
  match s with
  | EmptyString => EmptyString
  | String c s' => if is_space c then trimStart s' else s
  end.

(** [String.prototype.trimEnd] *)
Fixpoint trimEnd (s : string) : string :=
  match s with
  | EmptyString => EmptyString
  | String c s' =>
      match trimEnd s' with
      | EmptyString => if is_space c then EmptyString else String c EmptyString
      | String d t => String c (String d t)
      end
  end.

(** [String.prototype.trim] *)
Definition trim (s : string) : string := trimEnd (trimStart s).

(** [line.trim() && !line.startsWith("#")] *)
Definition keeps_line (line : string) : bool :=
  JsString.truthy (trim line) && negb (JsString.startsWith line "#").

(** [content.split(/\r?\n/).filter(...).map((line) => line.trim())], the
    expression that [parseDocxIgnore] and [readLocalDocxIgnore] share. *)
Definition patterns_of (content : string) : list string :=
  map trim (filter keeps_line (split_lines content)).

Definition parseDocxIgnore (content : string) : list string :=
  if negb (JsString.truthy content) then [] else patterns_of content.

(** [s] does not begin with white space. *)
Definition starts_clean (s : string) : Prop :=
  match s with
  | EmptyString => True
  | String c _ => is_space c = false
  end.

(* ================================================================== *)
(** ** What the entry loop builds *)

(** The paragraphs of one file, field by field: the heading, which is the
    path, bold and underlined; a plain paragraph for each line, an empty
    line as one space; the separator. *)
Definition fileSection (path content : string) : list Paragraph :=
  mkParagraph (Some HEADING_2) path
    (Some (mkSpacing (Some 400%N) (Some 200%N))) true (Some SINGLE)
  :: map (fun line =>
            mkParagraph None
              (match line with EmptyString => " "%string | _ => line end)
              None false None)
         (split_lines content)
  ++ [ mkParagraph None
         "----------------------------------------------------------------------"
         (Some (mkSpacing None (Some 200%N))) false None ].

(** The paragraphs an entry adds to the document: those of its file when
    the verdict is [Included], none otherwise. *)
Definition entrySection `{Libraries} (repo_name branch : string)
  (ignorePatterns : list string) (entry : ZipEntry) : list Paragraph :=
  if isDirectory entry then []
  else
    match verdict repo_name branch ignorePatterns entry, getData entry with
    | Some Included, Ok data =>
        fileSection (cleanPath repo_name branch entry) (toString_utf8 data)
    | _, _ => []
    end.

(** The entries whose content the loop asks for: the files that the ignore
    check lets through and whose extension is not binary. *)
Definition isRead `{Libraries} (repo_name branch : string)
  (ignorePatterns : list string) (entry : ZipEntry) : bool :=
  negb (isDirectory entry)
  && match shouldIgnorePath (cleanPath repo_name branch entry)
             ignorePatterns with
     | Ok false => negb (isBinaryFile (cleanPath repo_name branch entry))
     | _ => false
     end.

(** The numbers the console shows for processed and for ignored files. *)
Definition processedLogs (evs : list ConsoleEvent) : list N :=
  flat_map (fun ev => match ev with LogProcessed n => [n] | _ => [] end) evs.

Definition ignoredLogs (evs : list ConsoleEvent) : list N :=
  flat_map (fun ev => match ev with LogSkippedByIgnore n => [n] | _ => [] end)
           evs.

(** The first [k] positive multiples of [step]. *)
Definition multiples (step : N) (k : N) : list N :=
  map (fun i => (step * N.of_nat i)%N) (seq 1 (N.to_nat k)).

(** The console has shown the processed count at every multiple of 25 and
    the ignored count at every multiple of 50, in order, and at no other
    count. *)
Definition progress_logged (st : WalkState) : Prop :=
  processedLogs (console st) = multiples 25 (processedFiles st / 25)%N /\
  ignoredLogs (console st) = multiples 50 (skippedFilesByIgnore st / 50)%N.

(** The warnings on the console: the name of the entry and the message. *)
Definition warningLogs (evs : list ConsoleEvent) : list (string * string) :=
  flat_map
    (fun ev =>
       match ev with
       | WarnCouldNotProcess name msg => [(name, msg)]
       | _ => []
       end)
    evs.

(** The warning an entry gives rise to: that of a file whose content is
    asked for and cannot be read. *)
Definition entryWarning `{Libraries} (repo_name branch : string)
  (ignorePatterns : list string) (entry : ZipEntry)
  : list (string * string) :=
  if isRead repo_name branch ignorePatterns entry then
    match getData entry with
    | Throw err => [(entryName entry, message err)]
    | Ok _ => []
    end
  else [].

(** What one turn of the loop has done with [entry], from [st] to [st']:
    the counter of the verdict has moved by one, the section of the entry
    is in the document, its content was asked for if it had to be, and its
    warning is on the console. *)
Definition stepped `{Libraries} (repo_name branch : string)
  (ignorePatterns : list string) (entry : ZipEntry) (st st' : WalkState)
  : Prop :=
  (forall v,
     counter v st'
     = (counter v st
        + if negb (isDirectory entry)
             && has_verdict repo_name branch ignorePatterns v entry
          then 1 else 0)%N) /\
  children st'
  = children st ++ entrySection repo_name branch ignorePatterns entry /\
  dataCalls st'
  = dataCalls st
    ++ (if isRead repo_name branch ignorePatterns entry
        then [entryName entry] else []) /\
  warningLogs (console st')
  = warningLogs (console st)
    ++ entryWarning repo_name branch ignorePatterns entry.

(** What the loop has done once it has gone over the entries [done]. *)
Definition walked_over `{Libraries} (repo_name branch : string)
  (ignorePatterns : list string) (done : list ZipEntry) (st st' : WalkState)
  : Prop :=
  (forall v,
     counter v st'
     = (counter v st
        + N.of_nat (tally repo_name branch ignorePatterns v done))%N) /\
  children st'
  = children st
    ++ flat_map (entrySection repo_name branch ignorePatterns) done /\
  dataCalls st'
  = dataCalls st
    ++ map entryName (filter (isRead repo_name branch ignorePatterns) done) /\
  warningLogs (console st')
  = warningLogs (console st)
    ++ flat_map (entryWarning repo_name branch ignorePatterns) done.

(** A file to run the loop on, as often as needed. *)
Definition sourceEntry : ZipEntry :=
  mkEntry "repo-main/src/index.js" false
    (Ok (list_byte_of_string "module.exports = {};")).

(* ================================================================== *)
(** ** [repo2docx]

    The function calls the hosting service, the network, the archive
    library, the document library and the file system.  [World] holds what
    each of these calls answers: a value, or a thrown error. *)

(** [new Document({ creator, title, description, sections: [{ children }] })] *)
Record Document : Type := mkDocument {
  creator : string;
  title : string;
  description : string;
  sectionChildren : list Paragraph
}.

Record World : Type := mkWorld {
  (** [process.env.GITHUB_TOKEN], [None] when it is not set *)
  GITHUB_TOKEN : option string;
  (** [new Octokit({ auth }).repos.get({ owner, repo })] *)
  repos_get : option string -> string -> string -> result unit;
  (** [axios.get(url, { responseType, headers })], giving [response.data] *)
  axios_get : string -> option string -> result Buffer;
  (** [new AdmZip(Buffer.from(data)).getEntries()] *)
  unzip : Buffer -> result (list ZipEntry);
  (** [new Date().toLocaleString()] *)
  date_now : string;
  (** [Packer.toBuffer(doc)] *)
  toBuffer : Document -> result Buffer;
  (** [fs.writeFileSync(path, buffer)] *)
  writeFileSync : string -> Buffer -> result unit;
  (** [fs.readFileSync(path, "utf8")] *)
  readFileSync : string -> result string;
  (** [require("./package.json").version]; the module may be missing *)
  package_version : result string
}.

(** The calls made to the world, with their arguments. *)
Inductive Call : Type :=
| CallReposGet (auth : option string) (owner_name repo_name : string)
| CallAxiosGet (url : string) (authorization : option string)
| CallUnzip (data : Buffer)
| CallGetData (name : string)
| CallToBuffer (doc : Document)
| CallWriteFile (path : string) (buffer : Buffer)
| CallReadFile (path : string)
| CallRequirePackage.

(** What is written to the console. *)
Inductive Message : Type :=
| LogDownloading (owner_name repo_name branch : string)
| LogExtracting
| LogFoundDocxIgnore (patterns : nat)
| LogUsingPatterns (all defaults custom options : nat)
| LogProcessing
| LoopMessage (ev : ConsoleEvent)
| LogSummary (processed ignored binary validation errors : N)
    (* the six lines of the summary *)
| LogCreating
| LogSuccess (path : string)
| ErrorCreating (error : Error)
| PrintUsage
| PrintVersion (version : string)
| ErrorRepositoryRequired
| LogReadPatterns (patterns : nat) (path : string)
| ErrorReadIgnore (msg : string)
| LogConverting (repoIdentifier : string)
| LogCreated (path : string)
| ErrorMessage (msg : string).

(** The calls made and the messages written so far, each in order. *)
Record RunState : Type := mkRun {
  calls : list Call;
  out : list Message
}.

Definition Run (A : Type) : Type := RunState -> result A * RunState.

Definition rret {A} (a : A) : Run A := fun st => (Ok a, st).

Definition rbind {A B} (m : Run A) (k : A -> Run B) : Run B :=
  fun st =>
    match m st with
    | (Ok a, st') => k a st'
    | (Throw e, st') => (Throw e, st')
    end.

Definition rthrow {A} (e : Error) : Run A := fun st => (Throw e, st).

(** [try { m } catch (error) { handler error }] *)
Definition rtry {A} (m : Run A) (handler : Error -> Run A) : Run A :=
  fun st =>
    match m st with
    | (Ok a, st') => (Ok a, st')
    | (Throw e, st') => handler e st'
    end.

(** A call to the world: it is recorded, and gives its answer. *)
Definition call {A} (c : Call) (answer : result A) : Run A :=
  fun st => (answer, mkRun (calls st ++ [c]) (out st)).

(** [console.log], [console.warn] and [console.error] *)
Definition say (m : Message) : Run unit :=
  fun st => (Ok tt, mkRun (calls st) (out st ++ [m])).

Declare Scope run_scope.
Delimit Scope run_scope with run.
Notation "x <- m ;; k" := (rbind m (fun x => k))
  (at level 61, m at next level, right associativity) : run_scope.
Notation "m ;; k" := (rbind m (fun _ => k))
  (at level 61, right associativity) : run_scope.

(** The options of [repo2docx]; [None] is a property that is not given. *)
Record Options : Type := mkOptions {
  opt_token : option string;
  opt_branch : option string;
  opt_ignorePaths : option (list string)
}.

(** Truthiness of a value that is a string, or [null] or [undefined]
    ([None], the code does not tell the two apart). *)
Definition truthy_opt (v : option string) : bool :=
  match v with
  | Some s => JsString.truthy s
  | None => false
  end.

(** The three paragraphs pushed before the loop. *)
Definition titlePage (owner_name repo_name branch now : string)
  : list Paragraph :=
  [ mkParagraph (Some HEADING_1)
      ("Repository: " ++ owner_name ++ "/" ++ repo_name)%string
      (Some (mkSpacing None (Some 400%N))) false None;
    mkParagraph None ("Branch: " ++ branch)%string
      (Some (mkSpacing None (Some 200%N))) false None;
    mkParagraph None ("Generated on: " ++ now)%string
      (Some (mkSpacing None (Some 800%N))) false None ].

(** [zipEntries.find((entry) =>
       entry.entryName.endsWith(`${repo}-${branch}/.docxignore`))] *)
Definition findDocxIgnore (repo_name branch : string)
  (zipEntries : list ZipEntry) : option ZipEntry :=
  find (fun entry =>
          JsString.endsWith (entryName entry)
            (repo_name ++ "-" ++ branch ++ "/.docxignore")%string)
       zipEntries.

(** The loop, run from the title page; its calls and its messages are
    added to those of the run. *)
Definition runLoop `{Libraries} (repo_name branch : string)
  (ignorePatterns : list string) (children0 : list Paragraph)
  (zipEntries : list ZipEntry) : Run WalkState :=
  fun st =>
    let '(r, walked) :=
      processEntries repo_name branch ignorePatterns zipEntries
        (initialState children0) in
    let st' :=
      mkRun (calls st ++ map CallGetData (dataCalls walked))
            (out st ++ map LoopMessage (console walked)) in
    match r with
    | Ok _ => (Ok walked, st')
    | Throw e => (Throw e, st')
    end.

(** [token = process.env.GITHUB_TOKEN], [branch = "main"] and
    [ignorePaths = []]: the defaults of the properties that are not given. *)
Definition tokenOf (world : World) (options : Options) : option string :=
  match opt_token options with
  | Some t => Some t
  | None => GITHUB_TOKEN world
  end.

Definition branchOf (options : Options) : string :=
  match opt_branch options with Some b => b | None => "main"%string end.

Definition ignorePathsOf (options : Options) : list string :=
  match opt_ignorePaths options with Some ps => ps | None => [] end.

(** [if (!outputPath) outputPath = `${owner}-${repo}.docx`] *)
Definition outputPathOf (ref : RepositoryRef) (outputPath : option string)
  : string :=
  if truthy_opt outputPath
  then match outputPath with Some path => path | None => EmptyString end
  else (owner ref ++ "-" ++ repo ref ++ ".docx")%string.

(** [`https://github.com/${owner}/${repo}/archive/refs/heads/${branch}.zip`] *)
Definition zipUrl (ref : RepositoryRef) (branch : string) : string :=
  ("https://github.com/" ++ owner ref ++ "/" ++ repo ref
   ++ "/archive/refs/heads/" ++ branch ++ ".zip")%string.

(** [if (token) headers.Authorization = `token ${token}`] *)
Definition authorizationOf (token : option string) : option string :=
  match token with
  | Some t => if JsString.truthy t then Some ("token " ++ t)%string else None
  | None => None
  end.

(** The document handed to the packer. *)
Definition documentOf (ref : RepositoryRef) (children : list Paragraph)
  : Document :=
  mkDocument "repo2docx"
    (owner ref ++ "/" ++ repo ref ++ " Repository")%string
    ("Generated from GitHub repository " ++ owner ref ++ "/" ++ repo ref)%string
    children.

Local Open Scope run_scope.

(** Looks for the ignore file of the repository and reads its patterns. *)
Definition readCustomPatterns `{Libraries} (repo_name branch : string)
  (zipEntries : list ZipEntry) : Run (list string) :=
  match findDocxIgnore repo_name branch zipEntries with
  | Some docxIgnoreEntry =>
      content <- call (CallGetData (entryName docxIgnoreEntry))
                      (getData docxIgnoreEntry) ;;
      let patterns := parseDocxIgnore (toString_utf8 content) in
      say (LogFoundDocxIgnore (List.length patterns)) ;;
      rret patterns
  | None => rret []
  end.

Definition repo2docx `{Libraries} (world : World) (repoIdentifier : string)
  (outputPath : option string) (options : Options) : Run string :=
  match parseRepoIdentifier repoIdentifier with
  | Throw e => rthrow e
  | Ok ref =>
      let token := tokenOf world options in
      let branch := branchOf options in
      let ignorePaths := ignorePathsOf options in
      rtry
        (let outputPath := outputPathOf ref outputPath in
         call (CallReposGet token (owner ref) (repo ref))
              (repos_get world token (owner ref) (repo ref)) ;;
         say (LogDownloading (owner ref) (repo ref) branch) ;;
         data <- call (CallAxiosGet (zipUrl ref branch) (authorizationOf token))
                      (axios_get world (zipUrl ref branch)
                         (authorizationOf token)) ;;
         say LogExtracting ;;
         zipEntries <- call (CallUnzip data) (unzip world data) ;;
         customIgnorePatterns <-
           readCustomPatterns (repo ref) branch zipEntries ;;
         let defaultIgnorePatterns := getDefaultIgnorePatterns in
         let all :=
           allIgnorePatterns defaultIgnorePatterns customIgnorePatterns
             ignorePaths in
         say (LogUsingPatterns (List.length all)
                (List.length defaultIgnorePatterns)
                (List.length customIgnorePatterns)
                (List.length ignorePaths)) ;;
         let children0 :=
           titlePage (owner ref) (repo ref) branch (date_now world) in
         say LogProcessing ;;
         walked <- runLoop (repo ref) branch all children0 zipEntries ;;
         say (LogSummary (processedFiles walked) (skippedFilesByIgnore walked)
                (skippedFilesByBinary walked)
                (skippedFilesByValidation walked)
                (skippedFilesByError walked)) ;;
         say LogCreating ;;
         let doc := documentOf ref (children walked) in
         buffer <- call (CallToBuffer doc) (toBuffer world doc) ;;
         call (CallWriteFile outputPath buffer)
              (writeFileSync world outputPath buffer) ;;
         say (LogSuccess outputPath) ;;
         rret outputPath)
        (fun error => say (ErrorCreating error) ;; rthrow error)
  end.

(* ================================================================== *)
(** ** The command line ([cli.js]) *)

(** [readLocalDocxIgnore(filePath)] *)
Definition readLocalDocxIgnore (world : World) (filePath : string)
  : Run (list string) :=
  rtry
    (content <- call (CallReadFile filePath) (readFileSync world filePath) ;;
     let patterns := patterns_of content in
     say (LogReadPatterns (List.length patterns) filePath) ;;
     rret patterns)
    (fun error => say (ErrorReadIgnore (message error)) ;; rret []).

(** The variables that the options of the command line set; [None] is
    [null] or [undefined]. *)
Record CliOptions : Type := mkCli {
  cli_outputPath : option string;
  cli_branch : option string;
  cli_token : option string;
  cli_localIgnorePath : option string
}.

Definition set_outputPath (v : option string) (o : CliOptions) : CliOptions :=
  mkCli v (cli_branch o) (cli_token o) (cli_localIgnorePath o).
Definition set_branch (v : option string) (o : CliOptions) : CliOptions :=
  mkCli (cli_outputPath o) v (cli_token o) (cli_localIgnorePath o).
Definition set_token (v : option string) (o : CliOptions) : CliOptions :=
  mkCli (cli_outputPath o) (cli_branch o) v (cli_localIgnorePath o).
Definition set_localIgnorePath (v : option string) (o : CliOptions)
  : CliOptions :=
  mkCli (cli_outputPath o) (cli_branch o) (cli_token o) v.

(** The assignment an argument stands for, when it is a flag. *)
Definition flag_setter (arg : string)
  : option (option string -> CliOptions -> CliOptions) :=
  if String.eqb arg "-o" || String.eqb arg "--output" then Some set_outputPath
  else if String.eqb arg "-b" || String.eqb arg "--branch" then Some set_branch
  else if String.eqb arg "-t" || String.eqb arg "--token" then Some set_token
  else if String.eqb arg "-i" || String.eqb arg "--ignore"
  then Some set_localIgnorePath
  else None.

(** The loop over [args] from index 1: a flag takes the next argument
    ([args[i + 1]], [undefined] after the last argument) as its value and
    skips it; any other argument is passed over. *)
Fixpoint parseFlags (args : list string) (o : CliOptions) : CliOptions :=
  match args with
  | [] => o
  | arg :: rest =>
      match flag_setter arg with
      | Some set =>
          match rest with
          | value :: rest' => parseFlags rest' (set (Some value) o)
          | [] => set None o
          end
      | None => parseFlags rest o
      end
  end.

(** The variables before the loop. *)
Definition initialCliOptions (world : World) : CliOptions :=
  mkCli None (Some "main"%string) (GITHUB_TOKEN world) None.

(** [args.includes(flag)] *)
Definition has_arg (args : list string) (flag : string) : bool :=
  existsb (String.eqb flag) args.

(** [main()], with [args] for [process.argv.slice(2)]; the result is the
    exit code of the process. *)
Definition main `{Libraries} (world : World) (args : list string) : Run N :=
  if (List.length args =? 0)%nat || has_arg args "-h" || has_arg args "--help"
  then say PrintUsage ;; rret 0%N
  else if has_arg args "-v" || has_arg args "--version"
  then
    version <- call CallRequirePackage (package_version world) ;;
    say (PrintVersion version) ;; rret 0%N
  else
    match args with
    | [] => say ErrorRepositoryRequired ;; say PrintUsage ;; rret 1%N
    | repoIdentifier :: rest =>
        if negb (JsString.truthy repoIdentifier) then
          say ErrorRepositoryRequired ;; say PrintUsage ;; rret 1%N
        else
          let o := parseFlags rest (initialCliOptions world) in
          rtry
            (ignorePaths <-
               match cli_localIgnorePath o with
               | Some path =>
                   if JsString.truthy path
                   then readLocalDocxIgnore world path
                   else rret []
               | None => rret []
               end ;;
             say (LogConverting repoIdentifier) ;;
             filePath <-
               repo2docx world repoIdentifier (cli_outputPath o)
                 (mkOptions (cli_token o) (cli_branch o) (Some ignorePaths)) ;;
             say (LogCreated filePath) ;;
             rret 0%N)
            (fun error => say (ErrorMessage (message error)) ;; rret 1%N)
    end.

Local Close Scope run_scope.

(** The state before a run. *)
Definition freshRun : RunState := mkRun [] [].

(** A world in which every call succeeds and the archive is [zipEntries]. *)
Definition sampleWorld (zipEntries : list ZipEntry) : World :=
  mkWorld None
    (fun _ _ _ => Ok tt)
    (fun _ _ => Ok [])
    (fun _ => Ok zipEntries)
    "1/1/2025, 12:00:00 PM"
    (fun _ => Ok [])
    (fun _ _ => Ok tt)
    (fun _ => Ok ("docs/**" ++ String LF "*.tmp")%string)
    (Ok "1.0.0"%string).

(** The patterns of the repository's own ignore file, when the archive has
    one that can be read. *)
Definition customPatternsOf `{Libraries} (repo_name branch : string)
  (zipEntries : list ZipEntry) : list string :=
  match findDocxIgnore repo_name branch zipEntries with
  | Some docxIgnoreEntry =>
      match getData docxIgnoreEntry with
      | Ok content => parseDocxIgnore (toString_utf8 content)
      | Throw _ => []
      end
  | None => []
  end.

(** The arguments after the repository are whole: each flag is followed by
    its value. *)
Inductive whole_units : list string -> Prop :=
| units_nil : whole_units []
| units_flag (arg value : string) (rest : list string) :
    flag_setter arg <> None -> whole_units rest ->
    whole_units (arg :: value :: rest)
| units_other (arg : string) (rest : list string) :
    flag_setter arg = None -> whole_units rest ->
    whole_units (arg :: rest).

(** A world in which the hosting service refuses the repository. *)
Definition refusingWorld : World :=
  mkWorld None
    (fun _ _ _ => Throw (mkError "Not Found"))
    (fun _ _ => Ok [])
    (fun _ => Ok [])
    "1/1/2025, 12:00:00 PM"
    (fun _ => Ok [])
    (fun _ _ => Ok tt)
    (fun _ => Throw (mkError "ENOENT: no such file or directory"))
    (Ok "1.0.0"%string).

(** An archive whose ignore file cannot be read. *)
Definition brokenIgnoreArchive : list ZipEntry :=
  [ mkEntry "repo-main/" true (Ok []);
    mkEntry "repo-main/.docxignore" false
      (Throw (mkError "Invalid CEN header"));
    sourceEntry ].

(** The calls that pack and write the document. *)
Definition is_output_call (c : Call) : bool :=
  match c with
  | CallToBuffer _ | CallWriteFile _ _ => true
  | _ => false
  end.

(** The number of file headings among paragraphs. *)
Definition is_file_heading (p : Paragraph) : bool :=
  match heading p with
  | Some HEADING_2 => true
  | _ => false
  end.

Definition count_file_headings (ps : list Paragraph) : nat :=
  List.length (filter is_file_heading ps).

(** An archive whose ignore file excludes the sources. *)
Definition ignoringArchive : list ZipEntry :=
  mkEntry "repo-main/.docxignore" false
    (Ok (list_byte_of_string
           ("# nothing from src" ++ String CR (String LF "src/**"))%string))
  :: sampleArchive.

(** A world in which the package description cannot be loaded. *)
Definition unpackagedWorld : World :=
  mkWorld None
    (fun _ _ _ => Ok tt)
    (fun _ _ => Ok [])
    (fun _ => Ok [])
    "1/1/2025, 12:00:00 PM"
    (fun _ => Ok [])
    (fun _ _ => Ok tt)
    (fun _ => Ok EmptyString)
    (Throw (mkError "Cannot find module './package.json'")).

(* ================================================================== *)
(** * Properties *)

Example parse_shorthand :
  parseRepoIdentifier "microsoft/vscode" = Ok (mkRef "microsoft" "vscode").
Proof. reflexivity. Qed.

Example parse_url :
  parseRepoIdentifier "https://www.github.com/microsoft/vscode.git"
  = Ok (mkRef "microsoft" "vscode").
Proof. reflexivity. Qed.

Example parse_three_segments :
  parseRepoIdentifier "a/b/c" = Ok (mkRef "a" "b").
Proof. reflexivity. Qed.

Example parse_bare_host :
  parseRepoIdentifier "github.com/owner/repo" = Ok (mkRef "github.com" "owner").
Proof. reflexivity. Qed.

Example split_lines_example :
  split_lines ("a" ++ String CR (String LF ("b" ++ String LF (String LF "c"))))
  = ["a"; "b"; ""; "c"].
Proof. reflexivity. Qed.

Example ratio_10_of_1000 :
  Number.div (Number.of_nat 10) (Number.of_nat 1000) = Number.lit_0_01.
Proof. vm_compute. reflexivity. Qed.

Example ratio_9_of_1000 :
  Number.ltb (Number.div (Number.of_nat 9) (Number.of_nat 1000)) Number.lit_0_01 = true.
Proof. vm_compute. reflexivity. Qed.

Example ratio_0_of_0 :
  Number.div (Number.of_nat 0) (Number.of_nat 0) = S754_nan.
Proof. vm_compute. reflexivity. Qed.

(* ------------------------------------------------------------------ *)
(** ** Lemmas on the string primitives *)

Module JsStringFacts.
Import JsString.
Local Open Scope string_scope.

Lemma app_empty_r (s : string) : s ++ "" = s.
Proof. induction s as [|c s IH]; simpl; [reflexivity | now rewrite IH]. Qed.

Lemma app_assoc (a b c : string) : (a ++ b) ++ c = a ++ b ++ c.
Proof. induction a as [|x a IH]; simpl; [reflexivity | now rewrite IH]. Qed.

Lemma length_app (a b : string) :
  String.length (a ++ b) = String.length a + String.length b.
Proof. induction a as [|x a IH]; simpl; [reflexivity | now rewrite IH]. Qed.

Lemma strip_prefix_app (p x : string) : strip_prefix p (p ++ x) = Some x.
Proof.
  induction p as [|c p IH]; simpl.
  - now destruct x.
  - now rewrite Ascii.eqb_refl.
Qed.

Lemma strip_prefix_Some (p s r : string) :
  strip_prefix p s = Some r -> s = p ++ r.
Proof.
  revert s; induction p as [|c p IH]; intros s Hs.
  - destruct s; simpl in Hs; now inversion Hs.
  - destruct s as [|d s]; simpl in Hs; [discriminate|].
    destruct (Ascii.eqb_spec c d) as [->|]; [|discriminate].
    simpl. f_equal. now apply IH.
Qed.

Lemma count_app (c : ascii) (a b : string) :
  count c (a ++ b) = count c a + count c b.
Proof. induction a as [|x a IH]; simpl; [reflexivity | rewrite IH; lia]. Qed.

Lemma startsWith_app (p x : string) : startsWith (p ++ x) p = true.
Proof. unfold startsWith. now rewrite strip_prefix_app. Qed.

Lemma includes_startsWith (s sub : string) :
  startsWith s sub = true -> includes s sub = true.
Proof. intros E. destruct s; cbn [includes]; now rewrite E. Qed.

Lemma includes_cons (c : ascii) (s sub : string) :
  includes s sub = true -> includes (String c s) sub = true.
Proof. intros E. cbn [includes]. rewrite E. apply orb_true_r. Qed.

Lemma includes_app (a sub b : string) : includes (a ++ sub ++ b) sub = true.
Proof.
  induction a as [|x a IH].
  - apply includes_startsWith. exact (startsWith_app sub b).
  - exact (includes_cons x _ _ IH).
Qed.

(** [s.includes(c)] for one code unit [c] says that [c] occurs in [s]. *)
Lemma includes_unit (c : ascii) (s : string) :
  includes s (String c "") = negb (count c s =? 0)%nat.
Proof.
  induction s as [|d s IH]; [reflexivity|].
  cbn [includes count]. rewrite IH. unfold startsWith. cbn [strip_prefix].
  rewrite (Ascii.eqb_sym c d).
  destruct (Ascii.eqb d c); [reflexivity|].
  cbn. now destruct s.
Qed.

Lemma split_not_nil (sep : ascii) (s : string) : split sep s <> [].
Proof.
  destruct s as [|c s]; simpl; [discriminate|].
  destruct (Ascii.eqb c sep); [discriminate|].
  destruct (split sep s); discriminate.
Qed.

Lemma split_no_sep (sep : ascii) (a : string) :
  count sep a = 0 -> split sep a = [a].
Proof.
  induction a as [|c a IH]; simpl; [reflexivity|].
  destruct (Ascii.eqb c sep); [discriminate|].
  intros Hc. now rewrite IH.
Qed.

Lemma split_app_sep (sep : ascii) (a b : string) :
  count sep a = 0 -> split sep (a ++ String sep b) = a :: split sep b.
Proof.
  induction a as [|c a IH]; simpl.
  - now rewrite Ascii.eqb_refl.
  - destruct (Ascii.eqb c sep); [discriminate|].
    intros Hc. now rewrite IH.
Qed.

Lemma split_segments (sep : ascii) (s : string) :
  Forall (fun seg => count sep seg = 0) (split sep s).
Proof.
  induction s as [|c s IH]; simpl.
  - repeat constructor.
  - destruct (Ascii.eqb c sep) eqn:E.
    + constructor; [reflexivity | exact IH].
    + destruct (split sep s) as [|seg segs].
      * repeat constructor. simpl. now rewrite E.
      * inversion IH; subst. constructor; [|assumption].
        simpl. now rewrite E.
Qed.

Lemma join_split (sep : ascii) (s : string) : join sep (split sep s) = s.
Proof.
  induction s as [|c s IH]; [reflexivity|].
  simpl. destruct (Ascii.eqb_spec c sep) as [->|Hne].
  - pose proof (split_not_nil sep s) as Hnil.
    destruct (split sep s) as [|seg segs]; [contradiction|].
    cbn [join]. cbn [join] in IH. simpl. now rewrite IH.
  - pose proof (split_not_nil sep s) as Hnil.
    destruct (split sep s) as [|seg segs]; [contradiction|].
    destruct segs as [|seg' segs]; cbn [join] in *; simpl; now rewrite IH.
Qed.

(** [endsWith] by recursion on the string: [suf] is [s] or ends its tail. *)
Lemma endsWith_cons (c : ascii) (s suf : string) :
  endsWith (String c s) suf = String.eqb (String c s) suf || endsWith s suf.
Proof.
  unfold endsWith. cbn [String.length].
  destruct (Nat.leb_spec (String.length suf) (String.length s)) as [Hle|Hgt].
  - replace (S (String.length s) - String.length suf)
      with (S (String.length s - String.length suf)) by lia.
    cbn [drop].
    replace (String.length suf <=? S (String.length s))%nat with true
      by (symmetry; apply Nat.leb_le; lia).
    destruct (String.eqb_spec (String c s) suf) as [<-|_];
      [cbn [String.length] in Hle; lia | reflexivity].
  - destruct (Nat.leb_spec (String.length suf) (S (String.length s)))
      as [Hle'|Hgt'].
    + replace (S (String.length s) - String.length suf) with 0 by lia.
      cbn [drop andb]. now rewrite orb_false_r.
    + destruct (String.eqb_spec (String c s) suf) as [<-|_];
        [cbn [String.length] in Hgt'; lia | reflexivity].
Qed.

Lemma endsWith_empty (suf : string) :
  endsWith "" suf = String.eqb "" suf.
Proof. unfold endsWith. destruct suf; reflexivity. Qed.

Lemma endsWith_app (a suf : string) : endsWith (a ++ suf) suf = true.
Proof.
  induction a as [|c a IH]; simpl.
  - destruct suf; [reflexivity|].
    rewrite endsWith_cons, String.eqb_refl. reflexivity.
  - rewrite endsWith_cons, IH. apply orb_true_r.
Qed.

Lemma eqb_count (c : ascii) (s t : string) :
  String.eqb s t = true -> count c s = count c t.
Proof. intros E. apply String.eqb_eq in E. now subst. Qed.

(** A suffix in which [c] does not occur lies after the last [c]. *)
Lemma endsWith_app_sep (c : ascii) (a b suf : string) :
  count c suf = 0 ->
  endsWith (a ++ String c b) suf = endsWith b suf.
Proof.
  intros Hsuf.
  assert (Hneq : forall x, String.eqb (x ++ String c b) suf = false).
  { intros x. destruct (String.eqb (x ++ String c b) suf) eqn:E; [|reflexivity].
    apply (eqb_count c) in E. rewrite count_app in E. cbn [count] in E.
    rewrite Ascii.eqb_refl in E. lia. }
  induction a as [|x a IH]; simpl.
  - rewrite endsWith_cons. pose proof (Hneq "") as E.
    cbn [append] in E. now rewrite E.
  - rewrite endsWith_cons, IH. pose proof (Hneq (String x a)) as E.
    cbn [append] in E. now rewrite E.
Qed.

Lemma endsWith_inv (s suf : string) :
  endsWith s suf = true -> exists a, s = a ++ suf.
Proof.
  induction s as [|c s IH].
  - rewrite endsWith_empty. intros E. apply String.eqb_eq in E.
    exists "". now subst.
  - rewrite endsWith_cons. intros E. apply orb_true_iff in E as [E|E].
    + apply String.eqb_eq in E. now exists "".
    + destruct (IH E) as [a ->]. now exists (String c a).
Qed.

Lemma take_app (a b : string) : take (String.length a) (a ++ b) = a.
Proof.
  induction a as [|c a IH]; simpl.
  - now destruct b.
  - now rewrite IH.
Qed.

Lemma count_take_zero (c : ascii) (n : nat) (s : string) :
  count c s = 0 -> count c (take n s) = 0.
Proof.
  revert n; induction s as [|d s IH]; intros [|n] Hc; try reflexivity.
  cbn [take count] in *. destruct (Ascii.eqb d c); [discriminate|].
  now apply IH.
Qed.

Lemma toLowerCase_app (a b : string) :
  toLowerCase (a ++ b) = toLowerCase a ++ toLowerCase b.
Proof. induction a as [|c a IH]; simpl; [reflexivity | now rewrite IH]. Qed.

End JsStringFacts.

(* ------------------------------------------------------------------ *)
(** ** [parseRepoIdentifier] *)

Section ParseFacts.
Import JsString JsStringFacts.
Local Open Scope string_scope.

Lemma split_leads_with (s o r : string) :
  (exists rest, split "/" s = o :: r :: rest) <-> leads_with s o r.
Proof.
  split.
  - intros [rest E].
    pose proof (split_segments "/" s) as Hseg. rewrite E in Hseg.
    inversion Hseg as [|? ? Ho Hseg']; subst.
    inversion Hseg' as [|? ? Hr _]; subst.
    repeat split; try assumption.
    pose proof (join_split "/" s) as J. rewrite E in J.
    destruct rest as [|x rest].
    + exists "". split; [|now left]. cbn [join] in J.
      rewrite app_empty_r. now rewrite <- J.
    + exists (String "/" (join "/" (x :: rest))). split; [|now right].
      rewrite <- J. reflexivity.
  - intros (Ho & Hr & t & -> & Ht).
    change (o ++ "/" ++ r ++ t) with (o ++ String "/" (r ++ t)).
    rewrite (split_app_sep "/" o _ Ho).
    destruct Ht as [->|Ht].
    + exists []. rewrite app_empty_r. now rewrite (split_no_sep "/" r Hr).
    + unfold startsWith in Ht.
      destruct (strip_prefix "/" t) as [t'|] eqn:E; [|discriminate].
      apply strip_prefix_Some in E. subst t.
      exists (split "/" t').
      change (r ++ "/" ++ t') with (r ++ String "/" t').
      now rewrite (split_app_sep "/" r _ Hr).
Qed.

Lemma leads_with_count (s o r : string) :
  leads_with s o r -> 1 <= count "/" s.
Proof.
  intros (_ & _ & t & -> & _). rewrite count_app. simpl. lia.
Qed.

Lemma truthy_iff (s : string) : truthy s = true <-> s <> "".
Proof. destruct s; simpl; split; congruence. Qed.

Lemma re_match_count (c : ascii) (p : list re_item) (s x : string) :
  re_match p s = Some x -> lit_count c p <= count c s.
Proof.
  revert s; induction p as [|[l|l] p IH]; intros s E; cbn [re_match lit_count] in *.
  - lia.
  - destruct (strip_prefix l s) as [r|] eqn:El; [|discriminate].
    apply strip_prefix_Some in El. subst s. rewrite count_app.
    specialize (IH _ E). lia.
  - destruct (strip_prefix l s) as [r|] eqn:El.
    + apply strip_prefix_Some in El.
      destruct (re_match p r) eqn:Er.
      * rewrite E in Er. specialize (IH _ Er). subst s.
        rewrite count_app. lia.
      * now apply IH.
    + now apply IH.
Qed.

(** The prefix pattern needs three slashes: an identifier with fewer is
    left as it is. *)
Lemma strip_url_prefix_few_slashes (s : string) :
  count "/" s < 3 -> strip_url_prefix s = s.
Proof.
  intros Hc. unfold strip_url_prefix.
  destruct (re_match url_prefix_re s) as [x|] eqn:E; [|reflexivity].
  apply (re_match_count "/") in E. simpl in E. lia.
Qed.

Lemma strip_git_suffix_app (x : string) : strip_git_suffix (x ++ ".git") = x.
Proof.
  unfold strip_git_suffix. rewrite endsWith_app, length_app.
  replace (String.length x + String.length ".git" - 4) with (String.length x)
    by (simpl; lia).
  apply take_app.
Qed.

Lemma strip_git_suffix_id (x : string) :
  endsWith x ".git" = false -> strip_git_suffix x = x.
Proof. unfold strip_git_suffix. now intros ->. Qed.

(** Removing a trailing [.git] only touches what follows the last slash. *)
Lemma strip_git_suffix_app_sep (a b : string) :
  strip_git_suffix (a ++ String "/" b) = a ++ String "/" (strip_git_suffix b).
Proof.
  destruct (endsWith b ".git") eqn:E.
  - destruct (endsWith_inv _ _ E) as [b' ->].
    rewrite strip_git_suffix_app.
    change (a ++ String "/" (b' ++ ".git")) with (a ++ (String "/" b') ++ ".git").
    rewrite <- app_assoc. apply strip_git_suffix_app.
  - rewrite (strip_git_suffix_id b E).
    apply strip_git_suffix_id.
    now rewrite (endsWith_app_sep "/" a b ".git" eq_refl).
Qed.

End ParseFacts.

Section ParseClaims.
Import JsString JsStringFacts.
Local Open Scope string_scope.

(** C2, as stated, fails: ["a/b/c"] holds no host marker and two slashes,
    and is parsed to owner ["a"] and repo ["b"]. *)
Lemma parse_two_slashes_succeeds :
  includes "a/b/c" "github.com" = false /\
  count "/" "a/b/c" = 2 /\
  parseRepoIdentifier "a/b/c" = Ok (mkRef "a" "b").
Proof. repeat split. Qed.

(** C2 (amended): for every input without the host marker, the parser
    returns [{owner; repo}] exactly when the input begins with the two
    non-empty slash-free segments [owner] and [repo] (what follows a second
    slash is ignored), and fails with the invalid-identifier error in every
    other case; in particular an input without a slash always fails. *)
Theorem parse_without_host_marker (s : string) :
  includes s "github.com" = false ->
  (forall o r, parseRepoIdentifier s = Ok (mkRef o r)
               <-> leads_with s o r /\ o <> "" /\ r <> "") /\
  ((forall o r, parseRepoIdentifier s <> Ok (mkRef o r)) ->
   parseRepoIdentifier s = Throw invalid_identifier) /\
  (count "/" s = 0 -> parseRepoIdentifier s = Throw invalid_identifier).
Proof.
  intros Hhost. unfold parseRepoIdentifier. rewrite Hhost, includes_unit.
  destruct (Nat.eqb_spec (count "/" s) 0) as [Hz|Hnz]; cbn [negb].
  - split; [|split]; [|reflexivity..].
    intros o r; split; [discriminate|].
    intros (Hl & _). apply leads_with_count in Hl. lia.
  - destruct (split "/" s) as [|o0 [|r0 rest]] eqn:E.
    + now apply split_not_nil in E.
    + split; [|split]; [|reflexivity..].
      intros o r; split; [discriminate|].
      intros (Hl & _). apply split_leads_with in Hl as [rest' E'].
      congruence.
    + assert (Huniq : forall o r, leads_with s o r -> o = o0 /\ r = r0).
      { intros o r Hl. apply split_leads_with in Hl as [rest' E'].
        split; congruence. }
      assert (Hl0 : leads_with s o0 r0)
        by (apply split_leads_with; now exists rest).
      destruct (truthy o0 && truthy r0) eqn:T.
      * apply andb_true_iff in T as [To Tr].
        apply truthy_iff in To, Tr.
        split; [|split].
        -- intros o r; split.
           ++ intros Eq. injection Eq as <- <-.
              split; [exact Hl0 | split; assumption].
           ++ intros (Hl & _). apply Huniq in Hl as [-> ->]. reflexivity.
        -- intros Hno. now destruct (Hno o0 r0).
        -- intros Hz. contradiction.
      * split; [|split]; [|reflexivity..].
        intros o r; split; [discriminate|].
        intros (Hl & Ho & Hr). apply Huniq in Hl as [-> ->].
        apply truthy_iff in Ho, Hr. rewrite Ho, Hr in T. discriminate.
Qed.

Lemma parse_without_host_marker_witness :
  includes "microsoft/vscode/tree" "github.com" = false /\
  parseRepoIdentifier "microsoft/vscode/tree" = Ok (mkRef "microsoft" "vscode").
Proof.
  split; [reflexivity|].
  apply (parse_without_host_marker "microsoft/vscode/tree" eq_refl).
  repeat split; try discriminate.
  exists "/tree". split; [reflexivity | now right].
Defined.

(** C7, as stated, fails for a repository name that ends in [.git]: the
    shorthand keeps the name, the URL form loses the suffix. *)
Lemma parse_forms_differ :
  parseRepoIdentifier "o/r.git" = Ok (mkRef "o" "r.git") /\
  parseRepoIdentifier "https://github.com/o/r.git" = Ok (mkRef "o" "r") /\
  parseRepoIdentifier "o/r.git" <> parseRepoIdentifier "https://github.com/o/r.git".
Proof. repeat split. discriminate. Qed.

(** C7 (amended): for every non-empty slash-free owner and repo such that
    repo does not end in [.git], the shorthand [owner/repo] and the URLs
    [https://github.com/owner/repo], with or without [www.] and with or
    without a trailing [.git], are all parsed to the same [{owner; repo}]. *)
Theorem parse_forms_agree (o r : string) :
  o <> "" -> r <> "" -> count "/" o = 0 -> count "/" r = 0 ->
  endsWith r ".git" = false ->
  parseRepoIdentifier (o ++ "/" ++ r) = Ok (mkRef o r) /\
  parseRepoIdentifier ("https://github.com/" ++ o ++ "/" ++ r)
    = Ok (mkRef o r) /\
  parseRepoIdentifier ("https://github.com/" ++ o ++ "/" ++ r ++ ".git")
    = Ok (mkRef o r) /\
  parseRepoIdentifier ("https://www.github.com/" ++ o ++ "/" ++ r)
    = Ok (mkRef o r) /\
  parseRepoIdentifier ("https://www.github.com/" ++ o ++ "/" ++ r ++ ".git")
    = Ok (mkRef o r).
Proof.
  intros Ho Hr Hco Hcr Hgit.
  assert (Hsplit : split "/" (o ++ String "/" r) = [o; r])
    by now rewrite (split_app_sep "/" o r Hco), (split_no_sep "/" r Hcr).
  assert (Hplain : strip_git_suffix (o ++ String "/" r) = o ++ String "/" r)
    by now rewrite strip_git_suffix_app_sep, (strip_git_suffix_id r Hgit).
  assert (Hdot : strip_git_suffix (o ++ String "/" (r ++ ".git"))
                 = o ++ String "/" r)
    by now rewrite strip_git_suffix_app_sep, strip_git_suffix_app.
  assert (Hurl : forall x, includes ("https://github.com/" ++ x) "github.com" = true)
    by (intros x; exact (includes_app "https://" "github.com" (String "/" x))).
  assert (Hwww : forall x, includes ("https://www.github.com/" ++ x) "github.com" = true)
    by (intros x; exact (includes_app "https://www." "github.com" (String "/" x))).
  assert (Hp1 : forall x, strip_url_prefix ("https://github.com/" ++ x) = x)
    by reflexivity.
  assert (Hp2 : forall x, strip_url_prefix ("https://www.github.com/" ++ x) = x)
    by reflexivity.
  repeat split.
  - unfold parseRepoIdentifier.
    change (o ++ "/" ++ r) with (o ++ String "/" r).
    assert (Hc : count "/" (o ++ String "/" r) = 1)
      by (rewrite count_app; simpl; lia).
    destruct (includes (o ++ String "/" r) "github.com").
    + rewrite strip_url_prefix_few_slashes by lia.
      now rewrite Hplain, Hsplit.
    + rewrite includes_unit, Hc, Hsplit. cbn [Nat.eqb negb].
      apply truthy_iff in Ho, Hr. now rewrite Ho, Hr.
  - unfold parseRepoIdentifier. rewrite Hurl, Hp1.
    change (o ++ "/" ++ r) with (o ++ String "/" r).
    now rewrite Hplain, Hsplit.
  - unfold parseRepoIdentifier. rewrite Hurl, Hp1.
    change (o ++ "/" ++ r ++ ".git") with (o ++ String "/" (r ++ ".git")).
    now rewrite Hdot, Hsplit.
  - unfold parseRepoIdentifier. rewrite Hwww, Hp2.
    change (o ++ "/" ++ r) with (o ++ String "/" r).
    now rewrite Hplain, Hsplit.
  - unfold parseRepoIdentifier. rewrite Hwww, Hp2.
    change (o ++ "/" ++ r ++ ".git") with (o ++ String "/" (r ++ ".git")).
    now rewrite Hdot, Hsplit.
Qed.

Lemma parse_forms_agree_witness :
  parseRepoIdentifier "microsoft/vscode" = Ok (mkRef "microsoft" "vscode") /\
  parseRepoIdentifier "https://github.com/microsoft/vscode"
    = Ok (mkRef "microsoft" "vscode") /\
  parseRepoIdentifier "https://github.com/microsoft/vscode.git"
    = Ok (mkRef "microsoft" "vscode") /\
  parseRepoIdentifier "https://www.github.com/microsoft/vscode"
    = Ok (mkRef "microsoft" "vscode") /\
  parseRepoIdentifier "https://www.github.com/microsoft/vscode.git"
    = Ok (mkRef "microsoft" "vscode").
Proof.
  apply (parse_forms_agree "microsoft" "vscode");
    first [discriminate | reflexivity].
Defined.

(** C10, as stated, fails: ["github.com"] holds the host marker and no
    protocol prefix, and the parser fails on it. *)
Lemma parse_host_marker_alone_fails :
  includes "github.com" "github.com" = true /\
  startsWith "github.com" "http" = false /\
  strip_url_prefix "github.com" = "github.com" /\
  parseRepoIdentifier "github.com" = Throw invalid_identifier.
Proof. repeat split. Qed.

(** C10 (amended): for every slash-free [owner] and every [rest], the input
    [github.com/owner/rest] holds the host marker, so the URL branch is
    taken; the prefix pattern does not match, so no prefix is removed; and
    the parser returns owner ["github.com"] and repo [owner].  An input that
    holds the host marker and no slash fails with the invalid-identifier
    error. *)
Theorem parse_host_without_protocol (o rest : string) :
  count "/" o = 0 ->
  includes ("github.com/" ++ o ++ "/" ++ rest) "github.com" = true /\
  strip_url_prefix ("github.com/" ++ o ++ "/" ++ rest)
    = "github.com/" ++ o ++ "/" ++ rest /\
  parseRepoIdentifier ("github.com/" ++ o ++ "/" ++ rest)
    = Ok (mkRef "github.com" o) /\
  (forall s, includes s "github.com" = true -> count "/" s = 0 ->
             parseRepoIdentifier s = Throw invalid_identifier).
Proof.
  intros Hco.
  assert (Hinc : includes ("github.com/" ++ o ++ "/" ++ rest) "github.com" = true)
    by exact (includes_app "" "github.com" (String "/" (o ++ "/" ++ rest))).
  assert (Hpre : strip_url_prefix ("github.com/" ++ o ++ "/" ++ rest)
                 = "github.com/" ++ o ++ "/" ++ rest) by reflexivity.
  split; [exact Hinc|]. split; [exact Hpre|]. split.
  - unfold parseRepoIdentifier. rewrite Hinc, Hpre.
    change ("github.com/" ++ o ++ "/" ++ rest)
      with ("github.com" ++ String "/" (o ++ String "/" rest)).
    rewrite 2 strip_git_suffix_app_sep.
    rewrite (split_app_sep "/" "github.com" _ eq_refl).
    now rewrite (split_app_sep "/" o _ Hco).
  - intros s Hs Hc. unfold parseRepoIdentifier. rewrite Hs.
    rewrite strip_url_prefix_few_slashes by lia.
    rewrite split_no_sep; [reflexivity|].
    unfold strip_git_suffix. destruct (endsWith s ".git"); [|exact Hc].
    now apply count_take_zero.
Qed.

Lemma parse_host_without_protocol_witness :
  parseRepoIdentifier "github.com/owner/repo" = Ok (mkRef "github.com" "owner").
Proof. apply (parse_host_without_protocol "owner" "repo"). reflexivity. Defined.

End ParseClaims.

(* ------------------------------------------------------------------ *)
(** ** [addFileContent] *)

Section LineFacts.
Import JsString JsStringFacts.
Local Open Scope string_scope.

Lemma split_lines_last (l : string) :
  count LF l = 0 -> split_lines l = [l].
Proof.
  induction l as [|c l IH]; [reflexivity|].
  cbn [count split_lines]. destruct (Ascii.eqb c LF) eqn:Ec; [discriminate|].
  intros Hl. cbn [Nat.add] in Hl. specialize (IH Hl).
  destruct l as [|d l]; [reflexivity|].
  cbn [count] in Hl. destruct (Ascii.eqb d LF) eqn:Ed; [discriminate|].
  rewrite andb_false_r, IH. reflexivity.
Qed.

Lemma split_lines_lf (l rest : string) :
  count LF l = 0 -> endsWith l (String CR "") = false ->
  split_lines (l ++ String LF rest) = l :: split_lines rest.
Proof.
  induction l as [|c l IH]; intros Hl Hcr.
  - cbn [append split_lines]. now rewrite Ascii.eqb_refl.
  - cbn [count] in Hl. destruct (Ascii.eqb c LF) eqn:Ec; [discriminate|].
    cbn [Nat.add] in Hl. rewrite endsWith_cons in Hcr.
    apply orb_false_iff in Hcr as [Hc Hcr].
    cbn [append split_lines]. rewrite Ec.
    destruct l as [|d l].
    + cbn [append]. rewrite Ascii.eqb_refl, andb_true_r.
      cbn [String.eqb] in Hc. destruct (Ascii.eqb c CR); [discriminate|].
      cbn [split_lines]. rewrite Ascii.eqb_refl. reflexivity.
    + specialize (IH Hl Hcr). cbn [append] in *.
      cbn [count] in Hl. destruct (Ascii.eqb d LF) eqn:Ed; [discriminate|].
      rewrite andb_false_r, IH. reflexivity.
Qed.

Lemma split_lines_crlf (l rest : string) :
  count LF l = 0 ->
  split_lines (l ++ String CR (String LF rest)) = l :: split_lines rest.
Proof.
  induction l as [|c l IH]; intros Hl.
  - reflexivity.
  - cbn [count] in Hl. destruct (Ascii.eqb c LF) eqn:Ec; [discriminate|].
    cbn [Nat.add] in Hl. specialize (IH Hl).
    cbn [append split_lines]. rewrite Ec.
    destruct l as [|d l].
    + cbn [append] in *. change (Ascii.eqb CR LF) with false.
      rewrite andb_false_r, IH. reflexivity.
    + cbn [append] in *.
      cbn [count] in Hl. destruct (Ascii.eqb d LF) eqn:Ed; [discriminate|].
      rewrite andb_false_r, IH. reflexivity.
Qed.

Lemma split_lines_unlines (closed : list (string * LineEnd)) (last : string) :
  Forall proper_line closed -> count LF last = 0 ->
  split_lines (unlines closed last) = (map fst closed ++ [last])%list.
Proof.
  intros Hc Hlast. induction Hc as [|[l e] closed [Hl Hcr] _ IH].
  - now apply split_lines_last.
  - cbn [unlines map fst List.app]. cbn [fst snd] in Hl, Hcr.
    destruct e; cbn [line_end append].
    + now rewrite split_lines_lf, IH by auto.
    + now rewrite split_lines_crlf, IH by auto.
Qed.

(** Every content is made of proper lines, so the hypotheses of
    [split_lines_unlines] put no limit on the content. *)
Lemma unlines_all (content : string) :
  exists closed last,
    Forall proper_line closed /\ count LF last = 0 /\
    content = unlines closed last.
Proof.
  induction content as [|c s (closed & last & Hp & Hl & ->)].
  - exists [], "". split; [constructor | split; reflexivity].
  - destruct (Ascii.eqb_spec c LF) as [->|Hc].
    + exists (("", EndLF) :: closed), last.
      split; [|split; [assumption | reflexivity]].
      constructor; [|assumption]. split; [reflexivity|].
      intros _. reflexivity.
    + assert (Ec : Ascii.eqb c LF = false) by now apply Ascii.eqb_neq.
      assert (Hcons : forall l, count LF l = 0 -> count LF (String c l) = 0)
        by (intros l Hl0; cbn [count]; now rewrite Ec).
      destruct closed as [|[l e] closed].
      * exists [], (String c last).
        split; [constructor | split; [now apply Hcons | reflexivity]].
      * inversion Hp as [|? ? [Hl0 Hcr] Hp']; subst. cbn [fst snd] in *.
        destruct e.
        -- destruct l as [|d l].
           ++ destruct (Ascii.eqb_spec c CR) as [->|Hcr'].
              ** exists (("", EndCRLF) :: closed), last.
                 split; [|split; [assumption | reflexivity]].
                 constructor; [|assumption]. split; [reflexivity|].
                 discriminate.
              ** exists ((String c "", EndLF) :: closed), last.
                 split; [|split; [assumption | reflexivity]].
                 constructor; [|assumption]. unfold proper_line. cbn [fst snd]. split.
                 --- now apply Hcons.
                 --- intros _. rewrite endsWith_cons, endsWith_empty.
                     cbn [String.eqb].
                     apply Ascii.eqb_neq in Hcr'. now rewrite Hcr'.
           ++ exists ((String c (String d l), EndLF) :: closed), last.
              split; [|split; [assumption | reflexivity]].
              constructor; [|assumption]. unfold proper_line. cbn [fst snd]. split.
              ** now apply Hcons.
              ** intros _. rewrite endsWith_cons, (Hcr eq_refl).
                 cbn [String.eqb]. now destruct (Ascii.eqb c CR).
        -- exists ((String c l, EndCRLF) :: closed), last.
           split; [|split; [assumption | reflexivity]].
           constructor; [|assumption]. unfold proper_line. cbn [fst snd]. split.
           ++ now apply Hcons.
           ++ discriminate.
Qed.

(** The loop of [addFileContent] appends one paragraph per line. *)
Lemma addFileContent_map (content : string) (children : list Paragraph) :
  addFileContent content children
  = (children
     ++ map (fun line => textParagraph (line_or_space line))
            (split_lines content))%list.
Proof.
  unfold addFileContent. generalize (split_lines content) as lines.
  intros lines; revert children.
  induction lines as [|l lines IH]; intros children; cbn [fold_left map].
  - now rewrite List.app_nil_r.
  - rewrite IH, <- List.app_assoc. reflexivity.
Qed.

End LineFacts.

(** C8: a content made of lines closed by a line feed or by a carriage
    return and a line feed, and of a last line, is turned by
    [addFileContent] into one paragraph per line, in order, after the
    paragraphs it is given; the paragraph of a line has the line as its
    text, or one space when the line is empty, and nothing else: no
    heading, no spacing, not bold, not underlined. *)
Theorem addFileContent_lines
  (closed : list (string * LineEnd)) (last : string)
  (children : list Paragraph) :
  Forall proper_line closed -> JsString.count LF last = 0 ->
  addFileContent (unlines closed last) children
  = children
    ++ map (fun line =>
              mkParagraph None (if String.eqb line "" then " " else line)
                None false None)
           (map fst closed ++ [last]).
Proof.
  intros Hc Hlast.
  rewrite addFileContent_map, split_lines_unlines by assumption.
  f_equal. apply map_ext. intros [|c l]; reflexivity.
Qed.

(** The content ["a\r\nb\n\nc"] gives the four paragraphs ["a"], ["b"],
    [" "], ["c"]. *)
Lemma addFileContent_lines_witness :
  addFileContent
    ("a" ++ String CR (String LF ("b" ++ String LF (String LF "c")))) []
  = [ mkParagraph None "a" None false None;
      mkParagraph None "b" None false None;
      mkParagraph None " " None false None;
      mkParagraph None "c" None false None ].
Proof.
  apply (addFileContent_lines [("a", EndCRLF); ("b", EndLF); ("", EndLF)] "c" []).
  - repeat constructor; discriminate.
  - reflexivity.
Defined.

(* ------------------------------------------------------------------ *)
(** ** [shouldIgnorePath] *)

Section IgnoreFacts.
Context `{Libraries}.

(** The patterns are tried from the left: what the first list decides is
    the answer, and the second list is tried only when no pattern of the
    first matches. *)
Lemma shouldIgnorePath_app (path : string) (ps qs : list string) :
  shouldIgnorePath path (ps ++ qs)
  = match shouldIgnorePath path ps with
    | Ok false => shouldIgnorePath path qs
    | r => r
    end.
Proof.
  induction ps as [|p ps IH]; cbn [List.app shouldIgnorePath].
  - now destruct (shouldIgnorePath path qs) as [[]|].
  - destruct (minimatch path p) as [[]|]; [reflexivity | exact IH | reflexivity].
Qed.

(** When the matcher answers for every pattern, [shouldIgnorePath] returns,
    and it returns whether some pattern matches. *)
Lemma shouldIgnorePath_answers (path : string) (patterns : list string) :
  Forall (answers path) patterns ->
  shouldIgnorePath path patterns = Ok (existsb (matches path) patterns).
Proof.
  induction 1 as [|p ps [b Hb] _ IH]; cbn [shouldIgnorePath existsb].
  - reflexivity.
  - unfold matches at 1. rewrite Hb. destruct b; [reflexivity | exact IH].
Qed.

Lemma existsb_matches (path : string) (patterns : list string) :
  existsb (matches path) patterns = true
  <-> exists p, In p patterns /\ minimatch path p = Ok true.
Proof.
  rewrite existsb_exists. unfold matches.
  split; intros (p & Hin & Hm); exists p; (split; [exact Hin|]).
  - destruct (minimatch path p) as [[]|]; [reflexivity | discriminate..].
  - now rewrite Hm.
Qed.

(** When the matcher answers for every pattern, the verdict depends on the
    patterns as a multiset only. *)
Lemma shouldIgnorePath_Permutation (path : string) (ps qs : list string) :
  Forall (answers path) ps -> Permutation ps qs ->
  shouldIgnorePath path ps = shouldIgnorePath path qs.
Proof.
  intros Hall P.
  rewrite (shouldIgnorePath_answers path ps Hall).
  rewrite (shouldIgnorePath_answers path qs)
    by (eapply Permutation_Forall; eassumption).
  f_equal. clear Hall.
  induction P as [|p ps qs _ IH|p q ps|ps qs rs _ IH1 _ IH2]; cbn [existsb].
  - reflexivity.
  - now rewrite IH.
  - now destruct (matches path p), (matches path q).
  - congruence.
Qed.

(** A path is excluded only by a pattern that matches it. *)
Lemma shouldIgnorePath_true (path : string) (patterns : list string) :
  shouldIgnorePath path patterns = Ok true ->
  exists p, In p patterns /\ minimatch path p = Ok true.
Proof.
  induction patterns as [|p ps IH]; cbn [shouldIgnorePath]; [discriminate|].
  destruct (minimatch path p) as [[]|] eqn:Hp; [| |discriminate].
  - intros _. exists p. split; [now left | exact Hp].
  - intros Hs. destruct (IH Hs) as (q & Hin & Hq). exists q.
    split; [now right | exact Hq].
Qed.

(** What [shouldIgnorePath] throws, the matcher has thrown. *)
Lemma shouldIgnorePath_throws (path : string) (patterns : list string)
  (e : Error) :
  shouldIgnorePath path patterns = Throw e ->
  exists p, In p patterns /\ minimatch path p = Throw e.
Proof.
  induction patterns as [|p ps IH]; cbn [shouldIgnorePath]; [discriminate|].
  destruct (minimatch path p) as [[]|e0] eqn:Hp; [discriminate| |].
  - intros Hs. destruct (IH Hs) as (q & Hin & Hq). exists q.
    split; [now right | exact Hq].
  - intros [= <-]. exists p. split; [now left | exact Hp].
Qed.

End IgnoreFacts.

(** With a pattern that the matcher refuses, the order of the sources
    decides: the path is excluded when the default patterns come first, and
    the call throws when the refused pattern comes first. *)
Lemma shouldIgnorePath_order_matters :
  shouldIgnorePath (H := sampleLibraries) "node_modules/x/index.js"
    (allIgnorePatterns getDefaultIgnorePatterns [] [overlongPattern])
  = Ok true /\
  shouldIgnorePath (H := sampleLibraries) "node_modules/x/index.js"
    (allIgnorePatterns [overlongPattern] getDefaultIgnorePatterns [])
  = Throw pattern_too_long.
Proof. split; vm_compute; reflexivity. Qed.

(** C6: when the matcher answers for the path and every pattern of the
    three sources, the six orders of joining the sources give the same
    verdict for the path; the path is excluded exactly when some pattern of
    some source matches it; and matching against the joined patterns twice
    over changes nothing. *)
Theorem shouldIgnorePath_order_independent `{Libraries}
  (path : string) (defaults custom extra : list string) :
  Forall (answers path) (defaults ++ custom ++ extra) ->
  exists excluded : bool,
    shouldIgnorePath path (allIgnorePatterns defaults custom extra)
    = Ok excluded /\
    shouldIgnorePath path (allIgnorePatterns defaults extra custom)
    = Ok excluded /\
    shouldIgnorePath path (allIgnorePatterns custom defaults extra)
    = Ok excluded /\
    shouldIgnorePath path (allIgnorePatterns custom extra defaults)
    = Ok excluded /\
    shouldIgnorePath path (allIgnorePatterns extra defaults custom)
    = Ok excluded /\
    shouldIgnorePath path (allIgnorePatterns extra custom defaults)
    = Ok excluded /\
    shouldIgnorePath path
      (allIgnorePatterns defaults custom extra
       ++ allIgnorePatterns defaults custom extra) = Ok excluded /\
    (excluded = true <->
     exists p, (In p defaults \/ In p custom \/ In p extra)
               /\ minimatch path p = Ok true).
Proof.
  intros Hall.
  apply Forall_app in Hall as [Hd Hall]. apply Forall_app in Hall as [Hc He].
  exists (existsb (matches path) defaults || existsb (matches path) custom
          || existsb (matches path) extra).
  unfold allIgnorePatterns.
  repeat split.
  1-7: rewrite shouldIgnorePath_answers
         by (repeat (apply Forall_app; split); assumption);
       rewrite !existsb_app; f_equal;
       destruct (existsb (matches path) defaults),
                (existsb (matches path) custom),
                (existsb (matches path) extra); reflexivity.
  - intros Ht. apply orb_true_iff in Ht as [Ht|Ht];
      [apply orb_true_iff in Ht as [Ht|Ht]|];
      apply existsb_matches in Ht as (p & Hin & Hm); exists p; auto.
  - intros (p & Hin & Hm).
    assert (Hex : forall ps, In p ps -> existsb (matches path) ps = true)
      by (intros ps Hp; apply existsb_matches; now exists p).
    destruct Hin as [Hin|[Hin|Hin]]; rewrite (Hex _ Hin);
      now rewrite ?orb_true_r.
Qed.

(** A path under [docs/] is excluded by a pattern of the repository's own
    list, in whatever order the lists are joined. *)
Lemma shouldIgnorePath_order_independent_witness :
  shouldIgnorePath (H := sampleLibraries) "docs/guide.txt"
    (allIgnorePatterns ["notes.txt"] ["docs/**"] getDefaultIgnorePatterns)
  = Ok true /\
  shouldIgnorePath (H := sampleLibraries) "docs/guide.txt"
    (allIgnorePatterns getDefaultIgnorePatterns ["docs/**"] ["notes.txt"])
  = Ok true.
Proof.
  destruct (shouldIgnorePath_order_independent (H := sampleLibraries)
              "docs/guide.txt" getDefaultIgnorePatterns ["docs/**"]
              ["notes.txt"])
    as (excluded & E0 & _ & _ & _ & _ & E & _ & I).
  - repeat constructor; eexists; reflexivity.
  - assert (T : excluded = true).
    { apply I. exists "docs/**". split; [right; left; now left | reflexivity]. }
    subst excluded. split; [exact E | exact E0].
Defined.

(* ------------------------------------------------------------------ *)
(** ** The entry loop *)

Section WalkFacts.
Context `{Libraries}.
Variables (repo_name branch : string) (ignorePatterns : list string).
Local Open Scope N_scope.

Local Abbreviation step := (processEntry repo_name branch ignorePatterns).
Local Abbreviation walk := (processEntries repo_name branch ignorePatterns).
Local Abbreviation path_of := (cleanPath repo_name branch).
Local Abbreviation tally_of := (tally repo_name branch ignorePatterns).
Local Abbreviation checked := (checkable repo_name branch ignorePatterns).

Ltac case_if :=
  match goal with |- context [if ?b then _ else _] => destruct b end.

Ltac run_monad :=
  cbv beta iota zeta delta
    [processFile try_catch bind lift call_getData when push write_console
     modify get ret incr_processedFiles incr_skippedFilesByIgnore
     incr_skippedFilesByBinary incr_skippedFilesByValidation
     incr_skippedFilesByError];
  cbn [children processedFiles skippedFilesByIgnore skippedFilesByBinary
       skippedFilesByValidation skippedFilesByError console dataCalls
       negb fst snd].

(** A directory entry leaves every variable as it is. *)
Lemma processEntry_directory (entry : ZipEntry) (st : WalkState) :
  isDirectory entry = true -> step entry st = (Ok tt, st).
Proof. intros Hd. unfold processEntry. now rewrite Hd. Qed.

(** What [shouldIgnorePath] throws leaves the loop body, with every
    variable as it is. *)
Lemma processEntry_check_throws (entry : ZipEntry) (st : WalkState)
  (e : Error) :
  isDirectory entry = false ->
  shouldIgnorePath (path_of entry) ignorePatterns = Throw e ->
  step entry st = (Throw e, st).
Proof.
  intros Hd Hc. unfold processEntry. rewrite Hd. cbv zeta. rewrite Hc.
  reflexivity.
Qed.

(** The paragraphs of the lines, field by field. *)
Lemma paragraphs_of_lines (lines : list string) :
  map (fun line => textParagraph (line_or_space line)) lines
  = map (fun line =>
           mkParagraph None
             (match line with EmptyString => " "%string | _ => line end)
             None false None)
        lines.
Proof. apply map_ext. intros [|c l]; reflexivity. Qed.

Lemma warningLogs_app (a b : list ConsoleEvent) :
  warningLogs (a ++ b) = (warningLogs a ++ warningLogs b)%list.
Proof. apply flat_map_app. Qed.

(** A file whose ignore check returns never throws out of the loop body:
    the counter of its verdict moves by one, its section is added when it is
    included, its content is asked for when it has to be, and its warning is
    written when its content cannot be read. *)
Lemma processEntry_stepped (entry : ZipEntry) (st : WalkState) (b : bool) :
  isDirectory entry = false ->
  shouldIgnorePath (path_of entry) ignorePatterns = Ok b ->
  exists st',
    step entry st = (Ok tt, st') /\
    stepped repo_name branch ignorePatterns entry st st'.
Proof.
  intros Hd Hc.
  unfold processEntry, stepped, entrySection, entryWarning, isRead,
    has_verdict, verdict.
  cbv zeta. rewrite Hd, Hc. cbn [negb andb].
  destruct b.
  { run_monad.
    case_if; eexists; (split; [reflexivity|]);
      cbn [children dataCalls console];
      rewrite ?warningLogs_app; cbn [warningLogs flat_map List.app];
      rewrite ?List.app_nil_r;
      (split; [intros []; cbn; lia | now repeat split]). }
  destruct (isBinaryFile _); cbn [negb].
  { run_monad. eexists; split; [reflexivity|].
    cbn [children dataCalls console]. rewrite ?List.app_nil_r.
    split; [intros []; cbn; lia | now repeat split]. }
  run_monad. destruct (getData entry) as [data|err].
  - destruct (isValidTextContent (toString_utf8 data)); cbn [negb].
    + case_if; eexists; (split; [reflexivity|]);
        cbn [children dataCalls console];
        rewrite ?warningLogs_app; cbn [warningLogs flat_map List.app];
        rewrite ?List.app_nil_r;
        (split; [intros []; cbn; lia|]);
        (split; [|now split]);
        rewrite addFileContent_map, paragraphs_of_lines; unfold fileSection;
        now rewrite <- !List.app_assoc.
    + eexists; split; [reflexivity|].
      cbn [children dataCalls console]. rewrite ?List.app_nil_r.
      split; [intros []; cbn; lia | now repeat split].
  - eexists; split; [reflexivity|].
    cbn [children dataCalls console].
    rewrite warningLogs_app. cbn [warningLogs flat_map List.app].
    rewrite ?List.app_nil_r.
    split; [intros []; cbn; lia | now repeat split].
Qed.

Lemma stepped_directory (entry : ZipEntry) (st : WalkState) :
  isDirectory entry = true ->
  stepped repo_name branch ignorePatterns entry st st.
Proof.
  intros Hd. unfold stepped, entrySection, entryWarning, isRead.
  rewrite Hd. cbn [negb andb]. rewrite !List.app_nil_r.
  split; [intros v; lia | now repeat split].
Qed.

Lemma checkable_true (entry : ZipEntry) :
  checked entry = true ->
  isDirectory entry = true \/
  (isDirectory entry = false /\
   exists b, shouldIgnorePath (path_of entry) ignorePatterns = Ok b).
Proof.
  unfold checkable. destruct (isDirectory entry); [now left|].
  cbn [orb]. destruct (shouldIgnorePath _ _) as [b|e]; [|discriminate].
  intros _. right. split; [reflexivity | now exists b].
Qed.

Lemma checkable_false (entry : ZipEntry) :
  checked entry = false ->
  isDirectory entry = false /\
  exists e, shouldIgnorePath (path_of entry) ignorePatterns = Throw e.
Proof.
  unfold checkable. destruct (isDirectory entry); [discriminate|].
  cbn [orb]. destruct (shouldIgnorePath _ _) as [b|e]; [discriminate|].
  intros _. split; [reflexivity | now exists e].
Qed.

(** An entry that gets past the ignore check does not throw. *)
Lemma processEntry_checked (entry : ZipEntry) (st : WalkState) :
  checked entry = true ->
  exists st',
    step entry st = (Ok tt, st') /\
    stepped repo_name branch ignorePatterns entry st st'.
Proof.
  intros Hc. apply checkable_true in Hc as [Hd|[Hd [b Hb]]].
  - exists st. split; [now apply processEntry_directory |
                       now apply stepped_directory].
  - now apply (processEntry_stepped entry st b).
Qed.

Lemma processEntries_cons (entry : ZipEntry) (rest : list ZipEntry)
  (st st' : WalkState) :
  step entry st = (Ok tt, st') ->
  walk (entry :: rest) st = walk rest st'.
Proof. intros E. cbn [processEntries]. unfold bind. now rewrite E. Qed.

Lemma processEntries_cons_throw (entry : ZipEntry) (rest : list ZipEntry)
  (st st' : WalkState) (e : Error) :
  step entry st = (Throw e, st') ->
  walk (entry :: rest) st = (Throw e, st').
Proof. intros E. cbn [processEntries]. unfold bind. now rewrite E. Qed.

Lemma tally_cons_nat (v : ClassificationVerdict) (entry : ZipEntry)
  (rest : list ZipEntry) :
  tally_of v (entry :: rest)
  = ((if negb (isDirectory entry)
         && has_verdict repo_name branch ignorePatterns v entry
      then 1 else 0)
     + tally_of v rest)%nat.
Proof.
  unfold tally, files. cbn [filter].
  destruct (isDirectory entry); cbn [negb andb filter]; [reflexivity|].
  destruct (has_verdict _ _ _ _ _); reflexivity.
Qed.

Lemma tally_cons (v : ClassificationVerdict) (entry : ZipEntry)
  (rest : list ZipEntry) :
  N.of_nat (tally_of v (entry :: rest))
  = (if negb (isDirectory entry)
        && has_verdict repo_name branch ignorePatterns v entry
     then 1 else 0)
    + N.of_nat (tally_of v rest).
Proof.
  rewrite tally_cons_nat.
  destruct (negb (isDirectory entry)
            && has_verdict repo_name branch ignorePatterns v entry); lia.
Qed.


Lemma walked_over_nil (st : WalkState) :
  walked_over repo_name branch ignorePatterns [] st st.
Proof.
  unfold walked_over. cbn. rewrite !List.app_nil_r.
  split; [intros v; lia | now repeat split].
Qed.

Lemma walked_over_cons (entry : ZipEntry) (rest : list ZipEntry)
  (st st1 st' : WalkState) :
  stepped repo_name branch ignorePatterns entry st st1 ->
  walked_over repo_name branch ignorePatterns rest st1 st' ->
  walked_over repo_name branch ignorePatterns (entry :: rest) st st'.
Proof.
  intros (S1 & S2 & S3 & S4) (W1 & W2 & W3 & W4).
  split; [|split; [|split]].
  - intros v. rewrite W1, S1, tally_cons. lia.
  - rewrite W2, S2. cbn [flat_map]. now rewrite List.app_assoc.
  - rewrite W3, S3. cbn [filter].
    destruct (isRead repo_name branch ignorePatterns entry); cbn [map].
    + now rewrite <- List.app_assoc.
    + now rewrite List.app_nil_r.
  - rewrite W4, S4. cbn [flat_map]. now rewrite List.app_assoc.
Qed.

(** The loop returns when every entry gets past the ignore check. *)
Lemma processEntries_returns (zipEntries : list ZipEntry) (st : WalkState) :
  forallb checked zipEntries = true ->
  exists st',
    walk zipEntries st = (Ok tt, st') /\
    walked_over repo_name branch ignorePatterns zipEntries st st'.
Proof.
  revert st. induction zipEntries as [|entry rest IH]; intros st Hall.
  - exists st. split; [reflexivity | apply walked_over_nil].
  - cbn [forallb] in Hall. apply andb_true_iff in Hall as [Hc Hrest].
    destruct (processEntry_checked entry st Hc) as (st1 & E1 & S1).
    destruct (IH st1 Hrest) as (st' & E & W). exists st'. split.
    + now rewrite (processEntries_cons entry rest st st1).
    + now apply (walked_over_cons entry rest st st1 st').
Qed.

(** The loop throws only what the ignore check of a file throws; it has
    then gone over the entries before that file, and over no other. *)
Lemma processEntries_throws (zipEntries : list ZipEntry) (st st' : WalkState)
  (e : Error) :
  walk zipEntries st = (Throw e, st') ->
  exists done entry rest,
    zipEntries = (done ++ entry :: rest)%list /\
    forallb checked done = true /\
    isDirectory entry = false /\
    shouldIgnorePath (path_of entry) ignorePatterns = Throw e /\
    walked_over repo_name branch ignorePatterns done st st'.
Proof.
  revert st. induction zipEntries as [|entry rest IH]; intros st E.
  - discriminate.
  - destruct (checked entry) eqn:Hc.
    + destruct (processEntry_checked entry st Hc) as (st1 & E1 & S1).
      rewrite (processEntries_cons entry rest st st1 E1) in E.
      destruct (IH st1 E) as (done & bad & rest' & -> & Hd & Hb & Ht & W).
      exists (entry :: done), bad, rest'.
      split; [reflexivity|]. split; [cbn [forallb]; now rewrite Hc|].
      split; [exact Hb|]. split; [exact Ht|].
      now apply (walked_over_cons entry done st st1 st').
    + apply checkable_false in Hc as [Hd [e0 He0]].
      rewrite (processEntries_cons_throw entry rest st st e0) in E
        by now apply processEntry_check_throws.
      injection E as <- <-.
      exists [], entry, rest.
      split; [reflexivity|]. split; [reflexivity|].
      split; [exact Hd|]. split; [exact He0 | apply walked_over_nil].
Qed.

(** Whether it returns or throws, the loop has gone over the first
    entries of the archive, all of which got past the ignore check; when it
    returns it has gone over all of them. *)
Lemma processEntries_prefix (zipEntries : list ZipEntry) (st : WalkState) :
  exists done rest,
    zipEntries = (done ++ rest)%list /\
    forallb checked done = true /\
    walked_over repo_name branch ignorePatterns done st
      (snd (walk zipEntries st)) /\
    (fst (walk zipEntries st) = Ok tt -> rest = []).
Proof.
  destruct (walk zipEntries st) as [[[]|e] st'] eqn:E; cbn [fst snd].
  - destruct (forallb checked zipEntries) eqn:Hall.
    + destruct (processEntries_returns zipEntries st Hall) as (st2 & E2 & W).
      rewrite E in E2. injection E2 as <-.
      exists zipEntries, []. now rewrite List.app_nil_r.
    + exfalso. clear - E Hall. revert st E.
      induction zipEntries as [|entry rest IH]; intros st E; [discriminate|].
      cbn [forallb] in Hall. destruct (checked entry) eqn:Hc.
      * destruct (processEntry_checked entry st Hc) as (st1 & E1 & _).
        rewrite (processEntries_cons entry rest st st1 E1) in E.
        now apply (IH Hall st1).
      * apply checkable_false in Hc as [Hd [e0 He0]].
        rewrite (processEntries_cons_throw entry rest st st e0) in E
          by now apply processEntry_check_throws.
        discriminate.
  - destruct (processEntries_throws zipEntries st st' e E)
      as (done & bad & rest & -> & Hall & _ & _ & W).
    exists done, (bad :: rest). split; [reflexivity|].
    split; [exact Hall|]. split; [exact W | discriminate].
Qed.



(** What the loop body does with a file whose [getData] throws. *)
Lemma processEntry_throwing (entry : ZipEntry) (st : WalkState) (err : Error) :
  isDirectory entry = false ->
  shouldIgnorePath (path_of entry) ignorePatterns = Ok false ->
  isBinaryFile (path_of entry) = false ->
  getData entry = Throw err ->
  step entry st
  = (Ok tt,
     mkState (children st) (processedFiles st) (skippedFilesByIgnore st)
       (skippedFilesByBinary st) (skippedFilesByValidation st)
       (skippedFilesByError st + 1)
       (console st
        ++ [WarnCouldNotProcess (entryName entry) (message err)])
       (dataCalls st ++ [entryName entry])).
Proof.
  intros Hd Hi Hb Hg. unfold processEntry. cbv zeta. rewrite Hd, Hi, Hb.
  cbn [negb]. run_monad. rewrite Hg. reflexivity.
Qed.

(** What the loop body does with a file that decodes to invalid text. *)
Lemma processEntry_invalid (entry : ZipEntry) (st : WalkState) (data : Buffer) :
  isDirectory entry = false ->
  shouldIgnorePath (path_of entry) ignorePatterns = Ok false ->
  isBinaryFile (path_of entry) = false ->
  getData entry = Ok data ->
  isValidTextContent (toString_utf8 data) = false ->
  step entry st
  = (Ok tt,
     mkState (children st) (processedFiles st) (skippedFilesByIgnore st)
       (skippedFilesByBinary st) (skippedFilesByValidation st + 1)
       (skippedFilesByError st) (console st)
       (dataCalls st ++ [entryName entry])).
Proof.
  intros Hd Hi Hb Hg Hv. unfold processEntry. cbv zeta. rewrite Hd, Hi, Hb.
  cbn [negb]. run_monad. rewrite Hg, Hv. reflexivity.
Qed.

(** What the loop body does with a file that is binary by its extension. *)
Lemma processEntry_binary (entry : ZipEntry) (st : WalkState) :
  isDirectory entry = false ->
  shouldIgnorePath (path_of entry) ignorePatterns = Ok false ->
  isBinaryFile (path_of entry) = true ->
  step entry st
  = (Ok tt,
     mkState (children st) (processedFiles st) (skippedFilesByIgnore st)
       (skippedFilesByBinary st + 1) (skippedFilesByValidation st)
       (skippedFilesByError st) (console st) (dataCalls st)).
Proof.
  intros Hd Hi Hb. unfold processEntry. cbv zeta. rewrite Hd, Hi, Hb.
  reflexivity.
Qed.

(** [getData] is called only after the extension check has let the file
    through: for a name that is binary the loop body calls nothing and adds
    nothing, whether it returns or the ignore check throws. *)
Lemma processEntry_binary_no_call (entry : ZipEntry) (st : WalkState) :
  isBinaryFile (path_of entry) = true ->
  exists r st',
    step entry st = (r, st') /\
    (r = Ok tt \/
     exists e, r = Throw e /\ isDirectory entry = false /\
               shouldIgnorePath (path_of entry) ignorePatterns = Throw e) /\
    (checked entry = true -> r = Ok tt) /\
    dataCalls st' = dataCalls st /\ children st' = children st /\
    processedFiles st' = processedFiles st /\
    skippedFilesByValidation st' = skippedFilesByValidation st /\
    skippedFilesByError st' = skippedFilesByError st.
Proof.
  intros Hb. unfold processEntry, checkable. cbv zeta. rewrite Hb.
  destruct (isDirectory entry); cbn [negb orb].
  { exists (Ok tt), st. split; [reflexivity|]. split; [now left|].
    now repeat split. }
  destruct (shouldIgnorePath _ _) as [[]|e].
  - run_monad.
    case_if; eexists _, _; (split; [reflexivity|]);
      (split; [now left|]); now repeat split.
  - run_monad. eexists _, _; split; [reflexivity|].
    split; [now left|]. now repeat split.
  - run_monad. eexists _, _; split; [reflexivity|].
    split; [right; now exists e|].
    split; [discriminate|]. now repeat split.
Qed.

End WalkFacts.




Example walk_sampleArchive :
  processEntries (H := sampleLibraries) "repo" "main"
    getDefaultIgnorePatterns sampleArchive (initialState [])
  = (Ok tt,
     mkState
       [ fileHeading "src/index.js"; textParagraph "const x = 1;";
         textParagraph "module.exports = x;"; textParagraph " "; separator ]
       1 2 1 0 0 [] ["repo-main/src/index.js"]).
Proof. vm_compute. reflexivity. Qed.

Section FailureFacts.
Context `{Libraries}.
Variables (repo_name branch : string) (ignorePatterns : list string).

Lemma tally_app (v : ClassificationVerdict) (a b : list ZipEntry) :
  tally repo_name branch ignorePatterns v (a ++ b)
  = tally repo_name branch ignorePatterns v a
    + tally repo_name branch ignorePatterns v b.
Proof. unfold tally, files. now rewrite !filter_app, length_app. Qed.

(** The verdict, the section and the warning of a file that is let through
    and whose content cannot be read. *)
Lemma failing_entry (entry : ZipEntry) (err : Error) :
  isDirectory entry = false ->
  shouldIgnorePath (cleanPath repo_name branch entry) ignorePatterns
  = Ok false ->
  isBinaryFile (cleanPath repo_name branch entry) = false ->
  getData entry = Throw err ->
  checkable repo_name branch ignorePatterns entry = true /\
  (forall v, has_verdict repo_name branch ignorePatterns v entry
             = verdict_eqb SkippedByError v) /\
  entrySection repo_name branch ignorePatterns entry = [] /\
  entryWarning repo_name branch ignorePatterns entry
  = [(entryName entry, message err)].
Proof.
  intros Hd Hi Hb Hg.
  unfold checkable, entrySection, entryWarning, isRead, has_verdict, verdict.
  cbv zeta. rewrite Hd, Hi, Hb, Hg. now repeat split.
Qed.

End FailureFacts.

(** C4: when [getData] throws for a file that the ignore patterns and the
    extension check have let through, the loop body catches the error: it
    writes the warning, adds one to the error counter, changes no other
    counter and no paragraph, and does not throw.  The loop goes on: with
    such a file anywhere in the archive, and the ignore check returning for
    the other entries, the loop ends without throwing, the file is counted
    as failed, the files before it and after it are counted under their
    verdicts and have their sections in the document, and the warning of
    the file stands between theirs.  And whatever the other entries are,
    the loop never throws the error of the file: what it throws, the ignore
    check of another file has thrown. *)
Theorem per_file_failure_isolated `{Libraries}
  (repo_name branch : string) (ignorePatterns : list string)
  (before : list ZipEntry) (entry : ZipEntry) (rest : list ZipEntry)
  (st : WalkState) (err : Error) :
  isDirectory entry = false ->
  shouldIgnorePath (cleanPath repo_name branch entry) ignorePatterns
  = Ok false ->
  isBinaryFile (cleanPath repo_name branch entry) = false ->
  getData entry = Throw err ->
  (forall st0,
     processEntry repo_name branch ignorePatterns entry st0
     = (Ok tt,
        mkState (children st0) (processedFiles st0) (skippedFilesByIgnore st0)
          (skippedFilesByBinary st0) (skippedFilesByValidation st0)
          (skippedFilesByError st0 + 1)
          (console st0
           ++ [WarnCouldNotProcess (entryName entry) (message err)])
          (dataCalls st0 ++ [entryName entry]))) /\
  (forallb (checkable repo_name branch ignorePatterns) (before ++ rest) = true ->
   exists st',
     processEntries repo_name branch ignorePatterns (before ++ entry :: rest) st
     = (Ok tt, st') /\
     skippedFilesByError st'
     = (skippedFilesByError st
        + N.of_nat (tally repo_name branch ignorePatterns SkippedByError before)
        + 1
        + N.of_nat (tally repo_name branch ignorePatterns SkippedByError rest))%N /\
     (forall v, v <> SkippedByError ->
        counter v st'
        = (counter v st
           + N.of_nat (tally repo_name branch ignorePatterns v before)
           + N.of_nat (tally repo_name branch ignorePatterns v rest))%N) /\
     children st'
     = children st
       ++ flat_map (entrySection repo_name branch ignorePatterns) before
       ++ flat_map (entrySection repo_name branch ignorePatterns) rest /\
     warningLogs (console st')
     = warningLogs (console st)
       ++ flat_map (entryWarning repo_name branch ignorePatterns) before
       ++ [(entryName entry, message err)]
       ++ flat_map (entryWarning repo_name branch ignorePatterns) rest) /\
  (forall e st',
     processEntries repo_name branch ignorePatterns (before ++ entry :: rest) st
     = (Throw e, st') ->
     exists other,
       In other (before ++ rest) /\ isDirectory other = false /\
       shouldIgnorePath (cleanPath repo_name branch other) ignorePatterns
       = Throw e).
Proof.
  intros Hd Hi Hb Hg.
  destruct (failing_entry repo_name branch ignorePatterns entry err
              Hd Hi Hb Hg) as (Hck & Hv & Hs & Hw).
  split; [|split].
  - intros st0. now apply processEntry_throwing.
  - intros Hall. rewrite forallb_app in Hall.
    apply andb_true_iff in Hall as [Hbefore Hrest].
    destruct (processEntries_returns repo_name branch ignorePatterns
                (before ++ entry :: rest) st) as (st' & E & W1 & W2 & _ & W4).
    { rewrite forallb_app. cbn [forallb]. now rewrite Hbefore, Hck, Hrest. }
    exists st'. split; [exact E|].
    assert (Ht : forall v,
              N.of_nat (tally repo_name branch ignorePatterns v
                          (before ++ entry :: rest))
              = (N.of_nat (tally repo_name branch ignorePatterns v before)
                 + (if verdict_eqb SkippedByError v then 1 else 0)
                 + N.of_nat (tally repo_name branch ignorePatterns v rest))%N).
    { intros v. rewrite tally_app, Nat2N.inj_add, tally_cons, Hd, Hv.
      cbn [negb andb]. lia. }
    split; [|split; [|split]].
    + specialize (W1 SkippedByError). rewrite Ht in W1.
      cbn [counter verdict_eqb] in W1. lia.
    + intros v Hne. rewrite W1, Ht.
      destruct v; cbn [verdict_eqb]; try lia. contradiction.
    + rewrite W2, flat_map_app. cbn [flat_map]. now rewrite Hs.
    + rewrite W4, flat_map_app. cbn [flat_map]. now rewrite Hw.
  - intros e st' E.
    destruct (processEntries_throws repo_name branch ignorePatterns
                (before ++ entry :: rest) st st' e E)
      as (done & bad & rest' & Eq & _ & Hbd & Hbt & _).
    exists bad. split; [|split; [exact Hbd | exact Hbt]].
    assert (Hin : In bad (before ++ entry :: rest))
      by (rewrite Eq; apply in_or_app; right; now left).
    apply in_app_or in Hin as [Hin|[->|Hin]].
    + apply in_or_app. now left.
    + congruence.
    + apply in_or_app. now right.
Qed.

(** A file that cannot be read, before an empty file: the one is counted
    as failed, the other as invalid, and the loop returns. *)
Lemma per_file_failure_isolated_witness :
  exists st',
    processEntries (H := sampleLibraries) "repo" "main" getDefaultIgnorePatterns
      [brokenEntry; emptyEntry] (initialState [])
    = (Ok tt, st') /\
    skippedFilesByError st' = 1%N /\ skippedFilesByValidation st' = 1%N /\
    warningLogs (console st')
    = [("repo-main/broken.txt"%string, "Invalid CEN header"%string)].
Proof.
  destruct (per_file_failure_isolated (H := sampleLibraries) "repo" "main"
              getDefaultIgnorePatterns [] brokenEntry [emptyEntry]
              (initialState []) (mkError "Invalid CEN header"))
    as (_ & Hwalk & _); try reflexivity.
  destruct (Hwalk eq_refl) as (st' & E & He & Hv & _ & Hw).
  exists st'. split; [exact E|]. split; [exact He|].
  split; [|exact Hw].
  exact (Hv SkippedAsInvalidText ltac:(discriminate)).
Defined.

(* ------------------------------------------------------------------ *)
(** ** [isBinaryFile] *)

Section BinaryFacts.
Import JsString JsStringFacts.
Local Open Scope string_scope.

Lemma lower_unit_slash (c : ascii) :
  Ascii.eqb (lower_unit c) "/" = Ascii.eqb c "/".
Proof.
  destruct c as [[] [] [] [] [] [] [] []]; vm_compute; reflexivity.
Qed.

Lemma count_slash_toLowerCase (s : string) :
  count "/" (toLowerCase s) = count "/" s.
Proof.
  induction s as [|c s IH]; [reflexivity|].
  cbn [toLowerCase count]. now rewrite lower_unit_slash, IH.
Qed.

Lemma binaryExtensions_no_slash :
  Forall (fun ext => count "/" ext = 0) binaryExtensions.
Proof. repeat constructor. Qed.

(** A name that ends, in whatever case, with a listed extension is binary. *)
Lemma isBinaryFile_suffix (stem e : string) :
  In (toLowerCase e) binaryExtensions -> isBinaryFile (stem ++ e) = true.
Proof.
  intros Hin. unfold isBinaryFile. apply existsb_exists.
  exists (toLowerCase e). split; [exact Hin|].
  rewrite toLowerCase_app. apply endsWith_app.
Qed.

Lemma strip_prefix_slash_None (p e : string) :
  count "/" e = 0 -> strip_prefix (p ++ "/") e = None.
Proof.
  intros Hc. destruct (strip_prefix (p ++ "/") e) as [r|] eqn:E; [|reflexivity].
  apply strip_prefix_Some in E. subst e.
  rewrite !count_app in Hc. simpl in Hc. lia.
Qed.

Lemma strip_prefix_app_tail (p stem e : string) :
  count "/" e = 0 ->
  strip_prefix (p ++ "/") (stem ++ e)
  = option_map (fun r => r ++ e) (strip_prefix (p ++ "/") stem).
Proof.
  intros Hc. revert stem. induction p as [|a p IH]; intros stem.
  - destruct stem as [|c stem]; cbn [append].
    + pose proof (strip_prefix_slash_None "" e Hc) as E.
      cbn [append] in E. rewrite E. reflexivity.
    + cbn [strip_prefix]. destruct (Ascii.eqb "/" c); reflexivity.
  - destruct stem as [|c stem]; cbn [append].
    + pose proof (strip_prefix_slash_None (String a p) e Hc) as E.
      cbn [append] in E. rewrite E. reflexivity.
    + cbn [strip_prefix]. destruct (Ascii.eqb a c); [apply IH | reflexivity].
Qed.

(** Removing a pattern that ends with a slash leaves a slash-free end of the
    string in place. *)
Lemma remove_first_app_tail (p stem e : string) :
  count "/" e = 0 ->
  remove_first (p ++ "/") (stem ++ e) = remove_first (p ++ "/") stem ++ e.
Proof.
  intros Hc. induction stem as [|c stem IH].
  - cbn [append]. destruct e as [|d e].
    + cbn [remove_first]. now rewrite (strip_prefix_slash_None p "" eq_refl).
    + cbn [remove_first].
      rewrite (strip_prefix_slash_None p (String d e) Hc).
      rewrite (strip_prefix_slash_None p "" eq_refl).
      cbn [append]. f_equal.
      clear - Hc. cbn [count] in Hc.
      assert (He : count "/" e = 0) by (destruct (Ascii.eqb d "/"); [discriminate | exact Hc]).
      clear Hc. induction e as [|x e IHe]; cbn [remove_first].
      * now rewrite (strip_prefix_slash_None p "" eq_refl).
      * rewrite (strip_prefix_slash_None p (String x e) He).
        f_equal. apply IHe. cbn [count] in He.
        destruct (Ascii.eqb x "/"); [discriminate | exact He].
  - change (String c stem ++ e) with (String c (stem ++ e)).
    cbn [remove_first].
    pose proof (strip_prefix_app_tail p (String c stem) e Hc) as E.
    change (String c stem ++ e) with (String c (stem ++ e)) in E.
    rewrite E.
    destruct (strip_prefix (p ++ "/") (String c stem)); cbn [option_map].
    + reflexivity.
    + cbn [append]. now rewrite IH.
Qed.

Lemma cleanPath_suffix (repo_name branch : string) (entry : ZipEntry)
  (stem e : string) :
  count "/" e = 0 -> entryName entry = stem ++ e ->
  cleanPath repo_name branch entry
  = remove_first (repo_name ++ "-" ++ branch ++ "/") stem ++ e.
Proof.
  intros Hc Hn. unfold cleanPath. rewrite Hn.
  replace (repo_name ++ "-" ++ branch ++ "/")
    with ((repo_name ++ "-" ++ branch) ++ "/")
    by (now rewrite !app_assoc).
  now apply remove_first_app_tail.
Qed.

End BinaryFacts.

(** C5: a name that ends, in whatever case, with a listed extension is
    binary for [isBinaryFile], which is given the name only and not the
    content; removing the archive root from the name keeps it so; and for an
    entry with such a name the loop body ends without a call of [getData],
    without a paragraph and without a change to the counters of processed,
    invalid and failed files, whatever [getData] would have returned or
    thrown: it returns when the entry gets past the ignore check, and
    throws only what the ignore check has thrown; if the entry is a file
    that no pattern excludes, it is counted as binary. *)
Theorem binary_extension_short_circuit `{Libraries}
  (repo_name branch : string) (ignorePatterns : list string)
  (entry : ZipEntry) (stem e : string) (st : WalkState) :
  In (JsString.toLowerCase e) binaryExtensions ->
  entryName entry = (stem ++ e)%string ->
  isBinaryFile (entryName entry) = true /\
  isBinaryFile (cleanPath repo_name branch entry) = true /\
  (exists r st',
     processEntry repo_name branch ignorePatterns entry st = (r, st') /\
     (r = Ok tt \/
      exists e0, r = Throw e0 /\ isDirectory entry = false /\
                 shouldIgnorePath (cleanPath repo_name branch entry)
                   ignorePatterns = Throw e0) /\
     (checkable repo_name branch ignorePatterns entry = true -> r = Ok tt) /\
     dataCalls st' = dataCalls st /\ children st' = children st /\
     processedFiles st' = processedFiles st /\
     skippedFilesByValidation st' = skippedFilesByValidation st /\
     skippedFilesByError st' = skippedFilesByError st) /\
  (isDirectory entry = false ->
   shouldIgnorePath (cleanPath repo_name branch entry) ignorePatterns
   = Ok false ->
   processEntry repo_name branch ignorePatterns entry st
   = (Ok tt,
      mkState (children st) (processedFiles st) (skippedFilesByIgnore st)
        (skippedFilesByBinary st + 1) (skippedFilesByValidation st)
        (skippedFilesByError st) (console st) (dataCalls st))).
Proof.
  intros Hin Hn.
  assert (Hc : JsString.count "/" e = 0).
  { rewrite <- count_slash_toLowerCase.
    exact (proj1 (Forall_forall _ _) binaryExtensions_no_slash _ Hin). }
  assert (Hb : isBinaryFile (cleanPath repo_name branch entry) = true).
  { rewrite (cleanPath_suffix repo_name branch entry stem e Hc Hn).
    now apply isBinaryFile_suffix. }
  split; [rewrite Hn; now apply isBinaryFile_suffix|].
  split; [exact Hb|]. split.
  - now apply processEntry_binary_no_call.
  - intros Hd Hi. now apply processEntry_binary.
Qed.

Lemma binary_extension_short_circuit_witness :
  processEntry (H := sampleLibraries) "repo" "main" getDefaultIgnorePatterns
    imageEntry (initialState [])
  = (Ok tt, mkState [] 0 0 1 0 0 [] []).
Proof.
  apply (binary_extension_short_circuit (H := sampleLibraries) "repo" "main"
           getDefaultIgnorePatterns imageEntry "repo-main/assets/logo" ".PNG"
           (initialState []));
    try reflexivity.
  vm_compute. tauto.
Defined.

(* ------------------------------------------------------------------ *)
(** ** Empty files *)

(** C9: the ratio of an empty content is 0/0, which is NaN; NaN is not below
    0.01, so the empty content is not valid text; and a file that the ignore
    patterns and the extension check have let through and that decodes to
    the empty string adds one to the counter of invalid files and nothing to
    the document. *)
Theorem empty_file_invalid_text `{Libraries}
  (repo_name branch : string) (ignorePatterns : list string)
  (entry : ZipEntry) (data : Buffer) (st : WalkState) :
  isDirectory entry = false ->
  shouldIgnorePath (cleanPath repo_name branch entry) ignorePatterns
  = Ok false ->
  isBinaryFile (cleanPath repo_name branch entry) = false ->
  getData entry = Ok data ->
  toString_utf8 data = EmptyString ->
  nullByteRatio EmptyString = S754_nan /\
  isValidTextContent EmptyString = false /\
  processEntry repo_name branch ignorePatterns entry st
  = (Ok tt,
     mkState (children st) (processedFiles st) (skippedFilesByIgnore st)
       (skippedFilesByBinary st) (skippedFilesByValidation st + 1)
       (skippedFilesByError st) (console st)
       (dataCalls st ++ [entryName entry])).
Proof.
  intros Hd Hi Hb Hg He.
  split; [reflexivity|]. split; [reflexivity|].
  apply (processEntry_invalid repo_name branch ignorePatterns entry st data);
    try assumption.
  now rewrite He.
Qed.

Lemma empty_file_invalid_text_witness :
  processEntry (H := sampleLibraries) "repo" "main" getDefaultIgnorePatterns
    emptyEntry (initialState [])
  = (Ok tt, mkState [] 0 0 0 1 0 [] ["repo-main/empty.txt"]).
Proof.
  apply (empty_file_invalid_text (H := sampleLibraries) "repo" "main"
           getDefaultIgnorePatterns emptyEntry [] (initialState []));
    reflexivity.
Defined.

(* ------------------------------------------------------------------ *)
(** ** Binary64 division and comparison *)

Module Binary64Facts.
Local Open Scope Z_scope.

Lemma digits2_pos_bounds (p : positive) :
  2 ^ (Zpos (digits2_pos p) - 1) <= Zpos p < 2 ^ Zpos (digits2_pos p).
Proof.
  induction p as [p IH|p IH|]; cbn [digits2_pos].
  - rewrite Pos2Z.inj_succ.
    replace (Z.succ (Zpos (digits2_pos p)) - 1) with (Z.succ (Zpos (digits2_pos p) - 1)) by lia.
    rewrite !Z.pow_succ_r by lia. lia.
  - rewrite Pos2Z.inj_succ.
    replace (Z.succ (Zpos (digits2_pos p)) - 1) with (Z.succ (Zpos (digits2_pos p) - 1)) by lia.
    rewrite !Z.pow_succ_r by lia. lia.
  - cbn. lia.
Qed.

Lemma digits2_pos_unique (p : positive) (d : Z) :
  2 ^ (d - 1) <= Zpos p < 2 ^ d -> Zpos (digits2_pos p) = d.
Proof.
  intros [Hlo Hhi]. pose proof (digits2_pos_bounds p) as [Blo Bhi].
  assert (0 < d).
  { destruct (Z.lt_ge_cases 0 d) as [|Hd]; [assumption|].
    exfalso. destruct (Z.eq_dec d 0) as [->|]; [cbn in Hhi; lia|].
    rewrite Z.pow_neg_r in Hhi by lia. lia. }
  assert (Zpos (digits2_pos p) - 1 < d).
  { apply (Z.pow_lt_mono_r_iff 2); lia. }
  assert (d - 1 < Zpos (digits2_pos p)).
  { apply (Z.pow_lt_mono_r_iff 2); lia. }
  lia.
Qed.

Lemma iter_xO (p d : positive) :
  Zpos (Pos.iter xO p d) = Zpos p * 2 ^ Zpos d.
Proof.
  induction d as [|d IH] using Pos.peano_ind.
  - cbn. lia.
  - rewrite Pos.iter_succ, Pos2Z.inj_succ, Z.pow_succ_r by lia.
    rewrite Pos2Z.inj_xO, IH. lia.
Qed.

(** The specification of floating-point numbers is written with the integer
    operations of the core library; [std_Z] restates them with those of the
    standard library, which [lia] and the lemmas on [Z] know. *)
Ltac std_Z :=
  change IntDef.Z.mul with Z.mul in *;
  change IntDef.Z.add with Z.add in *;
  change IntDef.Z.sub with Z.sub in *;
  change IntDef.Z.opp with Z.opp in *;
  change IntDef.Z.compare with Z.compare in *;
  change IntDef.Z.eqb with Z.eqb in *;
  change IntDef.Z.leb with Z.leb in *;
  change IntDef.Z.even with Z.even in *;
  change IntDef.Z.min with Z.min in *;
  change IntDef.Z.max with Z.max in *;
  change IntDef.Z.shiftl with Z.shiftl in *;
  change IntDef.Z.div_eucl with Z.div_eucl in *;
  change PosDef.Pos.succ with Pos.succ in *;
  change @PosDef.Pos.iter with @Pos.iter in *;
  change PosDef.Pos.compare_cont with Pos.compare_cont in *.

Lemma new_location_located (my r q X : Z) :
  0 < my -> 0 <= r < my -> X = my * q + r ->
  located q (new_location my r) X my.
Proof.
  intros Hmy Hr ->. unfold new_location. std_Z.
  destruct (Z.even my) eqn:Ev;
    unfold new_location_even, new_location_odd; std_Z;
    (destruct (Z.eq_dec r 0) as [->|Hr0];
     [ rewrite Z.eqb_refl; cbn [located]; lia
     | rewrite (proj2 (Z.eqb_neq r 0) Hr0) ]).
  - destruct (Z.compare_spec (2 * r) my); cbn [located]; lia.
  - assert (Hodd : Z.odd my = true) by (rewrite <- Z.negb_even, Ev; reflexivity).
    apply Z.odd_spec in Hodd as [k Hk].
    destruct (Z.compare_spec (2 * r + 1) my); cbn [located]; lia.
Qed.

Lemma loc_of_record_of_loc (m : Z) (l : location) :
  loc_of_shr_record (shr_record_of_loc m l) = l /\
  shr_m (shr_record_of_loc m l) = m.
Proof. destruct l as [|[]]; split; reflexivity. Qed.

Lemma shr_1_located (m : Z) (l : location) (num den : Z) :
  0 <= m -> 0 < den -> located m l num den ->
  located (shr_m (shr_1 (shr_record_of_loc m l)))
          (loc_of_shr_record (shr_1 (shr_record_of_loc m l))) num (2 * den)
  /\ shr_m (shr_1 (shr_record_of_loc m l)) = m / 2.
Proof.
  intros Hm Hden Hl.
  assert (Hdiv : forall p, Zpos p = Zpos p~0 / 2 /\ Zpos p = Zpos p~1 / 2).
  { intros p. split.
    - rewrite Pos2Z.inj_xO, Z.mul_comm. symmetry. apply Z.div_mul. lia.
    - rewrite Pos2Z.inj_xI. apply (Z.div_unique _ _ _ 1); lia. }
  destruct m as [|[p|p|]|p]; [| | | |lia];
    destruct l as [|[]];
    cbn [located shr_1 shr_record_of_loc loc_of_shr_record shr_m orb] in *;
    split; try (apply Hdiv); try reflexivity; try lia.
Qed.

Lemma round_nearest_even_located (m : Z) (l : location) (num den : Z) :
  0 < den -> located m l num den ->
  m <= round_nearest_even m l <= m + 1 /\
  2 * Z.abs (round_nearest_even m l * den - num) <= den.
Proof.
  intros Hden Hl. destruct l as [|[]]; cbn [located round_nearest_even] in *;
    std_Z.
  - split; lia.
  - destruct (Z.even m); split; lia.
  - split; lia.
  - split; lia.
Qed.

Lemma fexp_normal (d e : Z) :
  -1074 <= d + e - 53 -> fexp Number.prec Number.emax (d + e) - e = d - 53.
Proof. intros Hr. unfold fexp, emin, Number.prec, Number.emax. std_Z. lia. Qed.

Lemma shr_fexp_53 (m e : Z) (l : location) :
  2 ^ 52 <= m < 2 ^ 53 -> -1074 <= e ->
  shr_fexp Number.prec Number.emax m e l = (shr_record_of_loc m l, e).
Proof.
  intros Hm He. destruct m as [|p|p]; try lia.
  unfold shr_fexp, Zdigits2. std_Z.
  rewrite (digits2_pos_unique p 53) by (change (53 - 1) with 52; lia).
  rewrite fexp_normal by lia. reflexivity.
Qed.

Lemma shr_fexp_54 (m e : Z) (l : location) :
  2 ^ 53 <= m < 2 ^ 54 -> -1075 <= e ->
  shr_fexp Number.prec Number.emax m e l = (shr_1 (shr_record_of_loc m l), e + 1).
Proof.
  intros Hm He. destruct m as [|p|p]; try lia.
  unfold shr_fexp, Zdigits2. std_Z.
  rewrite (digits2_pos_unique p 54) by (change (54 - 1) with 53; lia).
  rewrite fexp_normal by lia. reflexivity.
Qed.

(** The second half of [binary_round_aux]: rounding to nearest a mantissa
    of 53 bits, and shifting once more when the rounding carries. *)
Lemma round_finish (m0 e1 X den : Z) (l : location) :
  2 ^ 52 <= m0 < 2 ^ 53 -> 0 < den -> located m0 l X den ->
  -1074 <= e1 <= 900 ->
  exists (m : positive) (j : Z),
    (let '(mrs, e2) :=
       shr_fexp Number.prec Number.emax (round_nearest_even m0 l) e1 loc_Exact in
     match shr_m mrs with
     | Z0 => S754_zero false
     | Zpos m => if Z.leb e2 (Number.emax - Number.prec) then S754_finite false m e2
                 else S754_infinity false
     | Zneg _ => S754_nan
     end) = S754_finite false m (e1 + j) /\
    0 <= j <= 1 /\ 2 ^ 52 <= Zpos m < 2 ^ 53 /\
    2 * Z.abs (Zpos m * 2 ^ j * den - X) <= 2 ^ j * den.
Proof.
  intros Hm Hden Hl He.
  destruct (round_nearest_even_located m0 l X den Hden Hl) as [Hr Hb].
  set (m1 := round_nearest_even m0 l) in *.
  destruct (Z.lt_ge_cases m1 (2 ^ 53)) as [Hlt|Hge].
  - rewrite shr_fexp_53 by lia. cbn [shr_record_of_loc shr_m].
    destruct m1 as [|p|p]; try lia.
    exists p, 0. rewrite Z.add_0_r.
    replace (e1 <=? Number.emax - Number.prec) with true
      by (symmetry; apply Z.leb_le; unfold Number.emax, Number.prec; lia).
    repeat split; try lia;
      change (2 ^ 0) with 1; rewrite !Z.mul_1_r, Z.mul_1_l; exact Hb.
  - assert (E : m1 = 2 ^ 53) by lia.
    rewrite shr_fexp_54 by lia. rewrite E.
    exists (4503599627370496%positive), 1.
    replace (e1 + 1 <=? Number.emax - Number.prec) with true
      by (symmetry; apply Z.leb_le; unfold Number.emax, Number.prec; lia).
    split; [reflexivity|]. split; [lia|]. split; [cbn; lia|].
    rewrite E in Hb. change (2 ^ 1) with 2.
    change (Zpos 4503599627370496) with (2 ^ 52).
    replace (2 ^ 52 * 2 * den) with (2 ^ 53 * den) by (change (2^53) with (2^52 * 2); lia).
    lia.
Qed.

Lemma binary_round_aux_exact (m : positive) (e : Z) :
  2 ^ 52 <= Zpos m < 2 ^ 53 -> -1074 <= e <= 971 ->
  binary_round_aux Number.prec Number.emax false (Zpos m) e loc_Exact
  = S754_finite false m e.
Proof.
  intros Hm He. unfold binary_round_aux.
  rewrite shr_fexp_53 by lia.
  cbn [shr_record_of_loc shr_m loc_of_shr_record round_nearest_even].
  rewrite shr_fexp_53 by lia. cbn [shr_record_of_loc shr_m]. std_Z.
  replace (e <=? Number.emax - Number.prec) with true
    by (symmetry; apply Z.leb_le; unfold Number.emax, Number.prec; lia).
  reflexivity.
Qed.

(** [binary_round_aux] on a mantissa of 53 or 54 bits that is located with
    respect to [X/den]: the result is a normal number [m * 2^(e+j)] within
    half a unit in the last place of [X/den * 2^e]. *)
Lemma binary_round_aux_spec (q e X den : Z) (l : location) :
  2 ^ 52 <= q < 2 ^ 54 -> 0 < den -> located q l X den ->
  -1074 <= e <= 800 ->
  exists (m : positive) (j : Z),
    binary_round_aux Number.prec Number.emax false q e l = S754_finite false m (e + j) /\
    0 <= j <= 2 /\ 2 ^ 52 <= Zpos m < 2 ^ 53 /\
    2 * Z.abs (Zpos m * 2 ^ j * den - X) <= 2 ^ j * den.
Proof.
  intros Hq Hden Hl He. unfold binary_round_aux. std_Z.
  destruct (Z.lt_ge_cases q (2 ^ 53)) as [Hlt|Hge].
  - rewrite shr_fexp_53 by lia.
    destruct (loc_of_record_of_loc q l) as [-> ->].
    destruct (round_finish q e X den l) as (m & j & E & Hj & Hm & Hb);
      try assumption; try lia.
    exists m, j. rewrite E. repeat split; try lia.
  - rewrite shr_fexp_54 by lia.
    destruct (shr_1_located q l X den) as [Hl' Hm']; try assumption; try lia.
    rewrite Hm'. rewrite Hm' in Hl'.
    assert (Hq2 : 2 ^ 52 <= q / 2 < 2 ^ 53).
    { pose proof (Z.div_mod q 2 ltac:(lia)) as D.
      pose proof (Z.mod_pos_bound q 2 ltac:(lia)) as B.
      change (2 ^ 54) with (2 * 2 ^ 53) in Hq.
      change (2 ^ 53) with (2 * 2 ^ 52) in Hge. lia. }
    assert (Hden2 : 0 < 2 * den) by lia.
    assert (He1 : -1074 <= e + 1 <= 900) by lia.
    destruct (round_finish (q / 2) (e + 1) X (2 * den)
                (loc_of_shr_record (shr_1 (shr_record_of_loc q l)))
                Hq2 Hden2 Hl' He1)
      as (m & j & E & Hj & Hm & Hb).
    exists m, (j + 1). rewrite E.
    replace (e + 1 + j) with (e + (j + 1)) by lia.
    rewrite Z.pow_add_r by lia. change (2 ^ 1) with 2.
    repeat split; try lia.
Qed.

(** The quotient of two normal numbers. *)
Lemma SFdiv_normal (mx my : positive) (ex ey : Z) :
  2 ^ 52 <= Zpos mx < 2 ^ 53 -> 2 ^ 52 <= Zpos my < 2 ^ 53 ->
  -60 <= ex <= 0 -> -60 <= ey <= 0 ->
  exists (m : positive) (j : Z),
    SFdiv Number.prec Number.emax (S754_finite false mx ex) (S754_finite false my ey)
    = S754_finite false m (ex - ey - 53 + j) /\
    0 <= j <= 2 /\ 2 ^ 52 <= Zpos m < 2 ^ 53 /\
    2 * Z.abs (Zpos m * 2 ^ j * Zpos my - Zpos mx * 2 ^ 53)
    <= 2 ^ j * Zpos my.
Proof.
  intros Hx Hy Hex Hey. unfold SFdiv, SFdiv_core_binary, Zdigits2. std_Z.
  rewrite (digits2_pos_unique mx 53), (digits2_pos_unique my 53)
    by (change (53 - 1) with 52; lia).
  replace (Z.min (fexp Number.prec Number.emax (53 + ex - (53 + ey))) (ex - ey))
    with (ex - ey - 53)
    by (unfold fexp, emin, Number.prec, Number.emax; std_Z; lia).
  replace (ex - ey - (ex - ey - 53)) with 53 by lia.
  cbv beta iota zeta.
  rewrite Z.shiftl_mul_pow2 by lia.
  pose proof (Z_div_mod (Zpos mx * 2 ^ 53) (Zpos my) ltac:(lia)) as D.
  destruct (Z.div_eucl (Zpos mx * 2 ^ 53) (Zpos my)) as [q r].
  destruct D as [D Hr]. cbn [xorb].
  assert (Hq : 2 ^ 52 <= q < 2 ^ 54).
  { split.
    - destruct (Z.lt_ge_cases q (2 ^ 52)) as [Hlt|]; [exfalso|assumption].
      assert (Zpos my * q <= Zpos my * (2 ^ 52 - 1))
        by (apply Z.mul_le_mono_nonneg_l; lia).
      assert (2 ^ 52 * 2 ^ 53 <= Zpos mx * 2 ^ 53)
        by (apply Z.mul_le_mono_nonneg_r; lia).
      assert (Zpos my * 2 ^ 52 < 2 ^ 53 * 2 ^ 52)
        by (apply Z.mul_lt_mono_pos_r; lia).
      lia.
    - destruct (Z.lt_ge_cases q (2 ^ 54)) as [|Hge]; [assumption|exfalso].
      assert (0 <= q) by lia.
      assert (2 ^ 52 * q <= Zpos my * q)
        by (apply Z.mul_le_mono_nonneg_r; lia).
      assert (2 ^ 52 * 2 ^ 54 <= 2 ^ 52 * q)
        by (apply Z.mul_le_mono_nonneg_l; lia).
      assert (Zpos mx * 2 ^ 53 < 2 ^ 53 * 2 ^ 53)
        by (apply Z.mul_lt_mono_pos_r; lia).
      lia. }
  apply binary_round_aux_spec; try lia.
  apply new_location_located; lia.
Qed.

Lemma of_nat_zero : Number.of_nat 0 = S754_zero false.
Proof. reflexivity. Qed.

(** A positive integer below [2^53] converts to itself, with its [d] bits
    moved up to the top of the 53 bits of the mantissa. *)
Lemma of_nat_normal (n : nat) :
  0 < Z.of_nat n < 2 ^ 53 ->
  exists (m : positive) (d : Z),
    Number.of_nat n = S754_finite false m (d - 53) /\
    1 <= d <= 53 /\ Zpos m = Z.of_nat n * 2 ^ (53 - d) /\
    2 ^ (d - 1) <= Z.of_nat n < 2 ^ d.
Proof.
  intros Hn. unfold Number.of_nat. destruct (Z.of_nat n) as [|p|p]; try lia.
  pose proof (digits2_pos_bounds p) as Hd.
  remember (Zpos (digits2_pos p)) as d eqn:Ed.
  assert (Hd53 : 1 <= d <= 53).
  { split; [lia|].
    assert (d - 1 < 53) by (apply (Z.pow_lt_mono_r_iff 2); lia). lia. }
  unfold binary_normalize, binary_round, shl_align. std_Z. rewrite <- Ed.
  replace (fexp Number.prec Number.emax (d + 0)) with (d - 53)
    by (unfold fexp, emin, Number.prec, Number.emax; std_Z; lia).
  rewrite Z.sub_0_r.
  assert (Hpow : 2 ^ (d - 1) * 2 ^ (53 - d) = 2 ^ 52)
    by (rewrite <- Z.pow_add_r by lia; f_equal; lia).
  assert (Hpow' : 2 ^ d * 2 ^ (53 - d) = 2 ^ 53)
    by (rewrite <- Z.pow_add_r by lia; f_equal; lia).
  assert (Hpos : 0 < 2 ^ (53 - d)) by (apply Z.pow_pos_nonneg; lia).
  assert (Hrange : 2 ^ 52 <= Zpos p * 2 ^ (53 - d) < 2 ^ 53).
  { rewrite <- Hpow, <- Hpow'. split.
    - apply Z.mul_le_mono_nonneg_r; lia.
    - apply Z.mul_lt_mono_pos_r; lia. }
  destruct (d - 53) as [|k|k] eqn:Ek; try lia.
  - assert (E53 : 53 - d = 0) by lia. rewrite E53 in *.
    change (2 ^ 0) with 1 in *. rewrite Z.mul_1_r in Hrange.
    exists p, d. rewrite binary_round_aux_exact by lia.
    rewrite Ek, E53. change (2 ^ 0) with 1.
    repeat split; try lia.
  - assert (Hk : Zpos k = 53 - d) by lia.
    assert (Hm : Zpos (Pos.iter xO p k) = Zpos p * 2 ^ (53 - d))
      by (rewrite iter_xO, Hk; reflexivity).
    exists (Pos.iter xO p k), d.
    rewrite binary_round_aux_exact by lia.
    rewrite Ek. repeat split; try lia.
Qed.

(** The literal is the binary64 number nearest to 1/100: it is a normal
    number, and 1/100 is within half a unit in its last place. *)
Lemma lit_0_01_nearest :
  valid_binary Number.prec Number.emax Number.lit_0_01 = true /\
  2 * Z.abs (5764607523034235 * 100 - 2 ^ 59) <= 100.
Proof. split; [reflexivity | cbn; lia]. Qed.

(** A normal number [m * 2^-K] within half a unit in the last place of
    [c/n] is below the literal exactly when [c/n] is below 1/100. *)
Lemma threshold_arith (m c n K : Z) :
  2 ^ 52 <= m < 2 ^ 53 -> 1 <= c <= n -> n < 2 ^ 53 -> 0 <= K ->
  2 * Z.abs (m * n - c * 2 ^ K) <= n ->
  (100 * c < n -> 59 < K \/ (K = 59 /\ m < 5764607523034235)) /\
  (n <= 100 * c -> K < 59 \/ (K = 59 /\ 5764607523034235 <= m)).
Proof.
  intros Hm Hc Hn HK Hb.
  assert (Hlo : 2 ^ 52 * n <= m * n) by (apply Z.mul_le_mono_nonneg_r; lia).
  assert (Hhi : m * n <= (2 ^ 53 - 1) * n)
    by (apply Z.mul_le_mono_nonneg_r; lia).
  split; intros Hr.
  - destruct (Z.lt_trichotomy K 59) as [Hlt|[->|Hgt]]; [exfalso| |now left].
    + assert (2 ^ K <= 2 ^ 58) by (apply Z.pow_le_mono_r; lia).
      assert (c * 2 ^ K <= c * 2 ^ 58)
        by (apply Z.mul_le_mono_nonneg_l; lia).
      lia.
    + right. split; [reflexivity|].
      destruct (Z.lt_ge_cases m 5764607523034235) as [|Hge]; [assumption|].
      exfalso.
      assert (5764607523034235 * n <= m * n)
        by (apply Z.mul_le_mono_nonneg_r; lia).
      lia.
  - destruct (Z.lt_trichotomy K 59) as [Hlt|[->|Hgt]]; [now left| |exfalso].
    + right. split; [reflexivity|].
      destruct (Z.lt_ge_cases m 5764607523034235) as [Hlt|]; [|assumption].
      exfalso.
      assert (m * n <= 5764607523034234 * n)
        by (apply Z.mul_le_mono_nonneg_r; lia).
      lia.
    + assert (2 ^ 60 <= 2 ^ K) by (apply Z.pow_le_mono_r; lia).
      assert (c * 2 ^ 60 <= c * 2 ^ K)
        by (apply Z.mul_le_mono_nonneg_l; lia).
      lia.
Qed.


(** [x < y] for two positive normal numbers compares the exponents, then
    the mantissas. *)
Lemma SFltb_finite (m M0 : positive) (K : Z) :
  SFltb (S754_finite false m (- K)) (S754_finite false M0 (-59))
  = (59 <? K) || ((K =? 59) && (Zpos m <? Zpos M0)).
Proof.
  unfold SFltb, SFcompare. std_Z.
  change (Pos.compare_cont Eq m M0) with (Pos.compare m M0).
  rewrite (Pos2Z.inj_compare m M0).
  destruct (Z.compare_spec (- K) (-59)) as [E|E|E].
  - replace K with 59 by lia. rewrite Z.ltb_irrefl, Z.eqb_refl.
    cbn [orb andb]. unfold Z.ltb. now destruct (Zpos m ?= Zpos M0).
  - replace (59 <? K) with true by (symmetry; apply Z.ltb_lt; lia).
    reflexivity.
  - replace (59 <? K) with false by (symmetry; apply Z.ltb_ge; lia).
    replace (K =? 59) with false by (symmetry; apply Z.eqb_neq; lia).
    reflexivity.
Qed.

Lemma ltb_lit (m : positive) (K : Z) :
  SFltb (S754_finite false m (- K)) Number.lit_0_01
  = (59 <? K) || ((K =? 59) && (Zpos m <? 5764607523034235)).
Proof. exact (SFltb_finite m 5764607523034235 K). Qed.

Lemma ratio_ltb (c n : nat) :
  (c <= n)%nat -> (0 < n)%nat -> Z.of_nat n < 2 ^ 53 ->
  SFltb (Number.div (Number.of_nat c) (Number.of_nat n)) Number.lit_0_01
  = (100 * Z.of_nat c <? Z.of_nat n).
Proof.
  intros Hcn Hn0 Hn.
  destruct (of_nat_normal n ltac:(lia)) as (mn & dn & En & Hdn & Hmn & Hbn).
  rewrite En. destruct c as [|c'].
  - cbn. symmetry. apply Z.ltb_lt. lia.
  - set (c := S c') in *.
    destruct (of_nat_normal c ltac:(lia)) as (mc & dc & Ec & Hdc & Hmc & Hbc).
    rewrite Ec. unfold Number.div.
    assert (Hdcn : dc <= dn).
    { assert (dc - 1 < dn) by (apply (Z.pow_lt_mono_r_iff 2); lia). lia. }
    assert (Hrange : forall d x, 1 <= d <= 53 ->
              2 ^ (d - 1) <= x < 2 ^ d ->
              2 ^ 52 <= x * 2 ^ (53 - d) < 2 ^ 53).
    { intros d x Hd Hx.
      assert (Hpow : 2 ^ (d - 1) * 2 ^ (53 - d) = 2 ^ 52)
        by (rewrite <- Z.pow_add_r by lia; f_equal; lia).
      assert (Hpow' : 2 ^ d * 2 ^ (53 - d) = 2 ^ 53)
        by (rewrite <- Z.pow_add_r by lia; f_equal; lia).
      assert (0 < 2 ^ (53 - d)) by (apply Z.pow_pos_nonneg; lia).
      rewrite <- Hpow, <- Hpow'. split.
      - apply Z.mul_le_mono_nonneg_r; lia.
      - apply Z.mul_lt_mono_pos_r; lia. }
    destruct (SFdiv_normal mc mn (dc - 53) (dn - 53))
      as (m & j & E & Hj & Hm & Hb);
      [rewrite Hmc; now apply Hrange | rewrite Hmn; now apply Hrange
      | lia | lia |].
    rewrite E.
    set (K := 53 + dn - dc - j).
    replace (dc - 53 - (dn - 53) - 53 + j) with (- K) by (unfold K; lia).
    assert (HK : 0 <= K) by (unfold K; lia).
    (* the bound, in terms of the two integers *)
    assert (Hb' : 2 * Z.abs (Zpos m * Z.of_nat n - Z.of_nat c * 2 ^ K)
                  <= Z.of_nat n).
    { set (T := 2 ^ j * 2 ^ (53 - dn)).
      assert (HT : 0 < T)
        by (apply Z.mul_pos_pos; apply Z.pow_pos_nonneg; lia).
      assert (HX : Zpos mc * 2 ^ 53 = Z.of_nat c * 2 ^ K * T).
      { rewrite Hmc. unfold T.
        rewrite <- !Z.mul_assoc, <- !Z.pow_add_r by lia.
        do 2 f_equal. unfold K. lia. }
      assert (HY : Zpos m * 2 ^ j * Zpos mn = Zpos m * Z.of_nat n * T)
        by (rewrite Hmn; unfold T; ring).
      assert (HZ : 2 ^ j * Zpos mn = Z.of_nat n * T)
        by (rewrite Hmn; unfold T; ring).
      rewrite HX, HY, HZ in Hb.
      rewrite <- Z.mul_sub_distr_r, Z.abs_mul, (Z.abs_eq T) in Hb by lia.
      apply (Z.mul_le_mono_pos_r _ _ T HT). lia. }
    destruct (threshold_arith (Zpos m) (Z.of_nat c) (Z.of_nat n) K)
      as [Hbelow Habove]; try lia.
    rewrite ltb_lit. clearbody K.
    destruct (Z.ltb_spec (100 * Z.of_nat c) (Z.of_nat n)) as [Hr|Hr].
    + destruct (Hbelow Hr) as [HKgt|[HKeq Hmlt]].
      * replace (59 <? K) with true by (symmetry; apply Z.ltb_lt; lia).
        reflexivity.
      * rewrite HKeq, Z.ltb_irrefl, Z.eqb_refl.
        now apply Z.ltb_lt in Hmlt as ->.
    + destruct (Habove Hr) as [HKlt|[HKeq Hmge]].
      * replace (59 <? K) with false by (symmetry; apply Z.ltb_ge; lia).
        replace (K =? 59) with false by (symmetry; apply Z.eqb_neq; lia).
        reflexivity.
      * rewrite HKeq, Z.ltb_irrefl, Z.eqb_refl.
        now apply Z.ltb_ge in Hmge as ->.
Qed.

End Binary64Facts.

(* ------------------------------------------------------------------ *)
(** ** [isValidTextContent] *)

Lemma count_le_length (c : ascii) (s : string) :
  JsString.count c s <= String.length s.
Proof.
  induction s as [|d s IH]; cbn [JsString.count String.length]; [lia|].
  destruct (Ascii.eqb d c); lia.
Qed.

(** C1: for every non-empty content (of fewer than [2^53] code units, as
    every string of the language is), [isValidTextContent] holds exactly
    when the null code units are strictly fewer than one in a hundred, and
    fails exactly when they are one in a hundred or more: the binary64
    quotient and the binary64 literal [0.01] decide as the exact ratio and
    1/100 do. *)
Theorem null_byte_threshold (content : string) :
  0 < String.length content ->
  (Z.of_nat (String.length content) < 2 ^ 53)%Z ->
  (isValidTextContent content = true
   <-> 100 * JsString.count NUL content < String.length content) /\
  (isValidTextContent content = false
   <-> String.length content <= 100 * JsString.count NUL content).
Proof.
  intros Hpos Hlen.
  assert (E : isValidTextContent content
              = (100 * Z.of_nat (JsString.count NUL content)
                 <? Z.of_nat (String.length content))%Z).
  { unfold isValidTextContent, nullByteRatio, Number.ltb.
    apply Binary64Facts.ratio_ltb; [apply count_le_length | lia | exact Hlen]. }
  rewrite E.
  destruct (Z.ltb_spec (100 * Z.of_nat (JsString.count NUL content))
              (Z.of_nat (String.length content))) as [H|H];
    split; split; intros; try discriminate; try reflexivity; lia.
Qed.

(** A content of 1000 code units with 10 null code units is rejected, and
    one with 9 passes. *)
Lemma null_byte_threshold_witness :
  isValidTextContent (sampleContent 10 1000) = false /\
  isValidTextContent (sampleContent 9 1000) = true.
Proof.
  split.
  - apply (null_byte_threshold (sampleContent 10 1000));
      vm_compute; first [reflexivity | lia].
  - apply (null_byte_threshold (sampleContent 9 1000));
      vm_compute; first [reflexivity | lia].
Defined.

(* ------------------------------------------------------------------ *)
(** ** [parseDocxIgnore] *)

Module IgnoreFileFacts.
Import JsString JsStringFacts.
Local Open Scope string_scope.

Lemma trimStart_clean (s : string) : starts_clean (trimStart s).
Proof.
  induction s as [|c s IH]; cbn [trimStart]; [exact I|].
  destruct (is_space c) eqn:E; [exact IH | exact E].
Qed.

Lemma trimStart_id (s : string) : starts_clean s -> trimStart s = s.
Proof. destruct s as [|c s]; cbn; [reflexivity | now intros ->]. Qed.

Lemma trimEnd_cons (c : ascii) (s : string) :
  trimEnd (String c s)
  = match trimEnd s with
    | "" => if is_space c then "" else String c ""
    | String d t => String c (String d t)
    end.
Proof. reflexivity. Qed.

Lemma trimEnd_clean (s : string) : starts_clean s -> starts_clean (trimEnd s).
Proof.
  destruct s as [|c s]; [exact id|].
  rewrite trimEnd_cons. cbn [starts_clean].
  intros E. destruct (trimEnd s); [rewrite E|]; exact E.
Qed.

Lemma trimEnd_idem (s : string) : trimEnd (trimEnd s) = trimEnd s.
Proof.
  induction s as [|c s IH]; [reflexivity|].
  rewrite trimEnd_cons. destruct (trimEnd s) as [|d t] eqn:E.
  - destruct (is_space c) eqn:Ec; [reflexivity|].
    rewrite trimEnd_cons. cbn [trimEnd]. now rewrite Ec.
  - rewrite trimEnd_cons, IH. reflexivity.
Qed.

Lemma trim_idem (s : string) : trim (trim s) = trim s.
Proof.
  unfold trim.
  rewrite (trimStart_id (trimEnd (trimStart s)))
    by apply trimEnd_clean, trimStart_clean.
  apply trimEnd_idem.
Qed.

Lemma count_trimStart (c : ascii) (s : string) :
  count c (trimStart s) <= count c s.
Proof.
  induction s as [|d s IH]; cbn [trimStart]; [lia|].
  destruct (is_space d); [cbn [count]; lia | lia].
Qed.

Lemma count_trimEnd (c : ascii) (s : string) :
  count c (trimEnd s) <= count c s.
Proof.
  induction s as [|d s IH]; [cbn; lia|].
  rewrite trimEnd_cons. destruct (trimEnd s) as [|x t].
  - destruct (is_space d); cbn [count] in *; lia.
  - cbn [count] in *. lia.
Qed.

Lemma count_trim (c : ascii) (s : string) : count c (trim s) <= count c s.
Proof.
  unfold trim. pose proof (count_trimEnd c (trimStart s)).
  pose proof (count_trimStart c s). lia.
Qed.

(** A trimmed string that is not empty ends with a code unit that is not
    white space. *)
Lemma trimEnd_fixed_last (s : string) (c : ascii) :
  trimEnd s = s -> endsWith s (String c "") = true -> is_space c = false.
Proof.
  induction s as [|d s IH]; intros Ht He.
  - rewrite endsWith_empty in He. discriminate.
  - rewrite endsWith_cons in He. rewrite trimEnd_cons in Ht.
    destruct (trimEnd s) as [|x t] eqn:E.
    + destruct (is_space d) eqn:Ed; [discriminate|].
      injection Ht as <-. rewrite endsWith_empty in He.
      cbn [String.eqb orb] in He. rewrite orb_false_r in He.
      destruct (Ascii.eqb_spec d c) as [<-|]; [exact Ed | discriminate].
    + injection Ht as Ht. apply orb_true_iff in He as [He|He].
      * rewrite <- Ht in He. cbn [String.eqb] in He.
        destruct (Ascii.eqb d c); discriminate.
      * apply IH; [now rewrite Ht | exact He].
Qed.

Lemma trim_fixed (s : string) :
  trim s = s -> trimStart s = s /\ trimEnd s = s.
Proof.
  intros Ht.
  assert (Hs : starts_clean s)
    by (rewrite <- Ht; apply trimEnd_clean, trimStart_clean).
  rewrite <- Ht at 2. unfold trim in *.
  rewrite (trimStart_id s Hs) in *. now split.
Qed.

(** The segments of [split_lines] hold no line feed. *)
Lemma split_lines_segments (s : string) :
  Forall (fun line => count LF line = 0) (split_lines s).
Proof.
  assert (Hcons : forall c segs,
            Ascii.eqb c LF = false ->
            Forall (fun line => count LF line = 0) segs ->
            Forall (fun line => count LF line = 0) (cons_first c segs)).
  { intros c [|seg segs] Ec Hs; cbn [cons_first].
    - repeat constructor. cbn [count]. now rewrite Ec.
    - inversion Hs; subst. constructor; [|assumption].
      cbn [count]. now rewrite Ec. }
  assert (H : forall n s, String.length s <= n ->
            Forall (fun line => count LF line = 0) (split_lines s)).
  { intros n. induction n as [|n IH]; intros [|c t] Hn;
      try (repeat constructor; fail); cbn [String.length] in Hn; [lia|].
    cbn [split_lines]. destruct (Ascii.eqb c LF) eqn:Ec.
    - constructor; [reflexivity | apply IH; lia].
    - destruct t as [|d u].
      + apply Hcons; [exact Ec | apply IH; cbn; lia].
      + destruct (Ascii.eqb c CR && Ascii.eqb d LF).
        * constructor; [reflexivity | apply IH; cbn [String.length] in *; lia].
        * apply Hcons; [exact Ec | apply IH; lia]. }
  exact (H (String.length s) s (le_n _)).
Qed.

(** The test on the content at the start of [parseDocxIgnore] changes
    nothing: the empty content has no line that is kept. *)
Lemma parseDocxIgnore_patterns_of (content : string) :
  parseDocxIgnore content = patterns_of content.
Proof. unfold parseDocxIgnore. now destruct content. Qed.

(** The lines of a text whose lines are joined by line feeds. *)
Lemma split_lines_join (l : string) (ls : list string) :
  Forall (fun x => count LF x = 0 /\ endsWith x (String CR "") = false)
         (l :: ls) ->
  split_lines (join LF (l :: ls)) = l :: ls.
Proof.
  revert l. induction ls as [|l' ls IH]; intros l Hall.
  - inversion Hall as [|? ? [Hl _] _]; subst. cbn [join].
    now apply split_lines_last.
  - inversion Hall as [|? ? [Hl Hcr] Hrest]; subst.
    change (join LF (l :: l' :: ls)) with (l ++ String LF (join LF (l' :: ls))).
    rewrite split_lines_lf by assumption. now rewrite IH.
Qed.

End IgnoreFileFacts.

(** X1: every pattern that [parseDocxIgnore] returns is non-empty, is left
    unchanged by [trim] (it has no white space at either end) and holds no
    line feed. *)
Theorem parseDocxIgnore_patterns_trimmed (content : string) :
  Forall (fun p => p <> EmptyString /\ trim p = p /\ JsString.count LF p = 0)
         (parseDocxIgnore content).
Proof.
  rewrite IgnoreFileFacts.parseDocxIgnore_patterns_of. unfold patterns_of.
  apply Forall_forall. intros p Hin.
  apply in_map_iff in Hin as (line & <- & Hin).
  apply filter_In in Hin as [Hin Hk].
  unfold keeps_line in Hk. apply andb_true_iff in Hk as [Hk _].
  split; [|split].
  - intros E. rewrite E in Hk. discriminate.
  - apply IgnoreFileFacts.trim_idem.
  - pose proof (IgnoreFileFacts.split_lines_segments content) as Hs.
    rewrite Forall_forall in Hs. specialize (Hs line Hin).
    pose proof (IgnoreFileFacts.count_trim LF line). lia.
Qed.

Section IgnoreFileTheorems.
Import JsString JsStringFacts IgnoreFileFacts.
Local Open Scope string_scope.

Lemma patterns_of_unlines (closed : list (string * LineEnd)) (last : string) :
  Forall proper_line closed -> count LF last = 0 ->
  parseDocxIgnore (unlines closed last)
  = map trim (filter keeps_line (map fst closed ++ [last])%list).
Proof.
  intros Hc Hl. rewrite parseDocxIgnore_patterns_of. unfold patterns_of.
  now rewrite split_lines_unlines.
Qed.

(** X2: an ignore file written with carriage return and line feed gives
    the patterns of the same file written with line feeds. *)
Theorem parseDocxIgnore_line_endings (lines : list string) (last : string) :
  Forall (fun l => count LF l = 0 /\ endsWith l (String CR "") = false) lines ->
  count LF last = 0 ->
  parseDocxIgnore (unlines (map (fun l => (l, EndCRLF)) lines) last)
  = parseDocxIgnore (unlines (map (fun l => (l, EndLF)) lines) last).
Proof.
  intros Hl Hlast.
  rewrite !patterns_of_unlines; try assumption.
  - now rewrite !map_map.
  - apply Forall_forall. intros [l e] Hin.
    apply in_map_iff in Hin as (x & [= <- <-] & Hin).
    rewrite Forall_forall in Hl. destruct (Hl x Hin) as [H1 H2].
    split; [exact H1 | intros _; exact H2].
  - apply Forall_forall. intros [l e] Hin.
    apply in_map_iff in Hin as (x & [= <- <-] & Hin).
    rewrite Forall_forall in Hl. destruct (Hl x Hin) as [H1 H2].
    split; [exact H1 | discriminate].
Qed.

Lemma parseDocxIgnore_line_endings_witness :
  parseDocxIgnore
    ("# build output" ++ String CR (String LF
     ("dist/**" ++ String CR (String LF "  *.tmp  "))))
  = parseDocxIgnore
      ("# build output" ++ String LF ("dist/**" ++ String LF "  *.tmp  ")).
Proof.
  apply (parseDocxIgnore_line_endings ["# build output"; "dist/**"] "  *.tmp  ").
  - repeat constructor.
  - reflexivity.
Defined.

(** X3: writing patterns one per line and parsing the text gives the
    patterns back, when each pattern is non-empty, trimmed, free of line
    feeds and does not begin with [#]. *)
Theorem parseDocxIgnore_join (patterns : list string) :
  Forall (fun p => p <> "" /\ trim p = p /\ count LF p = 0 /\
                   startsWith p "#" = false) patterns ->
  parseDocxIgnore (join LF patterns) = patterns.
Proof.
  intros Hall. rewrite parseDocxIgnore_patterns_of. unfold patterns_of.
  destruct patterns as [|p ps]; [reflexivity|].
  rewrite split_lines_join.
  - induction Hall as [|q qs (Hne & Ht & _ & Hs) _ IH]; [reflexivity|].
    cbn [filter]. unfold keeps_line at 1. rewrite Ht, Hs.
    replace (truthy q) with true by (now destruct q).
    cbn [andb negb map]. now rewrite Ht, IH.
  - apply Forall_forall. intros q Hin.
    rewrite Forall_forall in Hall. destruct (Hall q Hin) as (_ & Ht & Hc & _).
    split; [exact Hc|].
    destruct (endsWith q (String CR "")) eqn:E; [|reflexivity].
    apply trim_fixed in Ht as [_ Ht].
    now apply (trimEnd_fixed_last q CR Ht) in E.
Qed.

Lemma parseDocxIgnore_join_witness :
  parseDocxIgnore ("docs/**" ++ String LF ("*.tmp" ++ String LF "notes.txt"))
  = ["docs/**"; "*.tmp"; "notes.txt"].
Proof.
  apply (parseDocxIgnore_join ["docs/**"; "*.tmp"; "notes.txt"]).
  repeat constructor; discriminate.
Defined.

Lemma trimStart_app_spaces (ws x : string) :
  trimStart ws = "" -> trimStart (ws ++ x) = trimStart x.
Proof.
  induction ws as [|c ws IH]; [reflexivity|].
  cbn [trimStart append]. destruct (is_space c); [exact IH | discriminate].
Qed.

Lemma trimEnd_keeps_first (c : ascii) (s : string) :
  is_space c = false -> exists t, trimEnd (String c s) = String c t.
Proof.
  intros Ec. rewrite trimEnd_cons. destruct (trimEnd s) as [|d t].
  - rewrite Ec. now exists "".
  - now exists (String d t).
Qed.

(** X4: a line is a comment only when [#] is its first code unit.  A line
    that begins with [#] gives no pattern; the same line behind white space
    gives a pattern, which begins with [#]. *)
Theorem parseDocxIgnore_indented_comment (ws rest : string) :
  ws <> "" -> trimStart ws = "" -> count LF ws = 0 -> count LF rest = 0 ->
  parseDocxIgnore ("#" ++ rest) = [] /\
  exists p, parseDocxIgnore (ws ++ "#" ++ rest) = [p] /\
            startsWith p "#" = true.
Proof.
  intros Hne Hws Hc Hr. rewrite !parseDocxIgnore_patterns_of. unfold patterns_of.
  split.
  - rewrite split_lines_last by exact Hr.
    cbn [filter]. unfold keeps_line.
    change (startsWith ("#" ++ rest) "#") with true.
    now rewrite andb_false_r.
  - rewrite split_lines_last
      by (rewrite count_app; cbn [append count]; cbn; lia).
    destruct (trimEnd_keeps_first "#" rest eq_refl) as [t Et].
    assert (Etrim : trim (ws ++ "#" ++ rest) = String "#" t).
    { unfold trim. rewrite trimStart_app_spaces by exact Hws. exact Et. }
    assert (Es : startsWith (ws ++ "#" ++ rest) "#" = false).
    { destruct ws as [|c ws]; [contradiction|].
      cbn [trimStart] in Hws. unfold startsWith. cbn [append strip_prefix].
      destruct (Ascii.eqb_spec "#" c) as [<-|]; [|reflexivity].
      discriminate. }
    exists (String "#" t). cbn [filter]. unfold keeps_line.
    rewrite Etrim, Es. cbn [truthy andb negb map]. rewrite Etrim.
    split; reflexivity.
Qed.

Lemma parseDocxIgnore_indented_comment_witness :
  parseDocxIgnore "# secrets" = [] /\
  exists p, parseDocxIgnore "  # secrets" = [p] /\ startsWith p "#" = true.
Proof.
  apply (parseDocxIgnore_indented_comment "  " " secrets");
    first [discriminate | reflexivity].
Defined.

End IgnoreFileTheorems.

(* ------------------------------------------------------------------ *)
(** ** More on the classifier, the parser and the paragraphs *)

Section MoreFacts.
Import JsString JsStringFacts.
Local Open Scope string_scope.

Lemma take_drop (n : nat) (s : string) : take n s ++ drop n s = s.
Proof.
  revert n; induction s as [|c s IH]; intros [|n]; cbn; try reflexivity.
  now rewrite IH.
Qed.

Lemma drop_app (a b : string) : drop (String.length a) (a ++ b) = b.
Proof. induction a as [|c a IH]; cbn; [now destruct b | exact IH]. Qed.

Lemma toLowerCase_length (s : string) :
  String.length (toLowerCase s) = String.length s.
Proof. induction s as [|c s IH]; cbn; [reflexivity | now rewrite IH]. Qed.

Lemma toLowerCase_drop (n : nat) (s : string) :
  toLowerCase (drop n s) = drop n (toLowerCase s).
Proof.
  revert n; induction s as [|c s IH]; intros [|n]; cbn; try reflexivity.
  apply IH.
Qed.

Lemma lower_unit_dot (c : ascii) :
  Ascii.eqb (lower_unit c) "." = Ascii.eqb c ".".
Proof.
  destruct c as [[] [] [] [] [] [] [] []]; vm_compute; reflexivity.
Qed.

Lemma count_dot_toLowerCase (s : string) :
  count "." (toLowerCase s) = count "." s.
Proof.
  induction s as [|c s IH]; [reflexivity|].
  cbn [toLowerCase count]. now rewrite lower_unit_dot, IH.
Qed.

Lemma binaryExtensions_dot :
  Forall (fun ext => 1 <= count "." ext) binaryExtensions.
Proof. repeat constructor. Qed.

End MoreFacts.

(** X5: [isBinaryFile] holds of a name exactly when the name ends, in
    whatever case, with one of the listed extensions; a name without a dot
    is never binary. *)
Theorem isBinaryFile_iff (name : string) :
  (isBinaryFile name = true
   <-> exists stem e, name = (stem ++ e)%string /\
                      In (JsString.toLowerCase e) binaryExtensions) /\
  (JsString.count "." name = 0 -> isBinaryFile name = false).
Proof.
  assert (Hiff : isBinaryFile name = true
                 <-> exists stem e, name = (stem ++ e)%string /\
                       In (JsString.toLowerCase e) binaryExtensions).
  { split.
    - unfold isBinaryFile. intros Hb.
      apply existsb_exists in Hb as (ext & Hin & He).
      apply JsStringFacts.endsWith_inv in He as [a Ha].
      exists (JsString.take (String.length a) name),
             (JsString.drop (String.length a) name).
      split; [symmetry; apply take_drop|].
      rewrite toLowerCase_drop, Ha, drop_app. exact Hin.
    - intros (stem & e & -> & Hin). now apply isBinaryFile_suffix. }
  split; [exact Hiff|].
  intros Hdot. apply not_true_is_false. intros Hb.
  apply Hiff in Hb as (stem & e & -> & Hin).
  pose proof (proj1 (Forall_forall _ _) binaryExtensions_dot _ Hin) as Hd.
  cbv beta in Hd. rewrite count_dot_toLowerCase in Hd.
  rewrite JsStringFacts.count_app in Hdot. lia.
Qed.

Lemma isBinaryFile_iff_witness :
  isBinaryFile "Makefile" = false.
Proof.
  apply (isBinaryFile_iff "Makefile"). reflexivity.
Defined.

Section MoreParse.
Import JsString JsStringFacts.
Local Open Scope string_scope.

(** X6: a URL with further path segments (a tree, an issue, a trailing
    slash) is parsed to its first two segments, whatever they are: the URL
    branch accepts both schemes, ignores what follows the second segment,
    and does not ask the segments to be non-empty. *)
Theorem parse_url_extra_segments (o r tail : string) :
  count "/" o = 0 -> count "/" r = 0 ->
  parseRepoIdentifier ("https://github.com/" ++ o ++ "/" ++ r ++ "/" ++ tail)
    = Ok (mkRef o r) /\
  parseRepoIdentifier ("http://github.com/" ++ o ++ "/" ++ r ++ "/" ++ tail)
    = Ok (mkRef o r) /\
  parseRepoIdentifier ("https://www.github.com/" ++ o ++ "/" ++ r ++ "/" ++ tail)
    = Ok (mkRef o r) /\
  parseRepoIdentifier ("http://www.github.com/" ++ o ++ "/" ++ r ++ "/" ++ tail)
    = Ok (mkRef o r).
Proof.
  intros Ho Hr.
  assert (Hcore : forall x, split "/" (strip_git_suffix
                    (o ++ String "/" (r ++ String "/" x)))
                  = o :: r :: split "/" (strip_git_suffix x)).
  { intros x. rewrite 2 strip_git_suffix_app_sep.
    now rewrite (split_app_sep "/" o _ Ho), (split_app_sep "/" r _ Hr). }
  repeat split; unfold parseRepoIdentifier.
  - assert (Hi : includes ("https://github.com/" ++ o ++ "/" ++ r ++ "/" ++ tail)
                     "github.com" = true)
      by exact (includes_app "https://" "github.com"
                  (String "/" (o ++ "/" ++ r ++ "/" ++ tail))).
    rewrite Hi.
    change (strip_url_prefix
              ("https://github.com/" ++ o ++ "/" ++ r ++ "/" ++ tail))
      with (o ++ String "/" (r ++ String "/" tail)).
    now rewrite Hcore.
  - assert (Hi : includes ("http://github.com/" ++ o ++ "/" ++ r ++ "/" ++ tail)
                     "github.com" = true)
      by exact (includes_app "http://" "github.com"
                  (String "/" (o ++ "/" ++ r ++ "/" ++ tail))).
    rewrite Hi.
    change (strip_url_prefix
              ("http://github.com/" ++ o ++ "/" ++ r ++ "/" ++ tail))
      with (o ++ String "/" (r ++ String "/" tail)).
    now rewrite Hcore.
  - assert (Hi : includes ("https://www.github.com/" ++ o ++ "/" ++ r ++ "/" ++ tail)
                     "github.com" = true)
      by exact (includes_app "https://www." "github.com"
                  (String "/" (o ++ "/" ++ r ++ "/" ++ tail))).
    rewrite Hi.
    change (strip_url_prefix
              ("https://www.github.com/" ++ o ++ "/" ++ r ++ "/" ++ tail))
      with (o ++ String "/" (r ++ String "/" tail)).
    now rewrite Hcore.
  - assert (Hi : includes ("http://www.github.com/" ++ o ++ "/" ++ r ++ "/" ++ tail)
                     "github.com" = true)
      by exact (includes_app "http://www." "github.com"
                  (String "/" (o ++ "/" ++ r ++ "/" ++ tail))).
    rewrite Hi.
    change (strip_url_prefix
              ("http://www.github.com/" ++ o ++ "/" ++ r ++ "/" ++ tail))
      with (o ++ String "/" (r ++ String "/" tail)).
    now rewrite Hcore.
Qed.

Lemma parse_url_extra_segments_witness :
  parseRepoIdentifier "https://github.com/microsoft/vscode/tree/main"
  = Ok (mkRef "microsoft" "vscode").
Proof.
  apply (parse_url_extra_segments "microsoft" "vscode" "tree/main");
    reflexivity.
Defined.

Lemma remove_first_unfold (pat s : string) :
  remove_first pat s
  = match strip_prefix pat s with
    | Some r => r
    | None =>
        match s with
        | "" => ""
        | String c s' => String c (remove_first pat s')
        end
    end.
Proof. destruct s; reflexivity. Qed.

Lemma remove_first_absent (pat s : string) :
  includes s pat = false -> remove_first pat s = s.
Proof.
  induction s as [|c s IH]; intros Hi; rewrite remove_first_unfold;
    cbn [includes] in Hi; unfold startsWith in Hi;
    destruct (strip_prefix pat _); try discriminate.
  - reflexivity.
  - cbn [orb] in Hi. now rewrite IH.
Qed.

(** X7: [cleanPath] gives the path below the archive root: an entry name
    that begins with [repo-branch/] loses that prefix and nothing else, and
    an entry name in which [repo-branch/] does not occur is its own clean
    path. *)
Theorem cleanPath_root (repo_name branch : string) (entry : ZipEntry) :
  (forall rel, entryName entry = repo_name ++ "-" ++ branch ++ "/" ++ rel ->
               cleanPath repo_name branch entry = rel) /\
  (includes (entryName entry) (repo_name ++ "-" ++ branch ++ "/") = false ->
   cleanPath repo_name branch entry = entryName entry).
Proof.
  split.
  - intros rel E. unfold cleanPath. rewrite E.
    replace (repo_name ++ "-" ++ branch ++ "/" ++ rel)
      with ((repo_name ++ "-" ++ branch ++ "/") ++ rel)
      by (now rewrite !app_assoc).
    now rewrite remove_first_unfold, strip_prefix_app.
  - intros Hi. now apply remove_first_absent.
Qed.

Lemma cleanPath_root_witness :
  cleanPath "repo" "main" (mkEntry "repo-main/src/index.js" false (Ok []))
  = "src/index.js".
Proof.
  apply (cleanPath_root "repo" "main"
           (mkEntry "repo-main/src/index.js" false (Ok []))).
  reflexivity.
Defined.

Lemma split_lines_length (s : string) :
  List.length (split_lines s) = S (count LF s).
Proof.
  assert (Hcons : forall c segs,
            segs <> [] -> List.length (cons_first c segs) = List.length segs)
    by (intros c [|seg segs] Hn; [contradiction | reflexivity]).
  assert (Hne : forall t, split_lines t <> []).
  { assert (Hc : forall c segs, cons_first c segs <> [])
      by (intros c [|seg segs]; discriminate).
    intros [|c t]; [discriminate|]. cbn [split_lines].
    destruct (Ascii.eqb c LF); [discriminate|].
    destruct t as [|d u]; [apply Hc|].
    destruct (Ascii.eqb c CR && Ascii.eqb d LF); [discriminate | apply Hc]. }
  assert (H : forall n t, String.length t <= n ->
            List.length (split_lines t) = S (count LF t)).
  { intros n. induction n as [|n IH]; intros [|c t] Hn;
      try reflexivity; cbn [String.length] in Hn; [lia|].
    cbn [split_lines count]. destruct (Ascii.eqb c LF) eqn:Ec.
    - cbn [List.length]. rewrite IH by lia. reflexivity.
    - destruct t as [|d u].
      + reflexivity.
      + destruct (Ascii.eqb c CR && Ascii.eqb d LF) eqn:Ecr.
        * apply andb_true_iff in Ecr as [_ Ed].
          cbn [List.length count]. rewrite Ed.
          rewrite IH by (cbn [String.length] in Hn; lia). reflexivity.
        * rewrite Hcons by apply Hne. rewrite IH by lia. reflexivity. }
  exact (H (String.length s) s (le_n _)).
Qed.

End MoreParse.

(** X8: [addFileContent] keeps the paragraphs it is given and adds one
    paragraph for each line feed of the content and one more; no paragraph
    it adds has an empty text or a heading. *)
Theorem addFileContent_count (content : string) (children : list Paragraph) :
  exists added,
    addFileContent content children = children ++ added /\
    List.length added = S (JsString.count LF content) /\
    Forall (fun p => text p <> EmptyString /\ heading p = None) added.
Proof.
  exists (map (fun line => textParagraph (line_or_space line))
              (split_lines content)).
  split; [apply addFileContent_map|]. split.
  - now rewrite length_map, split_lines_length.
  - apply Forall_forall. intros p Hin.
    apply in_map_iff in Hin as (line & <- & _).
    split; [|reflexivity]. destruct line; discriminate.
Qed.

(** X9: a path that the patterns of one list exclude stays excluded when
    further patterns are joined behind them, whatever these are, even
    patterns that the matcher refuses: joining further sources to the
    default patterns never brings back a path that the defaults exclude.
    And the path is excluded by every list that holds those patterns, in
    whatever order, provided the matcher answers for the path and every
    pattern of that list. *)
Theorem shouldIgnorePath_monotone `{Libraries}
  (path : string) (patterns : list string) :
  shouldIgnorePath path patterns = Ok true ->
  (forall custom extra,
     shouldIgnorePath path (allIgnorePatterns patterns custom extra)
     = Ok true) /\
  (forall more,
     incl patterns more -> Forall (answers path) more ->
     shouldIgnorePath path more = Ok true).
Proof.
  intros Hp. split.
  - intros custom extra. unfold allIgnorePatterns.
    now rewrite shouldIgnorePath_app, Hp.
  - intros more Hincl Hall.
    apply shouldIgnorePath_true in Hp as (p & Hin & Hm).
    rewrite shouldIgnorePath_answers by exact Hall. f_equal.
    apply existsb_matches. exists p. split; [now apply Hincl | exact Hm].
Qed.

(** A dependency stays excluded behind a pattern that the matcher
    refuses. *)
Lemma shouldIgnorePath_monotone_witness :
  shouldIgnorePath (H := sampleLibraries) "node_modules/x/index.js"
    (allIgnorePatterns getDefaultIgnorePatterns ["src/**"] [overlongPattern])
  = Ok true.
Proof.
  exact (proj1 (shouldIgnorePath_monotone (H := sampleLibraries)
                  "node_modules/x/index.js" getDefaultIgnorePatterns eq_refl)
           ["src/**"%string] [overlongPattern]).
Defined.

(* ------------------------------------------------------------------ *)
(** ** What the entry loop builds *)

Section WalkStructure.
Context `{Libraries}.
Variables (repo_name branch : string) (ignorePatterns : list string).
Local Open Scope N_scope.

Local Abbreviation step := (processEntry repo_name branch ignorePatterns).
Local Abbreviation walk := (processEntries repo_name branch ignorePatterns).
Ltac run_walk :=
  cbv beta iota zeta delta
    [processFile try_catch bind lift call_getData when push write_console
     modify get ret incr_processedFiles incr_skippedFilesByIgnore
     incr_skippedFilesByBinary incr_skippedFilesByValidation
     incr_skippedFilesByError];
  cbn [children processedFiles skippedFilesByIgnore skippedFilesByBinary
       skippedFilesByValidation skippedFilesByError console dataCalls
       negb fst snd andb].

Lemma multiples_succ (m k : N) :
  multiples m (k + 1) = (multiples m k ++ [m * (k + 1)])%list.
Proof.
  unfold multiples.
  rewrite N2Nat.inj_add. change (N.to_nat 1) with 1%nat.
  rewrite Nat.add_1_r.
  rewrite seq_S, map_app. cbn [map]. do 2 f_equal.
  rewrite Nat2N.inj_add, N2Nat.id. change (N.of_nat 1) with 1. now rewrite N.add_comm.
Qed.

Lemma processedLogs_app (a b : list ConsoleEvent) :
  processedLogs (a ++ b) = (processedLogs a ++ processedLogs b)%list.
Proof. apply flat_map_app. Qed.

Lemma ignoredLogs_app (a b : list ConsoleEvent) :
  ignoredLogs (a ++ b) = (ignoredLogs a ++ ignoredLogs b)%list.
Proof. apply flat_map_app. Qed.

(** Division of [p] and of [p + 1] by a constant [m], as equations that
    [lia] can use. *)
Ltac div_step p m :=
  let A := fresh in let B := fresh in let C := fresh in let D := fresh in
  pose proof (N.div_mod p m ltac:(lia)) as A;
  pose proof (N.mod_lt p m ltac:(lia)) as B;
  pose proof (N.div_mod (p + 1) m ltac:(lia)) as C;
  pose proof (N.mod_lt (p + 1) m ltac:(lia)) as D;
  generalize dependent (p / m); generalize dependent (p mod m);
  generalize dependent ((p + 1) / m); generalize dependent ((p + 1) mod m);
  intros; lia.

Lemma div_step_25 (p : N) :
  ((p + 1) mod 25 = 0 ->
   (p + 1) / 25 = p / 25 + 1 /\ 25 * (p / 25 + 1) = p + 1) /\
  ((p + 1) mod 25 <> 0 -> (p + 1) / 25 = p / 25).
Proof. split; [intros E; split | intros E]; div_step p 25. Qed.

Lemma div_step_50 (p : N) :
  ((p + 1) mod 50 = 0 ->
   (p + 1) / 50 = p / 50 + 1 /\ 50 * (p / 50 + 1) = p + 1) /\
  ((p + 1) mod 50 <> 0 -> (p + 1) / 50 = p / 50).
Proof. split; [intros E; split | intros E]; div_step p 50. Qed.

Lemma progress_next_25 (p : N) (logs : list N) :
  logs = multiples 25 (p / 25) ->
  (if (p + 1) mod 25 =? 0 then logs ++ [p + 1] else logs)%list
  = multiples 25 ((p + 1) / 25).
Proof.
  intros ->. destruct (div_step_25 p) as [Hz Hnz].
  destruct (N.eqb_spec ((p + 1) mod 25) 0) as [E|E].
  - destruct (Hz E) as [-> <-]. now rewrite multiples_succ.
  - now rewrite (Hnz E).
Qed.

Lemma progress_next_50 (p : N) (logs : list N) :
  logs = multiples 50 (p / 50) ->
  (if (p + 1) mod 50 =? 0 then logs ++ [p + 1] else logs)%list
  = multiples 50 ((p + 1) / 50).
Proof.
  intros ->. destruct (div_step_50 p) as [Hz Hnz].
  destruct (N.eqb_spec ((p + 1) mod 50) 0) as [E|E].
  - destruct (Hz E) as [-> <-]. now rewrite multiples_succ.
  - now rewrite (Hnz E).
Qed.

(** One turn of the loop keeps the progress messages in step with the
    counters, whether it returns or throws. *)
Lemma processEntry_progress (entry : ZipEntry) (st : WalkState) :
  progress_logged st -> progress_logged (snd (step entry st)).
Proof.
  intros [Hp Hi]. unfold processEntry, progress_logged. cbv zeta.
  destruct (isDirectory entry); cbn [negb].
  { now split. }
  destruct (shouldIgnorePath _ _) as [[]|e].
  - run_walk.
    pose proof (progress_next_50 (skippedFilesByIgnore st) _ Hi) as Hn.
    destruct ((skippedFilesByIgnore st + 1) mod 50 =? 0);
      cbn [snd console processedFiles skippedFilesByIgnore];
      rewrite ?processedLogs_app, ?ignoredLogs_app;
      cbn [processedLogs ignoredLogs flat_map List.app];
      rewrite ?List.app_nil_r; now split.
  - destruct (isBinaryFile _).
    { run_walk. now split. }
    run_walk. destruct (getData entry) as [data|err].
    + destruct (isValidTextContent (toString_utf8 data)); cbn [negb]; run_walk.
      * pose proof (progress_next_25 (processedFiles st) _ Hp) as Hn.
        destruct ((processedFiles st + 1) mod 25 =? 0);
          cbn [snd console processedFiles skippedFilesByIgnore];
          rewrite ?processedLogs_app, ?ignoredLogs_app;
          cbn [processedLogs ignoredLogs flat_map List.app];
          rewrite ?List.app_nil_r; now split.
      * now split.
    + cbn [snd console processedFiles skippedFilesByIgnore].
      rewrite processedLogs_app, ignoredLogs_app.
      cbn [processedLogs ignoredLogs flat_map List.app].
      rewrite !List.app_nil_r. now split.
  - run_walk. now split.
Qed.

(** One turn of the loop adds to the console and takes nothing from the
    counts of processed and ignored files. *)
Lemma processEntry_console (entry : ZipEntry) (st : WalkState) :
  (exists added, console (snd (step entry st)) = (console st ++ added)%list) /\
  processedFiles st <= processedFiles (snd (step entry st)) /\
  skippedFilesByIgnore st <= skippedFilesByIgnore (snd (step entry st)).
Proof.
  unfold processEntry. cbv zeta.
  destruct (isDirectory entry); cbn [negb].
  { cbn [snd ret]. split; [exists []; now rewrite List.app_nil_r | lia]. }
  destruct (shouldIgnorePath _ _) as [[]|e].
  - run_walk.
    destruct ((skippedFilesByIgnore st + 1) mod 50 =? 0);
      cbn [snd console processedFiles skippedFilesByIgnore];
      (split; [|lia]);
      [eexists; reflexivity | exists []; now rewrite List.app_nil_r].
  - destruct (isBinaryFile _).
    { run_walk. split; [exists []; now rewrite List.app_nil_r | lia]. }
    run_walk. destruct (getData entry) as [data|err].
    + destruct (isValidTextContent (toString_utf8 data)); cbn [negb]; run_walk.
      * destruct ((processedFiles st + 1) mod 25 =? 0);
          cbn [snd console processedFiles skippedFilesByIgnore];
          (split; [|lia]);
          [eexists; reflexivity | exists []; now rewrite List.app_nil_r].
      * split; [exists []; now rewrite List.app_nil_r | lia].
    + cbn [snd console processedFiles skippedFilesByIgnore].
      split; [eexists; reflexivity | lia].
  - run_walk. split; [exists []; now rewrite List.app_nil_r | lia].
Qed.

End WalkStructure.

(** X10: when the ignore check returns for every file, the loop returns
    and has added to the document, in the order of the archive, the
    heading, the lines and the separator of each file whose verdict is
    [Included], and nothing else; it keeps the paragraphs it starts with;
    and it has asked for the content of exactly the files that the ignore
    check lets through and whose extension is not binary, once each, in
    order.  When the loop throws, the same holds of the entries before the
    file whose ignore check has thrown. *)
Theorem walk_document `{Libraries}
  (repo_name branch : string) (ignorePatterns : list string)
  (zipEntries : list ZipEntry) (st : WalkState) :
  (forallb (checkable repo_name branch ignorePatterns) zipEntries = true ->
   exists st',
     processEntries repo_name branch ignorePatterns zipEntries st
     = (Ok tt, st')
     /\ children st'
        = children st
          ++ flat_map (entrySection repo_name branch ignorePatterns) zipEntries
     /\ dataCalls st'
        = dataCalls st
          ++ map entryName
               (filter (isRead repo_name branch ignorePatterns) zipEntries))
  /\ (forall e st',
        processEntries repo_name branch ignorePatterns zipEntries st
        = (Throw e, st') ->
        exists done entry rest,
          zipEntries = done ++ entry :: rest /\
          isDirectory entry = false /\
          shouldIgnorePath (cleanPath repo_name branch entry) ignorePatterns
          = Throw e /\
          children st'
          = children st
            ++ flat_map (entrySection repo_name branch ignorePatterns) done /\
          dataCalls st'
          = dataCalls st
            ++ map entryName
                 (filter (isRead repo_name branch ignorePatterns) done)).
Proof.
  split.
  - intros Hall.
    destruct (processEntries_returns repo_name branch ignorePatterns
                zipEntries st Hall) as (st' & E & _ & Hc & Hd & _).
    exists st'. now repeat split.
  - intros e st' E.
    destruct (processEntries_throws repo_name branch ignorePatterns
                zipEntries st st' e E)
      as (done & entry & rest & -> & _ & Hd & Ht & _ & Hc & Hdc & _).
    exists done, entry, rest. now repeat split.
Qed.

(** The end-to-end scenario: the document gets the section of the source
    file, and only the content of the source file is asked for. *)
Lemma walk_document_witness :
  exists st',
    processEntries (H := sampleLibraries) "repo" "main"
      getDefaultIgnorePatterns sampleArchive (initialState [])
    = (Ok tt, st') /\
    map text (children st')
    = [ "src/index.js"; "const x = 1;"; "module.exports = x;"; " ";
        "----------------------------------------------------------------------"
      ]%string /\
    dataCalls st' = ["repo-main/src/index.js"%string].
Proof.
  destruct (walk_document (H := sampleLibraries) "repo" "main"
              getDefaultIgnorePatterns sampleArchive (initialState []))
    as (Hret & _).
  destruct (Hret eq_refl) as (st' & E & Hc & Hd).
  exists st'. split; [exact E|]. split; [now rewrite Hc | exact Hd].
Defined.

(** X11: the loop reports its progress at every 25th processed file and at
    every 50th ignored file, and at no other count: if the console shows
    exactly the multiples of 25 up to the processed count and the multiples
    of 50 up to the ignored count, in order, it still does when the loop
    ends, whether it returns or throws; and the loop only adds to the
    console and to the two counts. *)
Theorem walk_progress_logged `{Libraries}
  (repo_name branch : string) (ignorePatterns : list string)
  (zipEntries : list ZipEntry) (st : WalkState) :
  progress_logged st ->
  let st' :=
    snd (processEntries repo_name branch ignorePatterns zipEntries st) in
  progress_logged st' /\
  (exists added, console st' = console st ++ added) /\
  (processedFiles st <= processedFiles st')%N /\
  (skippedFilesByIgnore st <= skippedFilesByIgnore st')%N.
Proof.
  cbv zeta. revert st.
  induction zipEntries as [|entry rest IH]; intros st Hst.
  - cbn [processEntries snd ret]. split; [exact Hst|].
    split; [exists []; now rewrite List.app_nil_r | lia].
  - pose proof (processEntry_progress repo_name branch ignorePatterns
                  entry st Hst) as H1.
    pose proof (processEntry_console repo_name branch ignorePatterns
                  entry st) as ([a1 Ha1] & Hp1 & Hi1).
    cbn [processEntries]. unfold bind.
    destruct (processEntry repo_name branch ignorePatterns entry st)
      as [[[]|e] st1]; cbn [snd] in *.
    + destruct (IH st1 H1) as (H2 & [a2 Ha2] & Hp2 & Hi2).
      split; [exact H2|]. split; [|lia].
      exists (a1 ++ a2). now rewrite Ha2, Ha1, List.app_assoc.
    + split; [exact H1|]. split; [now exists a1 | lia].
Qed.

(* ------------------------------------------------------------------ *)
(** ** [repo2docx] *)

Ltac run_eval :=
  cbv beta iota zeta delta [rbind rret rthrow rtry call say];
  cbn [calls out].

Lemma walk_progress_logged_witness :
  progress_logged
    (snd (processEntries (H := sampleLibraries) "repo" "main"
            getDefaultIgnorePatterns (repeat sourceEntry 26)
            (initialState []))).
Proof.
  apply (walk_progress_logged (H := sampleLibraries) "repo" "main"
           getDefaultIgnorePatterns (repeat sourceEntry 26) (initialState [])).
  split; reflexivity.
Defined.

Example walk_logs_25th_file :
  console (snd (processEntries (H := sampleLibraries) "repo" "main"
                  getDefaultIgnorePatterns (repeat sourceEntry 26)
                  (initialState [])))
  = [LogProcessed 25].
Proof. vm_compute. reflexivity. Qed.

Section Repo2docxFacts.
Context `{Libraries}.

(** The loop inside [repo2docx], when every entry gets past the ignore
    check. *)
Lemma runLoop_spec (repo_name branch : string) (ignorePatterns : list string)
  (children0 : list Paragraph) (zipEntries : list ZipEntry) (st : RunState) :
  forallb (checkable repo_name branch ignorePatterns) zipEntries = true ->
  exists walked,
    runLoop repo_name branch ignorePatterns children0 zipEntries st
    = (Ok walked,
       mkRun (calls st ++ map CallGetData (dataCalls walked))
             (out st ++ map LoopMessage (console walked))) /\
    children walked
    = children0
      ++ flat_map (entrySection repo_name branch ignorePatterns) zipEntries.
Proof.
  intros Hall.
  destruct (processEntries_returns repo_name branch ignorePatterns zipEntries
              (initialState children0) Hall) as (walked & E & _ & Hc & _).
  exists walked. split; [|exact Hc].
  unfold runLoop. now rewrite E.
Qed.


(** The loop inside [repo2docx] throws when an entry does not get past the
    ignore check. *)
Lemma runLoop_throws (repo_name branch : string)
  (ignorePatterns : list string) (children0 : list Paragraph)
  (zipEntries : list ZipEntry) (st : RunState) :
  forallb (checkable repo_name branch ignorePatterns) zipEntries = false ->
  exists e walked,
    runLoop repo_name branch ignorePatterns children0 zipEntries st
    = (Throw e,
       mkRun (calls st ++ map CallGetData (dataCalls walked))
             (out st ++ map LoopMessage (console walked))) /\
    exists entry,
      In entry zipEntries /\ isDirectory entry = false /\
      shouldIgnorePath (cleanPath repo_name branch entry) ignorePatterns
      = Throw e.
Proof.
  intros Hall. unfold runLoop.
  destruct (processEntries_prefix repo_name branch ignorePatterns zipEntries
              (initialState children0)) as (done & rest & Eq & Hdone & _ & Hr).
  destruct (processEntries repo_name branch ignorePatterns zipEntries
              (initialState children0)) as [[[]|e] walked] eqn:E.
  - rewrite (Hr eq_refl), List.app_nil_r in Eq. subst done. congruence.
  - exists e, walked. split; [reflexivity|].
    destruct (processEntries_throws repo_name branch ignorePatterns
                zipEntries _ _ e E)
      as (done' & entry & rest' & -> & _ & Hd & Ht & _).
    exists entry. split; [apply in_or_app; right; now left|].
    now split.
Qed.

Lemma forallb_getData_calls (names : list string) :
  forallb (fun c => negb (is_output_call c)) (map CallGetData names) = true.
Proof. induction names as [|n ns IH]; [reflexivity | exact IH]. Qed.

End Repo2docxFacts.

(** X12: when the hosting service refuses the repository (it does not
    exist, or the token does not open it), [repo2docx] reports the error on
    the console and throws it again, having made that one call: nothing is
    downloaded. *)
Theorem repo2docx_access_failure `{Libraries} (world : World)
  (repoIdentifier : string) (outputPath : option string) (options : Options)
  (ref : RepositoryRef) (e : Error) (st : RunState) :
  parseRepoIdentifier repoIdentifier = Ok ref ->
  repos_get world (tokenOf world options) (owner ref) (repo ref) = Throw e ->
  repo2docx world repoIdentifier outputPath options st
  = (Throw e,
     mkRun (calls st
            ++ [CallReposGet (tokenOf world options) (owner ref) (repo ref)])
           (out st ++ [ErrorCreating e])).
Proof.
  intros Hp Hr. unfold repo2docx. rewrite Hp. run_eval. rewrite Hr.
  reflexivity.
Qed.

(** X13: when the archive holds an ignore file whose content cannot be
    read, [repo2docx] stops there: the error is reported and thrown again,
    no entry of the archive is processed and no document is built.  A
    failure on the ignore file is not set aside the way a failure on any
    other file is. *)
Theorem repo2docx_ignore_file_failure `{Libraries} (world : World)
  (repoIdentifier : string) (outputPath : option string) (options : Options)
  (ref : RepositoryRef) (data : Buffer) (zipEntries : list ZipEntry)
  (docxIgnoreEntry : ZipEntry) (e : Error) (st : RunState) :
  parseRepoIdentifier repoIdentifier = Ok ref ->
  repos_get world (tokenOf world options) (owner ref) (repo ref) = Ok tt ->
  axios_get world (zipUrl ref (branchOf options))
    (authorizationOf (tokenOf world options)) = Ok data ->
  unzip world data = Ok zipEntries ->
  findDocxIgnore (repo ref) (branchOf options) zipEntries
  = Some docxIgnoreEntry ->
  getData docxIgnoreEntry = Throw e ->
  repo2docx world repoIdentifier outputPath options st
  = (Throw e,
     mkRun (calls st
            ++ [ CallReposGet (tokenOf world options) (owner ref) (repo ref);
                 CallAxiosGet (zipUrl ref (branchOf options))
                   (authorizationOf (tokenOf world options));
                 CallUnzip data;
                 CallGetData (entryName docxIgnoreEntry) ])
           (out st
            ++ [ LogDownloading (owner ref) (repo ref) (branchOf options);
                 LogExtracting; ErrorCreating e ])).
Proof.
  intros Hp Hr Ha Hu Hf Hg. unfold repo2docx, readCustomPatterns.
  rewrite Hp. run_eval. rewrite Hr. run_eval. rewrite Ha. run_eval.
  rewrite Hu. run_eval. rewrite Hf. run_eval. rewrite Hg. run_eval.
  now rewrite <- !List.app_assoc.
Qed.

(** X14: when every call succeeds and the ignore check returns for every
    file of the archive, [repo2docx] returns the output path (the one
    given, or [owner-repo.docx] when none or an empty one is given); the
    document it hands to the packer holds the title page and then, in the
    order of the archive, the sections of the files that the default
    patterns, the patterns of the repository's ignore file and the patterns
    of the options let through and that are valid text; and its last call
    writes the packed document to the path it returns. *)
Theorem repo2docx_success `{Libraries} (world : World)
  (repoIdentifier : string) (outputPath : option string) (options : Options)
  (ref : RepositoryRef) (data buffer : Buffer) (zipEntries : list ZipEntry)
  (st : RunState) :
  let branch := branchOf options in
  let all :=
    allIgnorePatterns getDefaultIgnorePatterns
      (customPatternsOf (repo ref) branch zipEntries) (ignorePathsOf options) in
  let doc :=
    mkDocument "repo2docx"
      (owner ref ++ "/" ++ repo ref ++ " Repository")%string
      ("Generated from GitHub repository " ++ owner ref ++ "/" ++ repo ref)%string
      ([ mkParagraph (Some HEADING_1)
           ("Repository: " ++ owner ref ++ "/" ++ repo ref)%string
           (Some (mkSpacing None (Some 400%N))) false None;
         mkParagraph None ("Branch: " ++ branch)%string
           (Some (mkSpacing None (Some 200%N))) false None;
         mkParagraph None ("Generated on: " ++ date_now world)%string
           (Some (mkSpacing None (Some 800%N))) false None ]
       ++ flat_map (entrySection (repo ref) branch all) zipEntries) in
  let path :=
    match outputPath with
    | Some (String c p) => String c p
    | _ => (owner ref ++ "-" ++ repo ref ++ ".docx")%string
    end in
  parseRepoIdentifier repoIdentifier = Ok ref ->
  repos_get world (tokenOf world options) (owner ref) (repo ref) = Ok tt ->
  axios_get world (zipUrl ref branch)
    (authorizationOf (tokenOf world options)) = Ok data ->
  unzip world data = Ok zipEntries ->
  (forall entry, findDocxIgnore (repo ref) branch zipEntries = Some entry ->
                 exists content, getData entry = Ok content) ->
  forallb (checkable (repo ref) branch all) zipEntries = true ->
  toBuffer world doc = Ok buffer ->
  writeFileSync world path buffer = Ok tt ->
  exists st',
    repo2docx world repoIdentifier outputPath options st = (Ok path, st') /\
    (exists before,
       calls st' = before ++ [CallToBuffer doc; CallWriteFile path buffer]) /\
    last (out st') PrintUsage = LogSuccess path.
Proof.
  intros branch all doc path Hp Hr Ha Hu Hd Hall Hb Hw.
  assert (Epath : outputPathOf ref outputPath = path)
    by (unfold outputPathOf, path; now destruct outputPath as [[|c p]|]).
  unfold repo2docx. rewrite Hp. run_eval. rewrite Hr. run_eval.
  fold branch. rewrite Ha. run_eval. rewrite Hu. run_eval.
  assert (Hcustom : forall st0, exists st1,
            readCustomPatterns (repo ref) branch zipEntries st0
            = (Ok (customPatternsOf (repo ref) branch zipEntries), st1)).
  { intros st0. unfold readCustomPatterns, customPatternsOf.
    destruct (findDocxIgnore (repo ref) branch zipEntries) as [entry|] eqn:Ef.
    - destruct (Hd entry eq_refl) as [content Hc]. run_eval. rewrite Hc.
      eexists. reflexivity.
    - eexists. reflexivity. }
  match goal with
  | |- context [readCustomPatterns _ _ _ ?s] =>
      destruct (Hcustom s) as [st1 E1]; rewrite E1
  end.
  run_eval. fold all.
  match goal with
  | |- context [runLoop ?r ?b ?a ?c ?z ?s] =>
      destruct (runLoop_spec r b a c z s Hall) as (walked & E2 & Hc2);
      rewrite E2
  end.
  run_eval. rewrite Hc2.
  change (documentOf ref _) with doc.
  rewrite Hb. run_eval.
  rewrite Epath, Hw.
  eexists. split; [reflexivity|]. cbn [calls out]. split.
  - eexists. rewrite <- List.app_assoc. reflexivity.
  - apply last_last.
Qed.

Lemma repo2docx_access_failure_witness :
  repo2docx (H := sampleLibraries) refusingWorld "owner/repo" None
    (mkOptions (Some "secret") None None) freshRun
  = (Throw (mkError "Not Found"),
     mkRun [CallReposGet (Some "secret") "owner" "repo"]
           [ErrorCreating (mkError "Not Found")]).
Proof.
  apply (repo2docx_access_failure (H := sampleLibraries) refusingWorld
           "owner/repo" None (mkOptions (Some "secret") None None)
           (mkRef "owner" "repo") (mkError "Not Found") freshRun);
    reflexivity.
Defined.

Lemma repo2docx_ignore_file_failure_witness :
  fst (repo2docx (H := sampleLibraries) (sampleWorld brokenIgnoreArchive)
         "owner/repo" None (mkOptions None None None) freshRun)
  = Throw (mkError "Invalid CEN header").
Proof.
  rewrite (repo2docx_ignore_file_failure (H := sampleLibraries)
             (sampleWorld brokenIgnoreArchive) "owner/repo" None
             (mkOptions None None None) (mkRef "owner" "repo") []
             brokenIgnoreArchive
             (mkEntry "repo-main/.docxignore" false
                (Throw (mkError "Invalid CEN header")))
             (mkError "Invalid CEN header") freshRun);
    reflexivity.
Defined.

Lemma repo2docx_success_witness :
  exists st',
    repo2docx (H := sampleLibraries) (sampleWorld sampleArchive)
      "https://github.com/owner/repo.git" None (mkOptions None None None)
      freshRun
    = (Ok "owner-repo.docx", st') /\
    last (out st') PrintUsage = LogSuccess "owner-repo.docx".
Proof.
  destruct (repo2docx_success (H := sampleLibraries)
              (sampleWorld sampleArchive) "https://github.com/owner/repo.git"
              None (mkOptions None None None) (mkRef "owner" "repo") [] []
              sampleArchive freshRun)
    as (st' & E & _ & Hl); try reflexivity.
  - intros entry Hf. vm_compute in Hf. discriminate.
  - exists st'. split; [exact E | exact Hl].
Defined.

(** X24: when the archive is fetched and opened but the ignore check
    throws for a file of the archive (the matcher refuses a pattern, which
    the ignore file of the repository or the options can bring in),
    [repo2docx] stops: it reports the error that the ignore check has
    thrown and throws it again, and it neither packs nor writes a
    document.  The ignore check is not inside the [try] block that sets a
    failing file aside. *)
Theorem repo2docx_ignore_check_failure `{Libraries} (world : World)
  (repoIdentifier : string) (outputPath : option string) (options : Options)
  (ref : RepositoryRef) (data : Buffer) (zipEntries : list ZipEntry)
  (st : RunState) :
  let branch := branchOf options in
  let all :=
    allIgnorePatterns getDefaultIgnorePatterns
      (customPatternsOf (repo ref) branch zipEntries) (ignorePathsOf options) in
  parseRepoIdentifier repoIdentifier = Ok ref ->
  repos_get world (tokenOf world options) (owner ref) (repo ref) = Ok tt ->
  axios_get world (zipUrl ref branch)
    (authorizationOf (tokenOf world options)) = Ok data ->
  unzip world data = Ok zipEntries ->
  (forall entry, findDocxIgnore (repo ref) branch zipEntries = Some entry ->
                 exists content, getData entry = Ok content) ->
  forallb (checkable (repo ref) branch all) zipEntries = false ->
  exists e st',
    repo2docx world repoIdentifier outputPath options st = (Throw e, st') /\
    (exists entry,
       In entry zipEntries /\ isDirectory entry = false /\
       shouldIgnorePath (cleanPath (repo ref) branch entry) all = Throw e) /\
    last (out st') PrintUsage = ErrorCreating e /\
    exists added,
      calls st' = calls st ++ added /\
      forallb (fun c => negb (is_output_call c)) added = true.
Proof.
  intros branch all Hp Hr Ha Hu Hd Hall.
  unfold repo2docx. rewrite Hp. run_eval. rewrite Hr. run_eval.
  fold branch. rewrite Ha. run_eval. rewrite Hu. run_eval.
  assert (Hcustom : forall st0, exists added,
            readCustomPatterns (repo ref) branch zipEntries st0
            = (Ok (customPatternsOf (repo ref) branch zipEntries),
               mkRun (calls st0 ++ map CallGetData added)
                     (out (snd (readCustomPatterns (repo ref) branch
                                  zipEntries st0))))).
  { intros st0. unfold readCustomPatterns, customPatternsOf.
    destruct (findDocxIgnore (repo ref) branch zipEntries) as [entry|] eqn:Ef.
    - destruct (Hd entry eq_refl) as [content Hc]. run_eval. rewrite Hc.
      exists [entryName entry]. reflexivity.
    - exists []. cbn [map]. rewrite List.app_nil_r. now destruct st0. }
  match goal with
  | |- context [readCustomPatterns _ _ _ ?s] =>
      destruct (Hcustom s) as [added1 E1]; rewrite E1
  end.
  run_eval. fold all.
  match goal with
  | |- context [runLoop ?r ?b ?a ?c ?z ?s] =>
      destruct (runLoop_throws r b a c z s Hall)
        as (e & walked & E2 & Hentry);
      rewrite E2
  end.
  run_eval.
  exists e. eexists. split; [reflexivity|]. split; [exact Hentry|].
  cbn [calls out]. split; [apply last_last|].
  eexists. rewrite <- !List.app_assoc. split; [reflexivity|].
  cbn [List.app forallb is_output_call negb andb].
  now rewrite forallb_app, !forallb_getData_calls.
Qed.

(** The options bring in a pattern that the matcher refuses: the
    conversion of the end-to-end scenario fails. *)
Lemma repo2docx_ignore_check_failure_witness :
  exists e st',
    repo2docx (H := sampleLibraries) (sampleWorld sampleArchive)
      "owner/repo" None (mkOptions None None (Some [overlongPattern]))
      freshRun
    = (Throw e, st') /\
    last (out st') PrintUsage = ErrorCreating e.
Proof.
  destruct (repo2docx_ignore_check_failure (H := sampleLibraries)
              (sampleWorld sampleArchive) "owner/repo" None
              (mkOptions None None (Some [overlongPattern]))
              (mkRef "owner" "repo") [] sampleArchive freshRun)
    as (e & st' & E & _ & Hl & _); try reflexivity.
  - intros entry Hf. vm_compute in Hf. discriminate.
  - exists e, st'. split; [exact E | exact Hl].
Defined.


(* ------------------------------------------------------------------ *)
(** ** The command line *)

Section CliFacts.

Lemma has_arg_In (args : list string) (flag : string) :
  has_arg args flag = true <-> In flag args.
Proof.
  unfold has_arg. rewrite existsb_exists. split.
  - intros (x & Hin & E). apply String.eqb_eq in E. now subst.
  - intros Hin. exists flag. split; [exact Hin | apply String.eqb_refl].
Qed.

Lemma flag_setter_cases (arg : string)
  (set : option string -> CliOptions -> CliOptions) :
  flag_setter arg = Some set ->
  ((arg = "-o" \/ arg = "--output") /\ set = set_outputPath) \/
  ((arg = "-b" \/ arg = "--branch") /\ set = set_branch) \/
  ((arg = "-t" \/ arg = "--token") /\ set = set_token) \/
  ((arg = "-i" \/ arg = "--ignore") /\ set = set_localIgnorePath).
Proof.
  unfold flag_setter.
  destruct (String.eqb_spec arg "-o"); [intros [= <-]; auto|].
  destruct (String.eqb_spec arg "--output"); [intros [= <-]; auto|].
  destruct (String.eqb_spec arg "-b"); [intros [= <-]; auto 6|].
  destruct (String.eqb_spec arg "--branch"); [intros [= <-]; auto 6|].
  destruct (String.eqb_spec arg "-t"); [intros [= <-]; auto 8|].
  destruct (String.eqb_spec arg "--token"); [intros [= <-]; auto 8|].
  destruct (String.eqb_spec arg "-i"); [intros [= <-]; auto 10|].
  destruct (String.eqb_spec arg "--ignore"); [intros [= <-]; auto 10|].
  discriminate.
Qed.

Lemma parseFlags_compose (a b : list string) (o : CliOptions) :
  whole_units a -> parseFlags (a ++ b) o = parseFlags b (parseFlags a o).
Proof.
  intros Ha. revert o.
  induction Ha as [|arg value rest Hf _ IH|arg rest Hf _ IH]; intros o.
  - reflexivity.
  - cbn [List.app parseFlags].
    destruct (flag_setter arg); [apply IH | contradiction].
  - cbn [List.app parseFlags]. rewrite Hf. apply IH.
Qed.

End CliFacts.

(** X16: the help flag wins.  With no argument, or with [-h] or [--help]
    anywhere among the arguments (even where the value of another flag is
    expected, and even beside [-v]), [main] prints the usage and ends with
    exit code 0, and calls nothing. *)
Theorem main_help `{Libraries} (world : World) (args : list string)
  (st : RunState) :
  args = [] \/ In "-h"%string args \/ In "--help"%string args ->
  main world args st = (Ok 0%N, mkRun (calls st) (out st ++ [PrintUsage])).
Proof.
  intros Hh. unfold main.
  assert (E : (List.length args =? 0)%nat || has_arg args "-h"
              || has_arg args "--help" = true).
  { destruct Hh as [->|[Hh|Hh]].
    - reflexivity.
    - apply has_arg_In in Hh. rewrite Hh. now rewrite orb_true_r.
    - apply has_arg_In in Hh. rewrite Hh. now rewrite orb_true_r. }
  rewrite E. reflexivity.
Qed.

Lemma main_help_witness :
  main (H := sampleLibraries) (sampleWorld sampleArchive)
    ["owner/repo"; "-o"; "-h"; "-v"] freshRun
  = (Ok 0%N, mkRun [] [PrintUsage]).
Proof.
  apply (main_help (H := sampleLibraries) (sampleWorld sampleArchive)
           ["owner/repo"; "-o"; "-h"; "-v"] freshRun).
  right; left. cbn. tauto.
Defined.

(** X17: an option that no argument names keeps the value it had before
    the arguments were read: the branch stays ["main"] and the token stays
    that of the environment unless [-b] or [--branch], [-t] or [--token] is
    among the arguments, and likewise for the output path and the local
    ignore file. *)
Theorem parseFlags_untouched (args : list string) (o : CliOptions) :
  (~ In "-o"%string args -> ~ In "--output"%string args ->
   cli_outputPath (parseFlags args o) = cli_outputPath o) /\
  (~ In "-b"%string args -> ~ In "--branch"%string args ->
   cli_branch (parseFlags args o) = cli_branch o) /\
  (~ In "-t"%string args -> ~ In "--token"%string args ->
   cli_token (parseFlags args o) = cli_token o) /\
  (~ In "-i"%string args -> ~ In "--ignore"%string args ->
   cli_localIgnorePath (parseFlags args o) = cli_localIgnorePath o).
Proof.
  assert (Hall : forall n args o, List.length args <= n ->
    (~ In "-o"%string args -> ~ In "--output"%string args ->
     cli_outputPath (parseFlags args o) = cli_outputPath o) /\
    (~ In "-b"%string args -> ~ In "--branch"%string args ->
     cli_branch (parseFlags args o) = cli_branch o) /\
    (~ In "-t"%string args -> ~ In "--token"%string args ->
     cli_token (parseFlags args o) = cli_token o) /\
    (~ In "-i"%string args -> ~ In "--ignore"%string args ->
     cli_localIgnorePath (parseFlags args o) = cli_localIgnorePath o)).
  { clear args o. intros n. induction n as [|n IH]; intros [|arg rest] o Hn;
      cbn [List.length] in Hn; try lia; try (repeat split; reflexivity).
    cbn [parseFlags]. destruct (flag_setter arg) as [set|] eqn:Ef.
    - apply flag_setter_cases in Ef.
      destruct rest as [|value rest'].
      + destruct Ef as [[Ha ->]|[[Ha ->]|[[Ha ->]|[Ha ->]]]];
          repeat split; intros H1 H2; try reflexivity;
          exfalso; destruct Ha as [->| ->]; cbn in H1, H2; tauto.
      + destruct (IH rest' (set (Some value) o)) as (I1 & I2 & I3 & I4);
          [cbn [List.length] in Hn; lia|].
        destruct Ef as [[Ha ->]|[[Ha ->]|[[Ha ->]|[Ha ->]]]];
          repeat split; intros H1 H2;
          try (exfalso; destruct Ha as [->| ->]; cbn in H1, H2; tauto);
          first [ rewrite I1 | rewrite I2 | rewrite I3 | rewrite I4 ];
          try reflexivity; cbn in H1, H2; tauto.
    - destruct (IH rest o) as (I1 & I2 & I3 & I4); [lia|].
      repeat split; intros H1 H2;
        first [ apply I1 | apply I2 | apply I3 | apply I4 ];
        cbn in H1, H2; tauto. }
  exact (Hall (List.length args) args o (le_n _)).
Qed.

Lemma parseFlags_untouched_witness :
  cli_branch
    (parseFlags ["-o"; "out.docx"; "-t"; "secret"]
       (initialCliOptions (sampleWorld [])))
  = Some "main"%string.
Proof.
  apply (parseFlags_untouched ["-o"; "out.docx"; "-t"; "secret"]
           (initialCliOptions (sampleWorld [])));
    cbn; intros [E|[E|[E|[E|[]]]]]; discriminate.
Defined.

(** X18: reading the arguments can be done in pieces, as long as a piece
    does not end between a flag and its value; hence the last of several
    [-b] flags gives the branch, and a [-b] that is the last argument
    leaves the branch without a value. *)
Theorem parseFlags_last_wins (a : list string) :
  whole_units a ->
  (forall b o, parseFlags (a ++ b) o = parseFlags b (parseFlags a o)) /\
  (forall value o,
     cli_branch (parseFlags (a ++ ["-b"; value]%string) o) = Some value) /\
  (forall o, cli_branch (parseFlags (a ++ ["-b"%string]) o) = None).
Proof.
  intros Ha. split; [|split].
  - intros b o. now apply parseFlags_compose.
  - intros value o. now rewrite parseFlags_compose.
  - intros o. now rewrite parseFlags_compose.
Qed.

Lemma parseFlags_last_wins_witness :
  cli_branch
    (parseFlags ["-b"; "dev"; "extra"; "-b"; "release"]
       (initialCliOptions (sampleWorld [])))
  = Some "release"%string.
Proof.
  apply (parseFlags_last_wins ["-b"; "dev"; "extra"]%string).
  apply units_flag; [discriminate|].
  apply units_other; [reflexivity|]. apply units_nil.
Defined.

(** Reading the local ignore file returns, after the one call. *)
Lemma readLocalDocxIgnore_returns (world : World) (filePath : string)
  (st : RunState) :
  exists ps st1,
    readLocalDocxIgnore world filePath st = (Ok ps, st1) /\
    calls st1 = calls st ++ [CallReadFile filePath].
Proof.
  unfold readLocalDocxIgnore. run_eval.
  destruct (readFileSync world filePath) as [content|e]; run_eval;
    now eexists _, _.
Qed.

(** X19: [readLocalDocxIgnore] never throws.  A file that can be read
    gives the patterns that [parseDocxIgnore] gives for its content; a file
    that cannot be read is reported and gives no pattern. *)
Theorem readLocalDocxIgnore_spec (world : World) (filePath : string)
  (st : RunState) :
  match readFileSync world filePath with
  | Ok content =>
      readLocalDocxIgnore world filePath st
      = (Ok (parseDocxIgnore content),
         mkRun (calls st ++ [CallReadFile filePath])
               (out st ++ [LogReadPatterns
                             (List.length (parseDocxIgnore content))
                             filePath]))
  | Throw e =>
      readLocalDocxIgnore world filePath st
      = (Ok [],
         mkRun (calls st ++ [CallReadFile filePath])
               (out st ++ [ErrorReadIgnore (message e)]))
  end.
Proof.
  unfold readLocalDocxIgnore. run_eval.
  destruct (readFileSync world filePath) as [content|e]; run_eval.
  - now rewrite IgnoreFileFacts.parseDocxIgnore_patterns_of.
  - reflexivity.
Qed.

(** X20: when the first argument is not a repository identifier that
    [parseRepoIdentifier] accepts (for one, when an option comes first),
    [main] ends with exit code 1 and the parser's message as its last
    message, and calls neither the hosting service nor the network: the
    only call it may have made is the reading of the local ignore file. *)
Theorem main_invalid_identifier `{Libraries} (world : World)
  (repoIdentifier : string) (rest : list string) (e : Error) (st : RunState) :
  has_arg (repoIdentifier :: rest) "-h" = false ->
  has_arg (repoIdentifier :: rest) "--help" = false ->
  has_arg (repoIdentifier :: rest) "-v" = false ->
  has_arg (repoIdentifier :: rest) "--version" = false ->
  repoIdentifier <> EmptyString ->
  parseRepoIdentifier repoIdentifier = Throw e ->
  exists st',
    main world (repoIdentifier :: rest) st = (Ok 1%N, st') /\
    last (out st') PrintUsage = ErrorMessage (message e) /\
    (calls st' = calls st \/
     exists path, calls st' = calls st ++ [CallReadFile path]).
Proof.
  intros H1 H2 H3 H4 Hne Hp. unfold main. rewrite H1, H2, H3, H4.
  cbn [List.length Nat.eqb orb].
  replace (JsString.truthy repoIdentifier) with true
    by (now destruct repoIdentifier).
  cbn [negb].
  set (o := parseFlags rest (initialCliOptions world)).
  assert (Hstage : forall (stage : Run (list string)) st1,
            stage st = (Ok [], st1) \/ (exists ps, stage st = (Ok ps, st1)) ->
            calls st1 = calls st \/
            (exists path, calls st1 = calls st ++ [CallReadFile path]) ->
            exists st',
              rtry
                (rbind stage (fun ignorePaths =>
                 rbind (say (LogConverting repoIdentifier)) (fun _ =>
                 rbind (repo2docx world repoIdentifier (cli_outputPath o)
                          (mkOptions (cli_token o) (cli_branch o)
                             (Some ignorePaths)))
                   (fun filePath =>
                 rbind (say (LogCreated filePath)) (fun _ => rret 0%N)))))
                (fun error =>
                 rbind (say (ErrorMessage (message error)))
                   (fun _ => rret 1%N)) st
              = (Ok 1%N, st') /\
              last (out st') PrintUsage = ErrorMessage (message e) /\
              (calls st' = calls st \/
               exists path, calls st' = calls st ++ [CallReadFile path])).
  { intros stage st1 Hs Hc.
    assert (Hps : exists ps, stage st = (Ok ps, st1))
      by (destruct Hs as [Hs|Hs]; [now exists [] | exact Hs]).
    destruct Hps as [ps Eps]. unfold repo2docx. rewrite Hp.
    run_eval. rewrite Eps. run_eval.
    eexists. split; [reflexivity|]. cbn [calls out].
    split; [apply last_last | exact Hc]. }
  destruct (cli_localIgnorePath o) as [path|].
  - destruct (JsString.truthy path).
    + destruct (readLocalDocxIgnore_returns world path st)
        as (ps & st1 & Er & Hc1).
      apply (Hstage _ st1 (or_intror (ex_intro _ ps Er))).
      right. now exists path.
    + apply (Hstage (rret []) st); now left.
  - apply (Hstage (rret []) st); now left.
Qed.

Lemma main_invalid_identifier_witness :
  exists st',
    main (H := sampleLibraries) (sampleWorld sampleArchive)
      ["-o"; "out.docx"; "owner/repo"] freshRun
    = (Ok 1%N, st') /\
    last (out st') PrintUsage = ErrorMessage (message invalid_identifier).
Proof.
  destruct (main_invalid_identifier (H := sampleLibraries)
              (sampleWorld sampleArchive) "-o" ["out.docx"; "owner/repo"]
              invalid_identifier freshRun)
    as (st' & E & Hl & _); try reflexivity.
  - discriminate.
  - exists st'. split; [exact E | exact Hl].
Defined.

(* ------------------------------------------------------------------ *)
(** ** The document and the summary *)

Section HeadingFacts.
Context `{Libraries}.
Variables (repo_name branch : string) (ignorePatterns : list string).

Lemma count_file_headings_app (a b : list Paragraph) :
  count_file_headings (a ++ b)
  = count_file_headings a + count_file_headings b.
Proof. unfold count_file_headings. now rewrite filter_app, length_app. Qed.

Lemma count_file_headings_lines (lines : list string) :
  count_file_headings
    (map (fun line =>
            mkParagraph None
              (match line with EmptyString => " "%string | _ => line end)
              None false None)
         lines) = 0.
Proof. induction lines as [|l ls IH]; [reflexivity | exact IH]. Qed.

Lemma count_file_headings_section (entry : ZipEntry) :
  count_file_headings (entrySection repo_name branch ignorePatterns entry)
  = if negb (isDirectory entry)
       && has_verdict repo_name branch ignorePatterns Included entry
    then 1 else 0.
Proof.
  unfold entrySection, has_verdict.
  destruct (isDirectory entry); [reflexivity|]. cbn [negb andb].
  unfold verdict. cbv zeta.
  destruct (shouldIgnorePath _ _) as [[]|e]; [reflexivity| |reflexivity].
  destruct (isBinaryFile _); [reflexivity|].
  destruct (getData entry) as [data|]; [|reflexivity].
  destruct (isValidTextContent _); [|reflexivity].
  unfold fileSection.
  match goal with
  | |- count_file_headings (?h :: ?l ++ [?sep]) = _ =>
      change (h :: l ++ [sep]) with ([h] ++ l ++ [sep])
  end.
  rewrite !count_file_headings_app, count_file_headings_lines. reflexivity.
Qed.

Lemma count_file_headings_sections (zipEntries : list ZipEntry) :
  count_file_headings
    (flat_map (entrySection repo_name branch ignorePatterns) zipEntries)
  = tally repo_name branch ignorePatterns Included zipEntries.
Proof.
  induction zipEntries as [|entry rest IH]; [reflexivity|].
  cbn [flat_map].
  rewrite count_file_headings_app, count_file_headings_section, IH.
  now rewrite (tally_cons_nat repo_name branch ignorePatterns).
Qed.

End HeadingFacts.

(** X21: the summary agrees with the document: whether the loop returns or
    throws, it has added as many file headings to the document as it has
    added to the count of processed files. *)
Theorem walk_headings_processed `{Libraries}
  (repo_name branch : string) (ignorePatterns : list string)
  (zipEntries : list ZipEntry) (st : WalkState) :
  let st' := snd (processEntries repo_name branch ignorePatterns zipEntries st) in
  (N.of_nat (count_file_headings (children st')) + processedFiles st
   = N.of_nat (count_file_headings (children st)) + processedFiles st')%N.
Proof.
  cbv zeta.
  destruct (processEntries_prefix repo_name branch ignorePatterns
              zipEntries st) as (done & rest & _ & _ & (Hn & Hc & _) & _).
  rewrite Hc, count_file_headings_app, count_file_headings_sections.
  specialize (Hn Included). cbn [counter] in Hn. lia.
Qed.

(** The archive of the end-to-end scenario with an ignore file that
    excludes the sources: no file is processed, and the ignore file itself
    is. *)
Example repo2docx_ignoringArchive :
  let '(r, st') :=
    repo2docx (H := sampleLibraries) (sampleWorld ignoringArchive)
      "owner/repo" (Some "out.docx"%string) (mkOptions None None None)
      freshRun in
  r = Ok "out.docx"%string /\
  In (LogFoundDocxIgnore 1) (out st') /\
  In (LogSummary 1 3 1 0 0) (out st').
Proof. vm_compute. intuition. Qed.

(* ------------------------------------------------------------------ *)
(** ** The exit code *)

(** X22: with at least one argument, no help flag and [-v] or [--version]
    anywhere among the arguments, [main] loads the package description and
    does nothing else: when that succeeds it prints the version and ends
    with exit code 0; when it fails the error escapes [main], which has no
    handler around it. *)
Theorem main_version `{Libraries} (world : World) (args : list string)
  (st : RunState) :
  args <> [] -> ~ In "-h"%string args -> ~ In "--help"%string args ->
  In "-v"%string args \/ In "--version"%string args ->
  main world args st
  = match package_version world with
    | Ok version =>
        (Ok 0%N, mkRun (calls st ++ [CallRequirePackage])
                       (out st ++ [PrintVersion version]))
    | Throw e => (Throw e, mkRun (calls st ++ [CallRequirePackage]) (out st))
    end.
Proof.
  intros Hne Hh1 Hh2 Hv. unfold main.
  replace (has_arg args "-h") with false
    by (symmetry; apply not_true_is_false; now rewrite has_arg_In).
  replace (has_arg args "--help") with false
    by (symmetry; apply not_true_is_false; now rewrite has_arg_In).
  replace (has_arg args "-v" || has_arg args "--version") with true
    by (symmetry; apply orb_true_iff; now rewrite !has_arg_In).
  destruct args as [|arg rest]; [contradiction|].
  cbn [List.length Nat.eqb orb]. run_eval.
  destruct (package_version world); reflexivity.
Qed.

Lemma main_version_witness :
  main (H := sampleLibraries) (sampleWorld sampleArchive)
    ["owner/repo"; "-o"; "--version"] freshRun
  = (Ok 0%N, mkRun [CallRequirePackage] [PrintVersion "1.0.0"]).
Proof.
  apply (main_version (H := sampleLibraries) (sampleWorld sampleArchive)
           ["owner/repo"; "-o"; "--version"] freshRun).
  - discriminate.
  - cbn. intros [E|[E|[E|[]]]]; discriminate.
  - cbn. intros [E|[E|[E|[]]]]; discriminate.
  - right. cbn. tauto.
Defined.

(** The version flag in a world without a package description. *)
Example main_version_unpackaged :
  fst (main (H := sampleLibraries) unpackagedWorld ["-v"] freshRun)
  = Throw (mkError "Cannot find module './package.json'").
Proof. reflexivity. Qed.

(** X23: [main] turns every failure of the conversion into exit code 1.
    Whatever the world answers, [main] ends with exit code 0 after the
    usage, the version or the message that the document was created, or
    with exit code 1 after the usage that follows a missing repository or
    after the message of the error that [repo2docx] threw; the only error
    that escapes [main] is a failure to load the package description. *)
Theorem main_outcome `{Libraries} (world : World) (args : list string)
  (st : RunState) :
  match main world args st with
  | (Ok code, st') =>
      (code = 0%N /\
       exists before m,
         out st' = before ++ [m] /\
         (m = PrintUsage \/ (exists version, m = PrintVersion version) \/
          exists path, m = LogCreated path))
      \/
      (code = 1%N /\
       ((calls st' = calls st /\
         out st' = out st ++ [ErrorRepositoryRequired; PrintUsage]) \/
        exists repoIdentifier rest outputPath options st1 e st2,
          args = repoIdentifier :: rest /\
          repo2docx world repoIdentifier outputPath options st1
          = (Throw e, st2) /\
          calls st' = calls st2 /\
          out st' = out st2 ++ [ErrorMessage (message e)]))
  | (Throw e, st') => package_version world = Throw e
  end.
Proof.
  unfold main.
  destruct ((List.length args =? 0)%nat || has_arg args "-h"
            || has_arg args "--help").
  { run_eval. left. split; [reflexivity|]. exists (out st), PrintUsage. auto. }
  destruct (has_arg args "-v" || has_arg args "--version").
  { run_eval. destruct (package_version world) as [version|e]; [|reflexivity].
    left. split; [reflexivity|].
    exists (out st), (PrintVersion version). split; [reflexivity|].
    right; left. now exists version. }
  destruct args as [|repoIdentifier rest].
  { run_eval. right. split; [reflexivity|]. left.
    split; [reflexivity|]. now rewrite <- List.app_assoc. }
  destruct (JsString.truthy repoIdentifier); cbn [negb].
  2:{ run_eval. right. split; [reflexivity|]. left.
      split; [reflexivity|]. now rewrite <- List.app_assoc. }
  set (o := parseFlags rest (initialCliOptions world)).
  match goal with
  | |- context [rtry (rbind ?m _)] => set (stage := m)
  end.
  assert (Hstage : exists ps st1, stage st = (Ok ps, st1)).
  { unfold stage.
    destruct (cli_localIgnorePath o) as [path|]; [|now exists [], st].
    destruct (JsString.truthy path); [|now exists [], st].
    destruct (readLocalDocxIgnore_returns world path st)
      as (ps & st1 & Er & _).
    now exists ps, st1. }
  destruct Hstage as (ps & st1 & Es). clearbody stage.
  run_eval. rewrite Es. run_eval.
  match goal with
  | |- context [repo2docx world repoIdentifier ?p ?opts ?s] =>
      destruct (repo2docx world repoIdentifier p opts s)
        as [[filePath|e] st2] eqn:Er
  end; run_eval.
  - left. split; [reflexivity|]. exists (out st2), (LogCreated filePath).
    split; [reflexivity|]. right; right. now exists filePath.
  - right. split; [reflexivity|]. right.
    do 7 eexists. split; [reflexivity|]. split; [exact Er|].
    split; reflexivity.
Qed.
